(** * Calculation forests and inter-table reconciliation of [pudl.output.ferc1]

    A shallow embedding of the explosion machinery of
    [src/pudl/output/ferc1.py]: [MetadataExploder], [Exploder],
    [XbrlCalculationForestFerc1] and the functions of the module that they
    call, together with the statements of the specification that concern
    them and with further properties of the same code.

    Conventions of the embedding.
    - A Python [float] is an IEEE 754 binary64 number: [PrimFloat.float].  A
      pandas null in a float column is NaN.
    - A data frame is the list of its rows, in row order; a row is a record of
      the columns the modelled functions touch.
    - The [calculations] column holds JSON text in the source; the embedding
      holds what [json.loads] returns for it, a list of components, and the
      text ["[]"] is the empty list.
    - A raised exception is the [Raise] outcome of [result]; the message of an
      f-string is the list of its literal and formatted fragments.
    - [networkx], [pandas], [numpy] and [pydantic] are libraries outside the
      repository; the few operations of them that the code calls are modelled
      in [nx], [np] and next to their callers, after their documented
      behaviour. *)

From Stdlib Require Import List String Ascii Bool Arith ZArith Lia Floats.
Import ListNotations.

Set Warnings "-inexact-float".
Local Open Scope string_scope.
Local Open Scope list_scope.

(** ** Nodes *)

(** [class NodeId(NamedTuple)]: the source table and the factoid of a node. *)
Record NodeId : Type := mkNodeId {
  source_table : string;
  node_factoid : string   (* the field [xbrl_factoid] of the named tuple *)
}.

Definition NodeId_eqb (a b : NodeId) : bool :=
  String.eqb (source_table a) (source_table b)
  && String.eqb (node_factoid a) (node_factoid b).

(** ** Python values and control *)

(** A fragment of an f-string: literal text or a formatted value. *)
Inductive fragment : Type :=
| Text (s : string)
| Num (x : float)
| Nodes (l : list NodeId)
| Names (l : list (option string)).

Inductive exn_kind : Type :=
| ValueError | AssertionError | KeyError | IndexError | AttributeError
| ZeroDivisionError | NetworkXError | NetworkXPointlessConcept | MergeError.

Record exn : Type := mkExn { kind : exn_kind; message : list fragment }.

Inductive result (A : Type) : Type :=
| Ok (a : A)
| Raise (e : exn).
Arguments Ok {A} a.
Arguments Raise {A} e.

Definition bind {A B : Type} (m : result A) (k : A -> result B) : result B :=
  match m with
  | Ok a => k a
  | Raise e => Raise e
  end.

Notation "x <- m ;; k" := (bind m (fun x => k))
  (at level 61, m at next level, right associativity).

(** [assert cond]: an [AssertionError] without message when [cond] is false. *)
Definition assert (cond : bool) : result unit :=
  if cond then Ok tt else Raise (mkExn AssertionError []).

Module Py.

(** [x in l] for a list of strings. *)
Definition str_in (x : string) (l : list string) : bool :=
  existsb (String.eqb x) l.

(** [any(l)]. *)
Definition any (l : list bool) : bool := existsb (fun b => b) l.

(** [s.endswith(suffix)]: some tail of [s] is [suffix]. *)
Fixpoint endswith (s suffix : string) : bool :=
  if String.eqb s suffix then true
  else match s with
       | EmptyString => false
       | String _ s' => endswith s' suffix
       end.

(** The distinct elements of a list, first occurrences kept: what
    [Series.unique()] returns, and the elements of [set(l)]. *)
Fixpoint unique {A : Type} (eqb : A -> A -> bool) (l : list A) : list A :=
  match l with
  | [] => []
  | x :: l' => x :: filter (fun y => negb (eqb x y)) (unique eqb l')
  end.

(** Truth value of a float: [0.0], [-0.0] are falsy, everything else
    (NaN included) is truthy. *)
Definition float_truthy (x : float) : bool := negb (PrimFloat.eqb x 0%float).

(** An expression statement: the value is computed and dropped. *)
Definition expr_stmt {A B : Type} (value : A) (next : B) : B := next.

(** A dictionary in insertion order: [d.get(k)], [d[k] = v] and
    [d1 |= d2]. *)
Section Dict.
Context {K V : Type} (eqb : K -> K -> bool).

Fixpoint dict_get (d : list (K * V)) (k : K) : option V :=
  match d with
  | [] => None
  | (k', v) :: rest => if eqb k' k then Some v else dict_get rest k
  end.

Fixpoint dict_set (d : list (K * V)) (k : K) (v : V) : list (K * V) :=
  match d with
  | [] => [(k, v)]
  | (k', v') :: rest =>
    if eqb k' k then (k', v) :: rest else (k', v') :: dict_set rest k v
  end.

Definition dict_update (d1 d2 : list (K * V)) : list (K * V) :=
  fold_left (fun d kv => dict_set d (fst kv) (snd kv)) d2 d1.
End Dict.

(** A loop whose body may raise. *)
Fixpoint foldM {A S : Type} (body : S -> A -> result S) (l : list A) (s : S)
  : result S :=
  match l with
  | [] => Ok s
  | x :: rest => s' <- body s x ;; foldM body rest s'
  end.

Fixpoint mapM {A B : Type} (f : A -> result B) (l : list A) : result (list B) :=
  match l with
  | [] => Ok []
  | x :: rest => y <- f x ;; ys <- mapM f rest ;; Ok (y :: ys)
  end.

End Py.

(** ** Exploded metadata *)

(** One component of a calculation, as [json.loads] gives it. *)
Record CalcComponent : Type := mkCalc {
  name : string;
  weight : float;
  source_tables : list string
}.

(** One row of the exploded metadata. *)
Record MetaRow : Type := mkMeta {
  table_name : string;
  xbrl_factoid : string;
  calculations : list CalcComponent;
  row_type_xbrl : string;
  xbrl_factoid_original : string;
  intra_table_calc_flag : bool
}.

Definition node_of_row (r : MetaRow) : NodeId :=
  mkNodeId (table_name r) (xbrl_factoid r).

(** A row of the calculation component table: the component, the factoid
    and table it belongs to, and the metadata columns merged back on
    ([None] where the left merge found no metadata row). *)
Record CalcRow : Type := mkCalcRow {
  comp : CalcComponent;
  calc_table_name : string;
  calc_xbrl_factoid : string;
  calc_meta : option (string * string * bool);
  in_explosion : bool
}.

(** [in_explosion_tables(source_tables, in_explosion_table_names)]. *)
Definition in_explosion_tables
    (source_tables in_explosion_table_names : list string) : bool :=
  Py.any (map (fun _ => true)
              (filter (fun tbl => Py.str_in tbl in_explosion_table_names)
                      source_tables)).

(** The left merge of one component row onto the metadata, on
    ([xbrl_factoid], [table_name]). *)
Definition merge_meta_left (metadata : list MetaRow)
    (c : CalcComponent) (tbl factoid : string) : list CalcRow :=
  let hits :=
    filter (fun m => String.eqb (xbrl_factoid m) factoid
                     && String.eqb (table_name m) tbl) metadata in
  match hits with
  | [] => [mkCalcRow c tbl factoid None false]
  | _ => map (fun m => mkCalcRow c tbl factoid
                         (Some (row_type_xbrl m, xbrl_factoid_original m,
                                intra_table_calc_flag m)) false) hits
  end.

(** [convert_calculations_into_calculation_component_table(metadata)].
    [pd.concat] raises a [ValueError] on an empty list of frames; when no
    row has any component the result has no [source_tables] column, which
    the caller's attribute access turns into an [AttributeError]: the
    second component of the result says whether the column exists. *)
Definition convert_calculations_into_calculation_component_table
    (metadata : list MetaRow) : result (list CalcRow * bool) :=
  match metadata with
  | [] => Raise (mkExn ValueError [Text "No objects to concatenate"])
  | _ =>
    let calcs :=
      flat_map (fun r => map (fun c => (c, table_name r, xbrl_factoid r))
                             (calculations r)) metadata in
    Ok (flat_map (fun '(c, tbl, factoid) => merge_meta_left metadata c tbl factoid)
                 calcs,
        negb (Nat.eqb (List.length calcs) 0))
  end.

Module MetadataExploder.

(** The instance: its table names, and the side channel
    [inter_table_components_in_intra_table_calc] once it has been set. *)
Record t : Type := mk {
  table_names : list string;
  inter_table_components_in_intra_table_calc : list string
}.

(** The assignment of [("[]", "reported_value")] to one row. *)
Definition demote (r : MetaRow) : MetaRow :=
  mkMeta (table_name r) (xbrl_factoid r) [] "reported_value"
         (xbrl_factoid_original r) (intra_table_calc_flag r).

(** [MetadataExploder.redefine_calculations_with_components_out_of_explosion]:
    returns the rewritten metadata and the updated instance. *)
Definition redefine_calculations_with_components_out_of_explosion
    (self : t) (meta_explode : list MetaRow) : result (list MetaRow * t) :=
  ce <- convert_calculations_into_calculation_component_table meta_explode ;;
  let '(rows, has_source_tables) := ce in
  if negb has_source_tables then
    Raise (mkExn AttributeError [Text "source_tables"])
  else
    let calc_explode :=
      map (fun r => mkCalcRow (comp r) (calc_table_name r) (calc_xbrl_factoid r)
                      (calc_meta r)
                      (in_explosion_tables (source_tables (comp r))
                                           (table_names self))) rows in
    let not_in := filter (fun r => negb (in_explosion r)) calc_explode in
    let not_in_explosion_xbrl_factoids :=
      Py.unique String.eqb (map calc_xbrl_factoid not_in) in
    let self' :=
      mk (table_names self)
         (Py.unique String.eqb (map (fun r => name (comp r)) not_in)) in
    Ok (map (fun r => if Py.str_in (xbrl_factoid r) not_in_explosion_xbrl_factoids
                      then demote r else r) meta_explode,
        self').

End MetadataExploder.

(** ** numpy *)

Module np.

Definition rtol : float := 1e-05%float.
Definition atol : float := 1e-08%float.

Definition isfinite (x : float) : bool :=
  negb (PrimFloat.is_nan x || PrimFloat.is_infinity x).

(** [numpy.isclose(a, b)] on one pair, default tolerances, [equal_nan]
    false: [|a - b| <= atol + rtol * |b|] for finite operands, equality
    otherwise. *)
Definition isclose (a b : float) : bool :=
  if isfinite a && isfinite b then
    PrimFloat.leb (PrimFloat.abs (PrimFloat.sub a b))
                  (PrimFloat.add atol (PrimFloat.mul rtol (PrimFloat.abs b)))
  else PrimFloat.eqb a b.

End np.

(** ** The exploder *)

(** The parameters of a table transformer that the exploder reads:
    [FERC1_TFR_CLASSES[table_name]().params]. *)
Record TableParams : Type := mkParams {
  xbrl_factoid_name : string;
  column_to_check : option string;    (* [reconcile_table_calculations.column_to_check] *)
  subtotal_column : option string     (* [reconcile_table_calculations.subtotal_column] *)
}.

(** A row of the concatenated exploded data.  [value] is the column that
    [Exploder.value_col] names. *)
Record DataRow : Type := mkData {
  d_table_name : string;
  d_xbrl_factoid : string;
  d_pks : list (string * string);
  d_value : float;
  d_calculated_amount : float;
  d_abs_diff : float;
  d_rel_diff : float;
  d_original_factoid : option string;
  d_row_type_xbrl : option string;
  d_intra_table_calc_flag : option bool;
  d_record_id : option string
}.

(** A data frame of such rows, with whether it has a column
    [calculated_amount]. *)
Record DataFrame : Type := mkFrame {
  has_calculated_amount : bool;
  rows : list DataRow
}.

Module Exploder.

(** The fields of the instance that [value_col] and the reconciliation
    read. *)
Record t : Type := mk {
  table_names : list string;
  root_table : string
}.

Section WithTransformers.

(** The constant table [FERC1_TFR_CLASSES] of [pudl.transform.ferc1] is
    defined outside the modules embedded here: it is a parameter, the
    association of a table name with the parameters of its transformer.
    A table name without an entry is a [KeyError]. *)
Variable FERC1_TFR_CLASSES : list (string * TableParams).

Fixpoint lookup_class (l : list (string * TableParams)) (tbl : string)
  : result TableParams :=
  match l with
  | [] => Raise (mkExn KeyError [Text tbl])
  | (k, p) :: l' => if String.eqb k tbl then Ok p else lookup_class l' tbl
  end.

Fixpoint collect_value_cols (tables : list string)
  : result (list (option string)) :=
  match tables with
  | [] => Ok []
  | tbl :: rest =>
    p <- lookup_class FERC1_TFR_CLASSES tbl ;;
    vs <- collect_value_cols rest ;;
    Ok (column_to_check p :: vs)
  end.

Definition opt_str_eqb (a b : option string) : bool :=
  match a, b with
  | Some x, Some y => String.eqb x y
  | None, None => true
  | _, _ => false
  end.

(** [Exploder.value_col]. *)
Definition value_col (self : t) : result (option string) :=
  value_cols <- collect_value_cols (table_names self) ;;
  let s := Py.unique opt_str_eqb value_cols in
  if negb (Nat.eqb (List.length s) 1) then
    Raise (mkExn ValueError
      [Text "Exploding FERC tables requires tables with only one value column. Got: ";
       Names s])
  else
    match s with
    | v :: _ => Ok v
    | [] => Raise (mkExn KeyError [])
    end.

(** [len(a) / len(b)]: true division of two lengths, the binary64
    number nearest to the quotient (for lengths below [2^53], which
    convert exactly). *)
Definition float_of_nat (n : nat) : float :=
  PrimFloat.of_uint63 (Uint63.of_Z (Z.of_nat n)).

Definition true_div (a b : nat) : result float :=
  if Nat.eqb b 0 then Raise (mkExn ZeroDivisionError [Text "division by zero"])
  else Ok (PrimFloat.div (float_of_nat a) (float_of_nat b)).

Definition notnull (x : float) : bool := negb (PrimFloat.is_nan x).
Definition fillna (x fill : float) : float :=
  if PrimFloat.is_nan x then fill else x.

(** The [assign] of [abs_diff] and [rel_diff]. *)
Definition with_diffs (r : DataRow) : DataRow :=
  let abs_diff := PrimFloat.abs (PrimFloat.sub (d_value r) (d_calculated_amount r)) in
  let rel_diff :=
    if negb (PrimFloat.eqb (d_value r) 0%float)
    then PrimFloat.abs (PrimFloat.div abs_diff (d_value r))
    else PrimFloat.nan in
  mkData (d_table_name r) (d_xbrl_factoid r) (d_pks r) (d_value r)
         (d_calculated_amount r) abs_diff rel_diff (d_original_factoid r)
         (d_row_type_xbrl r) (d_intra_table_calc_flag r) (d_record_id r).

(** The row filter of [off_df]. *)
Definition is_off (r : DataRow) : bool :=
  negb (np.isclose (d_calculated_amount r) (d_value r))
  && notnull (d_abs_diff r).

(** The correction record made from one row of [off_df]. *)
Definition correction_of (r : DataRow) : DataRow :=
  mkData (d_table_name r)
         (d_xbrl_factoid r ++ "_correction")
         (d_pks r)
         (PrimFloat.sub (fillna (d_value r) 0%float) (d_calculated_amount r))
         (d_calculated_amount r) (d_abs_diff r) (d_rel_diff r)
         (Some (d_xbrl_factoid r))
         (Some "correction")
         (Some false)
         None.

(** The frame after the [assign], and the two selections of it that
    the ratio counts. *)
Definition assigned (calculated_df : DataFrame) : DataFrame :=
  mkFrame true (map with_diffs (rows calculated_df)).

Definition off_df (calculated_df : DataFrame) : list DataRow :=
  filter is_off (rows (assigned calculated_df)).

Definition calculated_values (calculated_df : DataFrame) : list DataRow :=
  filter (fun r => notnull (d_abs_diff r)) (rows (assigned calculated_df)).

Definition off_ratio (calculated_df : DataFrame) : result float :=
  true_div (List.length (off_df calculated_df))
           (List.length (calculated_values calculated_df)).

(** The default of the parameter [calculation_tolerance]. *)
Definition default_calculation_tolerance : float := 0.05%float.

(** [Exploder.reconcile_intertable_calculations]. *)
Definition reconcile_intertable_calculations
    (self : t) (calculated_df : DataFrame) (calculation_tolerance : float)
  : result DataFrame :=
  if has_calculated_amount calculated_df then
    vc <- value_col self ;;
    match vc with
    | None => Raise (mkExn KeyError [])
    | Some _ =>
      let off_df := off_df calculated_df in
      let calculated_values := calculated_values calculated_df in
      let calculated_df := assigned calculated_df in
      off_ratio <- true_div (List.length off_df) (List.length calculated_values) ;;
      if PrimFloat.ltb calculation_tolerance off_ratio then
        Raise (mkExn AssertionError
          [Text "Calculations in "; Text (root_table self);
           Text " are off by "; Num off_ratio;
           Text ". Expected tolerance of "; Num calculation_tolerance;
           Text "."])
      else if PrimFloat.ltb 0%float off_ratio then
        let corrections := map correction_of off_df in
        Ok (mkFrame true (rows calculated_df ++ corrections))
      else Ok calculated_df
    end
  else Ok calculated_df.

(** The ratio as the specification words it: the off rows over the rows
    with a non-null calculated value.  Not what the code computes; it
    is here to be compared with [off_ratio]. *)
Definition off_ratio_over_calculated (calculated_df : DataFrame) : result float :=
  true_div (List.length (off_df calculated_df))
           (List.length (filter (fun r => notnull (d_calculated_amount r))
                                (rows (assigned calculated_df)))).

End WithTransformers.

End Exploder.

(** ** Table levels *)

(** A nested dictionary of table names, as [table_nesting] is: a key maps
    to [None] or to a dictionary of the same kind. *)
#[warnings="-register-all"]
Inductive Nesting : Type :=
| Nested (entries : list (string * option Nesting)).

Definition entries (d : Nesting) : list (string * option Nesting) :=
  match d with Nested l => l end.

(** [d[key]], [v.keys()] and [v.values()]; the last two on a value that may
    be [None], which has neither. *)
Definition getitem (d : Nesting) (key : string) : result (option Nesting) :=
  match Py.dict_get String.eqb (entries d) key with
  | Some v => Ok v
  | None => Raise (mkExn KeyError [Text key])
  end.

Definition keys (v : option Nesting) : result (list string) :=
  match v with
  | Some d => Ok (map fst (entries d))
  | None => Raise (mkExn AttributeError [Text "keys"])
  end.

Definition values (v : option Nesting) : result (list (option Nesting)) :=
  match v with
  | Some d => Ok (map snd (entries d))
  | None => Raise (mkExn AttributeError [Text "values"])
  end.

Definition table_nesting : Nesting :=
  Nested
    [ ("balance_sheet_assets_ferc1",
       Some (Nested
               [ ("utility_plant_summary_ferc1",
                  Some (Nested
                          [ ("plant_in_service_ferc1", None);
                            ("electric_plant_depreciation_functional_ferc1", None) ])) ]));
      ("balance_sheet_liabilities_ferc1",
       Some (Nested [ ("retained_earnings_ferc1", None) ]));
      ("income_statement_ferc1",
       Some (Nested
               [ ("depreciation_amortization_summary_ferc1", None);
                 ("electric_operating_expenses_ferc1", None);
                 ("electric_operating_revenues_ferc1", None) ])) ].

Section WithHelpers.

(** [pudl.helpers.dedupe_n_flatten_list_of_lists] is defined outside the
    modules embedded here: it is a parameter. *)
Variable dedupe_n_flatten_list_of_lists : list (list string) -> list string.

(** [get_table_level(table_name, top_table)]. *)
Definition get_table_level (table_name top_table : string) : result Z :=
  if String.eqb table_name top_table then Ok 1%Z
  else
    sub <- getitem table_nesting top_table ;;
    ks <- keys sub ;;
    if Py.str_in table_name ks then Ok 2%Z
    else
      sub <- getitem table_nesting top_table ;;
      vs <- values sub ;;
      kss <- Py.mapM keys vs ;;
      if Py.str_in table_name (dedupe_n_flatten_list_of_lists kss) then Ok 3%Z
      else
        Raise (mkExn AssertionError
          [Text "AH we didn't find yer table name "; Text table_name;
           Text " in the nested group of tables. Be sure all the tables you are trying to explode are related."]).

End WithHelpers.

(** ** networkx *)

Module nx.

Definition Tags : Type := list (string * string).

(** The attribute dictionary of a node: the three keys the code uses,
    each present or not. *)
Record NodeAttrs : Type := mkAttrs {
  attr_xbrl_factoid_original : option string;
  attr_weight : option float;
  attr_tags : option Tags
}.

Definition no_attrs : NodeAttrs := mkAttrs None None None.

(** A [DiGraph]: its nodes with their attributes, and its edges, both in
    insertion order (the order in which networkx iterates them). *)
Record DiGraph : Type := mkGraph {
  nodes : list (NodeId * NodeAttrs);
  edges : list (NodeId * NodeId)
}.

Definition empty : DiGraph := mkGraph [] [].

Definition node_in (n : NodeId) (l : list NodeId) : bool :=
  existsb (NodeId_eqb n) l.

Definition node_list (g : DiGraph) : list NodeId := map fst (nodes g).

Definition has_node (g : DiGraph) (n : NodeId) : bool :=
  node_in n (node_list g).

Definition edge_eqb (e1 e2 : NodeId * NodeId) : bool :=
  NodeId_eqb (fst e1) (fst e2) && NodeId_eqb (snd e1) (snd e2).

Definition has_edge (g : DiGraph) (u v : NodeId) : bool :=
  existsb (edge_eqb (u, v)) (edges g).

Definition add_node (g : DiGraph) (n : NodeId) : DiGraph :=
  if has_node g n then g else mkGraph (nodes g ++ [(n, no_attrs)]) (edges g).

(** [G.add_edge(u, v)]: both ends become nodes if they are not yet. *)
Definition add_edge (g : DiGraph) (u v : NodeId) : DiGraph :=
  let g' := add_node (add_node g u) v in
  if has_edge g' u v then g'
  else mkGraph (nodes g') (edges g' ++ [(u, v)]).

(** [G.remove_nodes_from(ns)]: the nodes and the edges at them go; a
    node that is not in the graph is skipped. *)
Definition remove_nodes_from (g : DiGraph) (ns : list NodeId) : DiGraph :=
  mkGraph (filter (fun p => negb (node_in (fst p) ns)) (nodes g))
          (filter (fun e => negb (node_in (fst e) ns || node_in (snd e) ns))
                  (edges g)).

Definition succ_list (g : DiGraph) (n : NodeId) : list NodeId :=
  map snd (filter (fun e => NodeId_eqb (fst e) n) (edges g)).

Definition pred_list (g : DiGraph) (n : NodeId) : list NodeId :=
  map fst (filter (fun e => NodeId_eqb (snd e) n) (edges g)).

Definition not_in_graph {A : Type} (n : NodeId) : result A :=
  Raise (mkExn NetworkXError [Text "The node "; Nodes [n];
                              Text " is not in the digraph."]).

(** [G.successors(n)] and [G.predecessors(n)] return iterators; an
    iterator is modelled by the list of the items it has yet to give. *)
Definition successors (g : DiGraph) (n : NodeId) : result (list NodeId) :=
  if has_node g n then Ok (succ_list g n) else not_in_graph n.

Definition predecessors (g : DiGraph) (n : NodeId) : result (list NodeId) :=
  if has_node g n then Ok (pred_list g n) else not_in_graph n.

(** [list(it)]: the remaining items, and the iterator left exhausted. *)
Definition list_of_iter {A : Type} (it : list A) : list A * list A := (it, []).

Definition in_degree (g : DiGraph) (n : NodeId) : nat :=
  List.length (pred_list g n).

Definition out_degree (g : DiGraph) (n : NodeId) : nat :=
  List.length (succ_list g n).

(** The nodes met by a breadth-first search along [next], [seen] being
    those already met and [frontier] the last ones met. *)
Fixpoint search (fuel : nat) (next : NodeId -> list NodeId)
    (seen frontier : list NodeId) : list NodeId :=
  match fuel with
  | O => seen
  | S k =>
    let fresh :=
      Py.unique NodeId_eqb
        (filter (fun n => negb (node_in n seen)) (flat_map next frontier)) in
    match fresh with
    | [] => seen
    | _ => search k next (seen ++ fresh) fresh
    end
  end.

Definition reachable (g : DiGraph) (next : NodeId -> list NodeId)
    (source : NodeId) : list NodeId :=
  filter (fun n => negb (NodeId_eqb n source))
         (search (List.length (nodes g)) next [source] [source]).

(** [nx.descendants(G, source)] and [nx.ancestors(G, source)]: the nodes
    other than [source] joined to it by a directed path. *)
Definition descendants (g : DiGraph) (source : NodeId) : result (list NodeId) :=
  if has_node g source then Ok (reachable g (succ_list g) source)
  else not_in_graph source.

Definition ancestors (g : DiGraph) (source : NodeId) : result (list NodeId) :=
  if has_node g source then Ok (reachable g (pred_list g) source)
  else not_in_graph source.

(** [nx.is_forest(G)] raises on a graph without nodes.  On any other graph
    it returns a truth value, which its one caller only logs: the value is
    left out, what is kept is whether the call returns. *)
Definition is_forest_returns (g : DiGraph) : result unit :=
  match nodes g with
  | [] => Raise (mkExn NetworkXPointlessConcept [Text "G has no nodes."])
  | _ :: _ => Ok tt
  end.

Definition attrs_get (attrs : list (NodeId * NodeAttrs)) (n : NodeId)
  : option NodeAttrs := Py.dict_get NodeId_eqb attrs n.

Definition attrs_set (attrs : list (NodeId * NodeAttrs)) (n : NodeId)
    (a : NodeAttrs) : list (NodeId * NodeAttrs) := Py.dict_set NodeId_eqb attrs n a.

(** [d1.update(d2)] on attribute dictionaries. *)
Definition attrs_update (old new : NodeAttrs) : NodeAttrs :=
  mkAttrs
    (match attr_xbrl_factoid_original new with
     | Some x => Some x | None => attr_xbrl_factoid_original old end)
    (match attr_weight new with
     | Some x => Some x | None => attr_weight old end)
    (match attr_tags new with
     | Some x => Some x | None => attr_tags old end).

(** [nx.set_node_attributes(G, attrs)] with a dictionary of dictionaries:
    keys that are not nodes of [G] are ignored. *)
Definition set_node_attributes (g : DiGraph)
    (attrs : list (NodeId * NodeAttrs)) : DiGraph :=
  mkGraph (map (fun p => match attrs_get attrs (fst p) with
                         | Some a => (fst p, attrs_update (snd p) a)
                         | None => p
                         end) (nodes g))
          (edges g).

Definition node_attrs (g : DiGraph) (n : NodeId) : option NodeAttrs :=
  attrs_get (nodes g) n.

(** Directed paths of at least one edge, and
    [nx.is_directed_acyclic_graph]. *)
Definition edge (g : DiGraph) (u v : NodeId) : Prop := In (u, v) (edges g).

Inductive path (g : DiGraph) : NodeId -> NodeId -> Prop :=
| path_edge : forall u v, edge g u v -> path g u v
| path_step : forall u v w, edge g u v -> path g v w -> path g u w.

Definition is_directed_acyclic_graph (g : DiGraph) : Prop :=
  forall n, ~ path g n n.

(** The ends of every edge are nodes: the invariant of the adjacency
    dictionaries of a [DiGraph]. *)
Definition closed (g : DiGraph) : Prop :=
  forall u v, In (u, v) (edges g) -> In u (node_list g) /\ In v (node_list g).

End nx.

(** ** The calculation forest *)

(** A row of the leafy metadata: the leaf (the index), its root, and what
    it inherits. *)
Record LeafRow : Type := mkLeaf {
  leaf_node : NodeId;
  root_node : NodeId;
  leaf_xbrl_factoid_original : string;
  leaf_weight : float;
  leaf_tags : nx.Tags
}.

(** A row of the exploded data as [leafy_data] reads it. *)
Record BalanceRow : Type := mkBalance {
  b_table_name : string;
  b_xbrl_factoid : string;
  b_pks : list (string * string);
  b_starting_balance : float;
  b_ending_balance : float
}.

(** A row of the leafy data: the leaf's metadata, the data row merged onto
    it ([None] where the left merge found none) and the two balances. *)
Record LeafyDataRow : Type := mkLeafyData {
  ld_meta : LeafRow;
  ld_data : option BalanceRow;
  starting_balance : float;
  ending_balance : float
}.

Module XbrlCalculationForestFerc1.

Record t : Type := mk {
  exploded_meta : list MetaRow;
  seeds : list NodeId;
  tags : list (NodeId * nx.Tags)
}.

(** The index of the exploded metadata: ([table_name], [xbrl_factoid]). *)
Definition index (meta : list MetaRow) : list NodeId := map node_of_row meta.

Fixpoint is_unique (l : list NodeId) : bool :=
  match l with
  | [] => true
  | x :: rest => negb (nx.node_in x rest) && is_unique rest
  end.

(** Validator [dataframe_has_unique_index]. *)
Definition dataframe_has_unique_index {A : Type} (idx : list NodeId) (v : A)
  : result A :=
  if is_unique idx then Ok v
  else Raise (mkExn ValueError [Text "DataFrame has non-unique index values."]).

(** Validator [seeds_not_empty]. *)
Definition seeds_not_empty (v : list NodeId) (exploded_meta : list MetaRow)
  : list NodeId :=
  match v with
  | [] => index exploded_meta
  | _ => v
  end.

(** Validator [seeds_within_bounds]. *)
Definition seeds_within_bounds (v : list NodeId) (exploded_meta : list MetaRow)
  : result (list NodeId) :=
  let bad_seeds :=
    filter (fun seed => negb (nx.node_in seed (index exploded_meta))) v in
  match bad_seeds with
  | [] => Ok v
  | _ => Raise (mkExn ValueError
           [Text "Seeds missing from exploded_meta index: bad_seeds=";
            Nodes bad_seeds])
  end.

(** Construction of the model: the validators of the fields, in the
    order of the fields.  No graph is built here: the graphs are
    properties, computed when they are read.  When a validator of
    [exploded_meta] raises, pydantic records the error, leaves the field out
    of [values] and goes on to the validators of [seeds], which read
    [values["exploded_meta"]]: a [KeyError], which pydantic does not catch. *)
Definition construct (exploded_meta : list MetaRow) (seeds : list NodeId)
    (tags : list (NodeId * nx.Tags)) : result t :=
  match dataframe_has_unique_index (index exploded_meta) exploded_meta with
  | Raise _ => Raise (mkExn KeyError [Text "exploded_meta"])
  | Ok exploded_meta =>
    seeds <- seeds_within_bounds (seeds_not_empty seeds exploded_meta) exploded_meta ;;
    tags <- dataframe_has_unique_index (map fst tags) tags ;;
    Ok (mk exploded_meta seeds tags)
  end.

(** [dict(tags.loc[node])], and [{}] on a [KeyError]. *)
Definition tags_loc (tags : list (NodeId * nx.Tags)) (n : NodeId) : nx.Tags :=
  match Py.dict_get NodeId_eqb tags n with
  | Some d => d
  | None => []
  end.

(** [attrs[n]] after [if not attrs.get(n, False): attrs[n] = {}]. *)
Definition attrs_of (attrs : list (NodeId * nx.NodeAttrs)) (n : NodeId)
  : nx.NodeAttrs :=
  match nx.attrs_get attrs n with
  | Some a => a
  | None => nx.no_attrs
  end.

Definition set_original (a : nx.NodeAttrs) (s : string) : nx.NodeAttrs :=
  nx.mkAttrs (Some s) (nx.attr_weight a) (nx.attr_tags a).
Definition set_weight (a : nx.NodeAttrs) (w : float) : nx.NodeAttrs :=
  nx.mkAttrs (nx.attr_xbrl_factoid_original a) (Some w) (nx.attr_tags a).
Definition set_tags (a : nx.NodeAttrs) (d : nx.Tags) : nx.NodeAttrs :=
  nx.mkAttrs (nx.attr_xbrl_factoid_original a) (nx.attr_weight a) (Some d).

Definition builder_state : Type := (nx.DiGraph * list (NodeId * nx.NodeAttrs))%type.

(** The body of the loop over the components of one row. *)
Definition visit_calc (tags : list (NodeId * nx.Tags)) (from_node : NodeId)
    (st : builder_state) (calc : CalcComponent) : result builder_state :=
  let '(forest, attrs) := st in
  _ <- assert (Nat.eqb (List.length (source_tables calc)) 1) ;;
  match source_tables calc with
  | [] => Raise (mkExn IndexError [])
  | tbl :: _ =>
    let to_node := mkNodeId tbl (name calc) in
    let a := attrs_of attrs to_node in
    a <- match nx.attr_weight a with
         | Some w =>
           if Py.float_truthy w then
             if negb (PrimFloat.eqb w (weight calc)) then
               _ <- assert (PrimFloat.eqb (PrimFloat.mul w (weight calc))
                                          (-1)%float) ;;
               (* [attrs[to_node]["weight"] == -1.0]: a comparison *)
               Py.expr_stmt (PrimFloat.eqb w (-1)%float) (Ok a)
             else Ok a
           else Ok (set_weight a (weight calc))
         | None => Ok (set_weight a (weight calc))
         end ;;
    let a := set_tags a (tags_loc tags to_node) in
    Ok (nx.add_edge forest from_node to_node, nx.attrs_set attrs to_node a)
  end.

(** The body of the loop over the rows. *)
Definition visit_row (tags : list (NodeId * nx.Tags))
    (st : builder_state) (row : MetaRow) : result builder_state :=
  let '(forest, attrs) := st in
  let from_node := node_of_row row in
  let a := attrs_of attrs from_node in
  a <- match nx.attr_xbrl_factoid_original a with
       | Some s =>
         if String.eqb s "" then Ok (set_original a (xbrl_factoid_original row))
         else _ <- assert (String.eqb s (xbrl_factoid_original row)) ;; Ok a
       | None => Ok (set_original a (xbrl_factoid_original row))
       end ;;
  let a := set_tags a (tags_loc tags from_node) in
  Py.foldM (visit_calc tags from_node) (calculations row)
           (forest, nx.attrs_set attrs from_node a).

Definition bad_nodes : list NodeId :=
  [ mkNodeId "balance_sheet_assets_ferc1" "special_funds_all";
    mkNodeId "balance_sheet_assets_ferc1" "nuclear_fuel" ].

(** [XbrlCalculationForestFerc1.exploded_meta_to_digraph]. *)
Definition exploded_meta_to_digraph (exploded_meta : list MetaRow)
    (tags : list (NodeId * nx.Tags)) : result nx.DiGraph :=
  st <- Py.foldM (visit_row tags) exploded_meta (nx.empty, []) ;;
  let '(forest, attrs) := st in
  let forest := nx.set_node_attributes forest attrs in
  Ok (nx.remove_nodes_from forest bad_nodes).

(** Property [full_digraph]. *)
Definition full_digraph (self : t) : result nx.DiGraph :=
  exploded_meta_to_digraph (exploded_meta self) (tags self).

(** [s.union(l)] on a set kept in insertion order. *)
Definition set_union (s l : list NodeId) : list NodeId :=
  s ++ Py.unique NodeId_eqb (filter (fun n => negb (nx.node_in n s)) l).

(** [exploded_meta.loc[nodes]]: the rows of these nodes, in their order;
    a node that is not in the index is a [KeyError]. *)
Definition loc (meta : list MetaRow) (ns : list NodeId) : result (list MetaRow) :=
  Py.mapM (fun n =>
             match find (fun r => NodeId_eqb (node_of_row r) n) meta with
             | Some r => Ok r
             | None => Raise (mkExn KeyError [Nodes [n]])
             end) ns.

(** Property [seeded_digraph]. *)
Definition seeded_digraph (self : t) : result nx.DiGraph :=
  seeded_nodes <-
    Py.foldM (fun seeded_nodes seed =>
                let seeded_nodes := set_union seeded_nodes [seed] in
                full <- full_digraph self ;;
                d <- nx.descendants full seed ;;
                Ok (set_union seeded_nodes d))
             (seeds self) [] ;;
  meta <- loc (exploded_meta self) seeded_nodes ;;
  exploded_meta_to_digraph meta (tags self).

(** Static method [roots] and [leaves]. *)
Definition roots (graph : nx.DiGraph) : list NodeId :=
  filter (fun n => Nat.eqb (nx.in_degree graph n) 0) (nx.node_list graph).

Definition leaves (graph : nx.DiGraph) : list NodeId :=
  filter (fun n => Nat.eqb (nx.out_degree graph n) 0) (nx.node_list graph).

(** The nodes of a graph with more than one parent. *)
Definition stepchildren_of (g : nx.DiGraph) : list NodeId :=
  filter (fun n => Nat.ltb 1 (nx.in_degree g n)) (nx.node_list g).

(** Property [stepchildren]. *)
Definition stepchildren (self : t) : result (list NodeId) :=
  g <- seeded_digraph self ;; Ok (stepchildren_of g).

(** The test of [passthroughs] on a child: the correction of [node]. *)
Definition is_correction_of (node child : NodeId) : bool :=
  String.eqb (source_table node) (source_table child)
  && String.eqb (node_factoid child) (node_factoid node ++ "_correction").

(** The node that passes this test for [node]. *)
Definition correction_node (node : NodeId) : NodeId :=
  mkNodeId (source_table node) (node_factoid node ++ "_correction").

(** The filter of [forest] on the children of a passthrough. *)
Definition not_correction (n : NodeId) : bool :=
  negb (Py.endswith (node_factoid n) "_correction").

(** The passthroughs of a graph.  The source returns the members of a
    set, whose order of iteration Python leaves open; here they come in
    the order of the nodes of the graph. *)
Definition passthroughs_of (g : nx.DiGraph) : list NodeId :=
  let has_one_parent :=
    filter (fun n => Nat.eqb (nx.in_degree g n) 1) (nx.node_list g) in
  let may_have_one_child :=
    filter (fun n => Nat.eqb (nx.out_degree g n) 2) (nx.node_list g) in
  let has_one_child :=
    flat_map (fun node =>
                flat_map (fun child =>
                            if is_correction_of node child then [node] else [])
                         (nx.succ_list g node))
             may_have_one_child in
  filter (fun n => nx.node_in n has_one_child) has_one_parent.

(** Property [passthroughs]. *)
Definition passthroughs (self : t) : result (list NodeId) :=
  g <- seeded_digraph self ;; Ok (passthroughs_of g).

(** The body of the loop of [forest] over the passthroughs. *)
Definition splice (forest : nx.DiGraph) (node : NodeId) : result nx.DiGraph :=
  parent <- nx.predecessors forest node ;;
  _ <- assert (Nat.eqb (List.length parent) 1) ;;
  successors <- nx.successors forest node ;;
  let '(items, successors) := nx.list_of_iter successors in
  _ <- assert (Nat.eqb (List.length items) 2) ;;
  again <- nx.successors forest node ;;
  let child := filter not_correction again in
  _ <- assert (Nat.eqb (List.length child) 1) ;;
  let forest := nx.remove_nodes_from forest successors in
  match parent, child with
  | p :: _, c :: _ => Ok (nx.add_edge forest p c)
  | _, _ => Raise (mkExn IndexError [])
  end.

Definition prune (g : nx.DiGraph) (pts : list NodeId) : result nx.DiGraph :=
  Py.foldM splice pts g.

(** Property [forest].  After the loop the source asks [nx.is_forest] and
    logs an error if the answer is no; the call itself raises on a graph
    without nodes. *)
Definition forest (self : t) : result nx.DiGraph :=
  forest <- seeded_digraph self ;;
  pts <- passthroughs self ;;
  forest <- prune forest pts ;;
  _ <- nx.is_forest_returns forest ;;
  Ok forest.

Definition forest_roots (self : t) : result (list NodeId) :=
  f <- forest self ;; Ok (roots f).

Definition forest_leaves (self : t) : result (list NodeId) :=
  f <- forest self ;; Ok (leaves f).

Definition get_attrs (g : nx.DiGraph) (n : NodeId) : result nx.NodeAttrs :=
  match nx.node_attrs g n with
  | Some a => Ok a
  | None => Raise (mkExn KeyError [Nodes [n]])
  end.

Definition get_key {A : Type} (key : string) (v : option A) : result A :=
  match v with
  | Some x => Ok x
  | None => Raise (mkExn KeyError [Text key])
  end.

(** The weight an ancestor contributes: its own, or [1.0] for a node
    without one, which has to be a root. *)
Definition node_weight (g : nx.DiGraph) (roots : list NodeId) (node : NodeId)
  : result float :=
  a <- get_attrs g node ;;
  match nx.attr_weight a with
  | Some w =>
    if Py.float_truthy w then Ok w
    else _ <- assert (nx.node_in node roots) ;; Ok 1%float
  | None => _ <- assert (nx.node_in node roots) ;; Ok 1%float
  end.

(** The body of the loop of [leafy_meta] over the ancestors of a leaf. *)
Definition inherit (g : nx.DiGraph) (roots : list NodeId)
    (acc : nx.Tags * float) (node : NodeId) : result (nx.Tags * float) :=
  let '(leaf_tags, leaf_weight) := acc in
  a <- get_attrs g node ;;
  node_tags <- get_key "tags" (nx.attr_tags a) ;;
  let leaf_tags := Py.dict_update String.eqb leaf_tags node_tags in
  node_weight <- node_weight g roots node ;;
  Ok (leaf_tags, PrimFloat.mul leaf_weight node_weight).

(** The weight a leaf starts from: [nodes[leaf].get("weight", 1.0)]. *)
Definition own_weight (a : nx.NodeAttrs) : float :=
  match nx.attr_weight a with
  | Some w => w
  | None => 1%float
  end.

(** The row of [leaf_rows] for one leaf: the leaf, its original factoid,
    its weight and its tags.  The source loops over the set that
    [nx.ancestors] returns, whose order of iteration Python leaves open; here
    the ancestors come in the order in which the search meets them.  The
    order decides which ancestor's value a shared tag name keeps and, for
    weights other than [1.0] and [-1.0], the last bit of the product. *)
Definition leaf_row (g : nx.DiGraph) (roots : list NodeId) (leaf : NodeId)
  : result (NodeId * string * float * nx.Tags) :=
  a <- get_attrs g leaf ;;
  anc <- nx.ancestors g leaf ;;
  acc <- Py.foldM (inherit g roots) anc ([], own_weight a) ;;
  original <- get_key "xbrl_factoid_original" (nx.attr_xbrl_factoid_original a) ;;
  Ok (leaf, original, snd acc, fst acc).

(** The dictionary comprehension of [leaf_to_root_map]. *)
Definition leaf_to_root_map (g : nx.DiGraph) (leaves roots : list NodeId)
  : result (list (NodeId * NodeId)) :=
  Py.foldM (fun m leaf =>
              Py.foldM (fun m root =>
                          d <- nx.descendants g root ;;
                          Ok (if nx.node_in leaf d
                              then Py.dict_set NodeId_eqb m leaf root
                              else m))
                       roots m)
           leaves [].

(** Property [leafy_meta].  [pd.concat] raises on an empty list of leaf
    rows, and [pd.merge] on a left frame without columns. *)
Definition leafy_meta (self : t) : result (list LeafRow) :=
  forest <- forest self ;;
  leaves <- forest_leaves self ;;
  roots <- forest_roots self ;;
  let pruned_forest := forest in
  leaf_to_root_map <- leaf_to_root_map pruned_forest leaves roots ;;
  leaf_rows <- Py.mapM (leaf_row pruned_forest roots) leaves ;;
  match leaf_rows, leaf_to_root_map with
  | [], _ => Raise (mkExn ValueError [Text "No objects to concatenate"])
  | _, [] => Raise (mkExn MergeError [Text "No common columns to perform merge on."])
  | _, _ =>
    Ok (flat_map
          (fun lr =>
             map (fun '(leaf, original, w, tg) => mkLeaf leaf (snd lr) original w tg)
                 (filter (fun '(leaf, _, _, _) => NodeId_eqb leaf (fst lr)) leaf_rows))
          leaf_to_root_map)
  end.

(** The weight as the specification words it: the product, over the
    ancestors of the leaf, of the weight each contributes.  Not what the
    code computes; it is here to be compared with [leafy_meta]. *)
Definition product_over_ancestors (g : nx.DiGraph) (leaf : NodeId) : result float :=
  anc <- nx.ancestors g leaf ;;
  ws <- Py.mapM (node_weight g (roots g)) anc ;;
  Ok (fold_left PrimFloat.mul ws 1%float).

(** The two [assign]s of [leafy_data], made one after the other on the
    merged row: the second reads the column the first has just set. *)
Definition assign_balances (m : LeafRow) (d : option BalanceRow) : LeafyDataRow :=
  let sb := match d with Some r => b_starting_balance r | None => PrimFloat.nan end in
  let eb := match d with Some r => b_ending_balance r | None => PrimFloat.nan end in
  let x := mkLeafyData m d sb eb in
  let x := mkLeafyData m d (PrimFloat.mul (starting_balance x) (leaf_weight m))
                       (ending_balance x) in
  mkLeafyData m d (starting_balance x)
              (PrimFloat.mul (starting_balance x) (leaf_weight m)).

(** The left merge of the leafy metadata with the exploded data, on the
    table and the factoid. *)
Definition merge_leafy (meta : list LeafRow) (exploded_data : list BalanceRow)
  : list (LeafRow * option BalanceRow) :=
  flat_map (fun m =>
              let hits :=
                filter (fun d => String.eqb (b_table_name d) (source_table (leaf_node m))
                                 && String.eqb (b_xbrl_factoid d) (node_factoid (leaf_node m)))
                       exploded_data in
              match hits with
              | [] => [(m, None)]
              | _ => map (fun d => (m, Some d)) hits
              end) meta.

(** [XbrlCalculationForestFerc1.leafy_data]. *)
Definition leafy_data (self : t) (exploded_data : list BalanceRow)
  : result (list LeafyDataRow) :=
  meta <- leafy_meta self ;;
  Ok (map (fun md => assign_balances (fst md) (snd md))
          (merge_leafy meta exploded_data)).

(** The node a component stands for, [NodeId(calc["source_tables"][0],
    calc["name"])], when the component has exactly one source table. *)
Definition to_node (calc : CalcComponent) : option NodeId :=
  match source_tables calc with
  | [tbl] => Some (mkNodeId tbl (name calc))
  | _ => None
  end.

(** The edges that the calculations of a metadata frame imply: from the
    node of a row to the node of each of its components. *)
Definition calculation_edges (meta : list MetaRow) : list (NodeId * NodeId) :=
  flat_map (fun row =>
              flat_map (fun calc =>
                          match to_node calc with
                          | Some v => [(node_of_row row, v)]
                          | None => []
                          end) (calculations row)) meta.

(** What holds of the graph and of the attribute dictionary while
    [exploded_meta_to_digraph] loops over the rows of [meta]. *)
Record builder_invariant (meta : list MetaRow) (tags : list (NodeId * nx.Tags))
    (st : builder_state) : Prop := mkBuilderInvariant {
  inv_closed : nx.closed (fst st);
  inv_nodup : NoDup (nx.node_list (fst st));
  inv_bare : forall p, In p (nx.nodes (fst st)) -> snd p = nx.no_attrs;
  inv_ends :
    forall n, In n (nx.node_list (fst st)) ->
              exists m, In (n, m) (nx.edges (fst st)) \/ In (m, n) (nx.edges (fst st));
  inv_edges :
    forall u v, In (u, v) (nx.edges (fst st)) -> In (u, v) (calculation_edges meta);
  inv_tags :
    forall n, In n (nx.node_list (fst st)) ->
              nx.attr_tags (attrs_of (snd st) n) = Some (tags_loc tags n);
  inv_weight :
    forall u v, In (u, v) (nx.edges (fst st)) ->
                nx.attr_weight (attrs_of (snd st) v) <> None;
  inv_weight_from :
    forall n w, nx.attr_weight (attrs_of (snd st) n) = Some w ->
                exists row c, In row meta /\ In c (calculations row)
                              /\ to_node c = Some n /\ weight c = w;
  inv_original_from :
    forall n s, nx.attr_xbrl_factoid_original (attrs_of (snd st) n) = Some s ->
                exists row, In row meta /\ node_of_row row = n
                            /\ xbrl_factoid_original row = s
}.

(** Property [orphans]. *)
Definition orphans (self : t) : result (list NodeId) :=
  full <- full_digraph self ;;
  Ok (filter (fun n => negb (nx.has_node full n)) (index (exploded_meta self))).

(** Property [pruned]. *)
Definition pruned (self : t) : result (list NodeId) :=
  full <- full_digraph self ;;
  forest <- forest self ;;
  Ok (filter (fun n => negb (nx.has_node forest n)) (nx.node_list full)).

(** Property [stepparents]. *)
Definition stepparents (self : t) : result (list NodeId) :=
  stepchildren <- stepchildren self ;;
  graph <- seeded_digraph self ;;
  Py.foldM (fun stepparents stepchild =>
              preds <- nx.predecessors graph stepchild ;;
              Ok (set_union stepparents preds))
           stepchildren [].

End XbrlCalculationForestFerc1.

(** What holds of the graph [f] that the loop of [forest] has reached from
    the seeded digraph [g]. *)
Definition pruning_of (g f : nx.DiGraph) : Prop :=
  nx.closed f
  /\ nx.nodes f = nx.nodes g
  /\ forall x y, In (x, y) (nx.edges g) -> In (x, y) (nx.edges f).

(** ** Sample inputs

    Small inputs on which the statements below are evaluated. *)

Definition income_classes : list (string * TableParams) :=
  [("income_statement_ferc1",
    mkParams "income_type" (Some "dollar_value") (Some "utility_type"))].

Definition income_exploder : Exploder.t :=
  Exploder.mk ["income_statement_ferc1"] "income_statement_ferc1".

Definition income_row (factoid : string) (reported calculated : float) : DataRow :=
  mkData "income_statement_ferc1" factoid [("report_year", "2021")]
         reported calculated PrimFloat.nan PrimFloat.nan None
         (Some "calculated_value") (Some false) (Some "r1").

(** A component drawn from one table, and a metadata row whose original
    factoid is its factoid. *)
Definition component (tbl factoid : string) (w : float) : CalcComponent :=
  mkCalc factoid w [tbl].

Definition meta_row (tbl factoid : string) (calcs : list CalcComponent) : MetaRow :=
  mkMeta tbl factoid calcs
         (match calcs with [] => "reported_value" | _ => "calculated_value" end)
         factoid true.

(** A tree of three levels: a root, a node below it with weight [-1.0] and
    two leaves below that node with weights [1.0] and [-1.0]. *)
Definition tree_meta : list MetaRow :=
  [ meta_row "balance_sheet_assets_ferc1" "assets_and_other_debits"
      [component "utility_plant_summary_ferc1" "utility_plant_net" (-1)%float];
    meta_row "utility_plant_summary_ferc1" "utility_plant_net"
      [component "plant_in_service_ferc1" "additions" 1%float;
       component "plant_in_service_ferc1" "retirements" (-1)%float];
    meta_row "plant_in_service_ferc1" "additions" [];
    meta_row "plant_in_service_ferc1" "retirements" [] ].

(** A root with a single leaf of weight [-1.0]. *)
Definition root_leaf_meta : list MetaRow :=
  [ meta_row "income_statement_ferc1" "net_income_loss"
      [component "income_statement_ferc1" "income_taxes" (-1)%float];
    meta_row "income_statement_ferc1" "income_taxes" [] ].

(** The scenario of the passthrough as the code tests it: [b] has the
    parent [a] and the children [c] and its own correction. *)
Definition node_a : NodeId := mkNodeId "balance_sheet_assets_ferc1" "a".
Definition node_b : NodeId := mkNodeId "utility_plant_summary_ferc1" "b".
Definition node_c : NodeId := mkNodeId "plant_in_service_ferc1" "c".

Definition passthrough_meta : list MetaRow :=
  [ meta_row "balance_sheet_assets_ferc1" "a"
      [component "utility_plant_summary_ferc1" "b" 1%float];
    meta_row "utility_plant_summary_ferc1" "b"
      [component "plant_in_service_ferc1" "c" 1%float;
       component "utility_plant_summary_ferc1" "b_correction" 1%float];
    meta_row "plant_in_service_ferc1" "c" [];
    meta_row "utility_plant_summary_ferc1" "b_correction" [] ].

(** The scenario as the specification words it: the second child of [b]
    is the correction of [c]. *)
Definition passthrough_meta_as_specified : list MetaRow :=
  [ meta_row "balance_sheet_assets_ferc1" "a"
      [component "utility_plant_summary_ferc1" "b" 1%float];
    meta_row "utility_plant_summary_ferc1" "b"
      [component "plant_in_service_ferc1" "c" 1%float;
       component "plant_in_service_ferc1" "c_correction" 1%float];
    meta_row "plant_in_service_ferc1" "c" [];
    meta_row "plant_in_service_ferc1" "c_correction" [] ].

(** Two calculations with the same component, with weights [1.0] and
    [-1.0]. *)
Definition shared_component_meta : list MetaRow :=
  [ meta_row "income_statement_ferc1" "net_utility_operating_income"
      [component "income_statement_ferc1" "operating_expenses" 1%float];
    meta_row "income_statement_ferc1" "net_income_loss"
      [component "income_statement_ferc1" "operating_expenses" (-1)%float];
    meta_row "income_statement_ferc1" "operating_expenses" [] ].

(** The instance made from the tree of three levels without seeds and
    without tags, its forest and its leafy metadata. *)
Definition tree_self : XbrlCalculationForestFerc1.t :=
  XbrlCalculationForestFerc1.mk
    tree_meta (XbrlCalculationForestFerc1.index tree_meta) [].

Definition tree_forest : nx.DiGraph :=
  Eval vm_compute in
    match XbrlCalculationForestFerc1.forest tree_self with
    | Ok g => g
    | Raise _ => nx.empty
    end.

Definition tree_leafy_meta : list LeafRow :=
  [ mkLeaf (mkNodeId "plant_in_service_ferc1" "additions")
           (mkNodeId "balance_sheet_assets_ferc1" "assets_and_other_debits")
           "additions" (-1)%float [];
    mkLeaf (mkNodeId "plant_in_service_ferc1" "retirements")
           (mkNodeId "balance_sheet_assets_ferc1" "assets_and_other_debits")
           "retirements" 1%float [] ].

(** A tree of three levels whose middle node is a passthrough: below the
    root, [b] with its child [c] of weight [1.0] and its own correction, of
    weight [-1.0]. *)
Definition passthrough_tree_meta : list MetaRow :=
  [ meta_row "balance_sheet_assets_ferc1" "a"
      [component "utility_plant_summary_ferc1" "b" 1%float];
    meta_row "utility_plant_summary_ferc1" "b"
      [component "plant_in_service_ferc1" "c" 1%float;
       component "utility_plant_summary_ferc1" "b_correction" (-1)%float];
    meta_row "plant_in_service_ferc1" "c" [];
    meta_row "utility_plant_summary_ferc1" "b_correction" [] ].

(** Two calculations that share a component, with the same weight. *)
Definition stepchild_meta : list MetaRow :=
  [ meta_row "income_statement_ferc1" "net_utility_operating_income"
      [component "income_statement_ferc1" "operating_expenses" 1%float];
    meta_row "income_statement_ferc1" "net_income_loss"
      [component "income_statement_ferc1" "operating_expenses" 1%float];
    meta_row "income_statement_ferc1" "operating_expenses" [] ].

(** The full digraph of the tree of three levels. *)
Definition tree_full : nx.DiGraph :=
  Eval vm_compute in
    match XbrlCalculationForestFerc1.full_digraph tree_self with
    | Ok g => g
    | Raise _ => nx.empty
    end.

(** The instances made from the two passthrough scenarios, without seeds
    and without tags, and their seeded digraphs. *)
Definition passthrough_self : XbrlCalculationForestFerc1.t :=
  XbrlCalculationForestFerc1.mk
    passthrough_meta (XbrlCalculationForestFerc1.index passthrough_meta) [].

Definition passthrough_seeded : nx.DiGraph :=
  Eval vm_compute in
    match XbrlCalculationForestFerc1.seeded_digraph passthrough_self with
    | Ok g => g
    | Raise _ => nx.empty
    end.

Definition passthrough_self_as_specified : XbrlCalculationForestFerc1.t :=
  XbrlCalculationForestFerc1.mk
    passthrough_meta_as_specified
    (XbrlCalculationForestFerc1.index passthrough_meta_as_specified) [].

Definition stepchild_self : XbrlCalculationForestFerc1.t :=
  XbrlCalculationForestFerc1.mk
    stepchild_meta (XbrlCalculationForestFerc1.index stepchild_meta) [].

(** The three-level tree seeded with the node below its root. *)
Definition subtree_self : XbrlCalculationForestFerc1.t :=
  XbrlCalculationForestFerc1.mk
    tree_meta [mkNodeId "utility_plant_summary_ferc1" "utility_plant_net"] [].

Definition subtree_seeded : nx.DiGraph :=
  Eval vm_compute in
    match XbrlCalculationForestFerc1.seeded_digraph subtree_self with
    | Ok g => g
    | Raise _ => nx.empty
    end.

(** A calculation whose component has no row of its own in the metadata. *)
Definition dangling_meta : list MetaRow :=
  [ meta_row "income_statement_ferc1" "net_income_loss"
      [component "income_statement_ferc1" "income_taxes" (-1)%float] ].

Definition dangling_self : XbrlCalculationForestFerc1.t :=
  XbrlCalculationForestFerc1.mk
    dangling_meta (XbrlCalculationForestFerc1.index dangling_meta) [].

Definition dangling_full : nx.DiGraph :=
  Eval vm_compute in
    match XbrlCalculationForestFerc1.full_digraph dangling_self with
    | Ok g => g
    | Raise _ => nx.empty
    end.

Definition passthrough_forest : nx.DiGraph :=
  Eval vm_compute in
    match XbrlCalculationForestFerc1.forest passthrough_self with
    | Ok g => g
    | Raise _ => nx.empty
    end.

(** Two passthroughs in a chain: [b] passes [c] through and [c] passes
    [d] through. *)
Definition node_d : NodeId := mkNodeId "plant_in_service_ferc1" "d".

Definition chained_meta : list MetaRow :=
  [ meta_row "balance_sheet_assets_ferc1" "a"
      [component "utility_plant_summary_ferc1" "b" 1%float];
    meta_row "utility_plant_summary_ferc1" "b"
      [component "plant_in_service_ferc1" "c" 1%float;
       component "utility_plant_summary_ferc1" "b_correction" 1%float];
    meta_row "plant_in_service_ferc1" "c"
      [component "plant_in_service_ferc1" "d" 1%float;
       component "plant_in_service_ferc1" "c_correction" 1%float];
    meta_row "plant_in_service_ferc1" "d" [];
    meta_row "utility_plant_summary_ferc1" "b_correction" [];
    meta_row "plant_in_service_ferc1" "c_correction" [] ].

Definition chained_self : XbrlCalculationForestFerc1.t :=
  XbrlCalculationForestFerc1.mk
    chained_meta (XbrlCalculationForestFerc1.index chained_meta) [].

Definition chained_seeded : nx.DiGraph :=
  Eval vm_compute in
    match XbrlCalculationForestFerc1.seeded_digraph chained_self with
    | Ok g => g
    | Raise _ => nx.empty
    end.

(** The three-level tree with a tag on its root and a tag on one leaf. *)
Definition tree_tags : list (NodeId * nx.Tags) :=
  [ (mkNodeId "balance_sheet_assets_ferc1" "assets_and_other_debits",
     [("in_rate_base", "yes")]);
    (mkNodeId "plant_in_service_ferc1" "additions", [("utility_type", "electric")]) ].

Definition tagged_self : XbrlCalculationForestFerc1.t :=
  XbrlCalculationForestFerc1.mk
    tree_meta (XbrlCalculationForestFerc1.index tree_meta) tree_tags.

Definition tagged_forest : nx.DiGraph :=
  Eval vm_compute in
    match XbrlCalculationForestFerc1.forest tagged_self with
    | Ok g => g
    | Raise _ => nx.empty
    end.

Definition tagged_leafy_meta : list LeafRow :=
  Eval vm_compute in
    match XbrlCalculationForestFerc1.leafy_meta tagged_self with
    | Ok m => m
    | Raise _ => []
    end.

(** Balances for one leaf of the three-level tree and for a factoid that
    is not in it. *)
Definition sample_balances : list BalanceRow :=
  [ mkBalance "plant_in_service_ferc1" "additions" [("report_year", "2021")]
              10%float 20%float;
    mkBalance "plant_in_service_ferc1" "transfers" [("report_year", "2021")]
              1%float 2%float ].

Definition tree_leafy_data : list LeafyDataRow :=
  Eval vm_compute in
    match XbrlCalculationForestFerc1.leafy_data tree_self sample_balances with
    | Ok out => out
    | Raise _ => []
    end.

(** Metadata of the income statement with one calculation inside the
    explosion and one that reaches outside it. *)
Definition income_meta : list MetaRow :=
  [ mkMeta "income_statement_ferc1" "net_income_loss"
      [mkCalc "income_taxes" (-1)%float ["income_statement_ferc1"]]
      "calculated_value" "NetIncomeLoss" true;
    mkMeta "income_statement_ferc1" "operating_revenues"
      [mkCalc "electric_operating_revenues" 1%float
              ["electric_operating_revenues_ferc1"]]
      "calculated_value" "OperatingRevenues" false;
    mkMeta "income_statement_ferc1" "income_taxes" []
      "reported_value" "IncomeTaxes" false ].

Definition income_redefined : list MetaRow * MetadataExploder.t :=
  Eval vm_compute in
    match MetadataExploder.redefine_calculations_with_components_out_of_explosion
            (MetadataExploder.mk ["income_statement_ferc1"] []) income_meta with
    | Ok r => r
    | Raise _ => ([], MetadataExploder.mk [] [])
    end.

Definition tree_seeded : nx.DiGraph :=
  Eval vm_compute in
    match XbrlCalculationForestFerc1.seeded_digraph tree_self with
    | Ok g => g
    | Raise _ => nx.empty
    end.

(** The three-level tree with a weight of zero on the node below the
    root. *)
Definition zero_weight_meta : list MetaRow :=
  [ meta_row "balance_sheet_assets_ferc1" "assets_and_other_debits"
      [component "utility_plant_summary_ferc1" "utility_plant_net" 0%float];
    meta_row "utility_plant_summary_ferc1" "utility_plant_net"
      [component "plant_in_service_ferc1" "additions" 1%float;
       component "plant_in_service_ferc1" "retirements" (-1)%float];
    meta_row "plant_in_service_ferc1" "additions" [];
    meta_row "plant_in_service_ferc1" "retirements" [] ].

Definition zero_weight_self : XbrlCalculationForestFerc1.t :=
  XbrlCalculationForestFerc1.mk
    zero_weight_meta (XbrlCalculationForestFerc1.index zero_weight_meta) [].

Definition zero_weight_forest : nx.DiGraph :=
  Eval vm_compute in
    match XbrlCalculationForestFerc1.forest zero_weight_self with
    | Ok g => g
    | Raise _ => nx.empty
    end.

Definition stepchild_seeded : nx.DiGraph :=
  Eval vm_compute in
    match XbrlCalculationForestFerc1.seeded_digraph stepchild_self with
    | Ok g => g
    | Raise _ => nx.empty
    end.

(** The forest of a metadata frame, built without seeds and without tags. *)
Definition forest_of_meta (meta : list MetaRow) : result nx.DiGraph :=
  self <- XbrlCalculationForestFerc1.construct meta [] [] ;;
  XbrlCalculationForestFerc1.forest self.

(** * Properties *)

(** ** Strings, nodes and lists *)

Lemma NodeId_eqb_eq (a b : NodeId) : NodeId_eqb a b = true <-> a = b.
Proof.
  destruct a as [t1 f1], b as [t2 f2]; unfold NodeId_eqb; simpl.
  rewrite andb_true_iff, !String.eqb_eq.
  split; [intros [-> ->]; reflexivity | intros H; inversion H; auto].
Qed.

Lemma NodeId_eqb_refl (a : NodeId) : NodeId_eqb a a = true.
Proof. apply NodeId_eqb_eq; reflexivity. Qed.

Lemma NodeId_eqb_neq (a b : NodeId) : NodeId_eqb a b = false <-> a <> b.
Proof.
  rewrite <- NodeId_eqb_eq. destruct (NodeId_eqb a b); split; congruence.
Qed.

Lemma NodeId_eqb_sym (a b : NodeId) : NodeId_eqb a b = NodeId_eqb b a.
Proof.
  destruct (NodeId_eqb a b) eqn:E.
  - apply NodeId_eqb_eq in E; subst; symmetry; apply NodeId_eqb_refl.
  - destruct (NodeId_eqb b a) eqn:E'; [|reflexivity].
    apply NodeId_eqb_eq in E'; subst. rewrite NodeId_eqb_refl in E; discriminate.
Qed.

Lemma str_in_In (x : string) (l : list string) : Py.str_in x l = true <-> In x l.
Proof.
  unfold Py.str_in. rewrite existsb_exists. split.
  - intros (y & Hy & E). apply String.eqb_eq in E; subst; assumption.
  - intros H. exists x. split; [assumption | apply String.eqb_refl].
Qed.

Lemma node_in_In (n : NodeId) (l : list NodeId) : nx.node_in n l = true <-> In n l.
Proof.
  unfold nx.node_in. rewrite existsb_exists. split.
  - intros (y & Hy & E). apply NodeId_eqb_eq in E; subst; assumption.
  - intros H. exists n. split; [assumption | apply NodeId_eqb_refl].
Qed.

Section Unique.
Context {A : Type} (eqb : A -> A -> bool).
Hypothesis eqb_eq : forall x y, eqb x y = true <-> x = y.

Lemma unique_In (l : list A) (x : A) : In x (Py.unique eqb l) <-> In x l.
Proof.
  induction l as [|a l IH]; simpl; [tauto|].
  rewrite filter_In, IH. split.
  - intros [H | [H _]]; auto.
  - intros [H | H]; auto.
    destruct (eqb a x) eqn:E.
    + left. apply eqb_eq; assumption.
    + right. split; [assumption | reflexivity].
Qed.

Lemma unique_all_equal (l : list A) (v : A) :
  l <> [] -> (forall x, In x l -> x = v) -> Py.unique eqb l = [v].
Proof.
  induction l as [|a l IH]; intros Hne Hall; [congruence|].
  simpl. rewrite (Hall a) by (left; reflexivity). f_equal.
  destruct l as [|b l]; [reflexivity|].
  rewrite IH; [| discriminate | intros x Hx; apply Hall; right; assumption].
  simpl. replace (eqb v v) with true; [reflexivity|].
  symmetry; apply eqb_eq; reflexivity.
Qed.

Lemma unique_two_distinct (l : list A) (x y : A) :
  In x l -> In y l -> x <> y -> 2 <= List.length (Py.unique eqb l).
Proof.
  intros Hx Hy Hxy.
  assert (forall (a : A) l', In a l' -> 1 <= List.length l') as Hpos.
  { intros a [|b l'] Ha; simpl in *; [contradiction | lia]. }
  induction l as [|a l IH]; [contradiction|].
  simpl. destruct (eqb_eq a a) as [_ Haa].
  assert (forall z, In z l -> z <> a ->
            1 <= List.length (filter (fun t => negb (eqb a t)) (Py.unique eqb l)))
    as Hother.
  { intros z Hz Hza. apply (Hpos z). apply filter_In. split.
    - apply unique_In; assumption.
    - destruct (eqb a z) eqn:E; [|reflexivity].
      apply eqb_eq in E; congruence. }
  destruct Hx as [-> | Hx], Hy as [-> | Hy].
  - congruence.
  - specialize (Hother y Hy (fun e => Hxy (eq_sym e))). lia.
  - specialize (Hother x Hx Hxy). lia.
  - destruct (eqb a x) eqn:Ex.
    + apply eqb_eq in Ex; subst a.
      specialize (Hother y Hy (fun e => Hxy (eq_sym e))). lia.
    + assert (x <> a) as Hxa.
      { intros ->. rewrite Haa in Ex; [discriminate|reflexivity]. }
      specialize (Hother x Hx Hxa). lia.
Qed.
End Unique.

Lemma endswith_app (s suffix : string) : Py.endswith (s ++ suffix) suffix = true.
Proof.
  induction s as [|ch s IH].
  - simpl. destruct suffix as [|c t]; [reflexivity|].
    unfold Py.endswith. rewrite String.eqb_refl. reflexivity.
  - change (String ch s ++ suffix)%string with (String ch (s ++ suffix)).
    cbn [Py.endswith].
    destruct (String.eqb (String ch (s ++ suffix)) suffix); [reflexivity | exact IH].
Qed.

(** ** Loops that may raise *)

Lemma bind_Ok {A B : Type} (m : result A) (k : A -> result B) (b : B) :
  bind m k = Ok b -> exists a, m = Ok a /\ k a = Ok b.
Proof.
  destruct m as [a|e]; simpl; intros H; [exists a; auto | discriminate].
Qed.

Lemma assert_Ok (c : bool) (u : unit) : assert c = Ok u -> c = true.
Proof. destruct c; simpl; [reflexivity | discriminate]. Qed.

Lemma foldM_invariant {A S : Type} (P : S -> Prop) (body : S -> A -> result S)
    (l : list A) :
  forall s s',
    (forall s x s', In x l -> P s -> body s x = Ok s' -> P s') ->
    P s -> Py.foldM body l s = Ok s' -> P s'.
Proof.
  induction l as [|x l IH]; intros s s' Hbody Hs Hfold; simpl in Hfold.
  - inversion Hfold; subst; assumption.
  - apply bind_Ok in Hfold. destruct Hfold as (s1 & H1 & H2).
    apply (IH s1 s'); [| |assumption].
    + intros t y t' Hy. apply Hbody. right; assumption.
    + apply (Hbody s x s1); [left; reflexivity | assumption | assumption].
Qed.

Lemma mapM_In {A B : Type} (f : A -> result B) (l : list A) :
  forall ys y, Py.mapM f l = Ok ys -> In y ys -> exists x, In x l /\ f x = Ok y.
Proof.
  induction l as [|a l IH]; intros ys y H Hy; simpl in H.
  - inversion H; subst; contradiction.
  - apply bind_Ok in H. destruct H as (b & Hb & H).
    apply bind_Ok in H. destruct H as (bs & Hbs & H).
    inversion H; subst. destruct Hy as [<- | Hy].
    + exists a. split; [left; reflexivity | assumption].
    + destruct (IH bs y Hbs Hy) as (x & Hx & Hfx).
      exists x. split; [right; assumption | assumption].
Qed.

Lemma dict_set_In {V : Type} (m : list (NodeId * V)) (k k' : NodeId) (v v' : V) :
  In (k, v) (Py.dict_set NodeId_eqb m k' v') -> (k = k' /\ v = v') \/ In (k, v) m.
Proof.
  induction m as [|[k0 v0] m IH]; simpl.
  - intros [H | []]. inversion H; subst. left; split; reflexivity.
  - destruct (NodeId_eqb k0 k') eqn:E; simpl.
    + apply NodeId_eqb_eq in E; subst k0.
      intros [H | H]; [inversion H; subst; left; split; reflexivity | right; right; assumption].
    + intros [H | H]; [right; left; assumption|].
      destruct (IH H) as [? | ?]; [left; assumption | right; right; assumption].
Qed.

(** ** The metadata exploder *)

Lemma in_explosion_tables_spec (st names : list string) :
  in_explosion_tables st names = true <-> exists tbl, In tbl st /\ In tbl names.
Proof.
  unfold in_explosion_tables, Py.any. rewrite existsb_exists. split.
  - intros (b & Hb & _). apply in_map_iff in Hb. destruct Hb as (tbl & _ & Hin).
    apply filter_In in Hin. destruct Hin as [Hst Hn].
    exists tbl. split; [assumption | apply str_in_In; assumption].
  - intros (tbl & Hst & Hn). exists true. split; [|reflexivity].
    apply in_map_iff. exists tbl. split; [reflexivity|].
    apply filter_In. split; [assumption | apply str_in_In; assumption].
Qed.

Lemma merge_meta_left_self (meta : list MetaRow) (r : MetaRow) (c : CalcComponent) :
  In r meta ->
  exists cm,
    In (mkCalcRow c (table_name r) (xbrl_factoid r) (Some cm) false)
       (merge_meta_left meta c (table_name r) (xbrl_factoid r)).
Proof.
  intros Hr. unfold merge_meta_left.
  set (hits := filter _ meta).
  assert (In r hits) as Hh.
  { apply filter_In. split; [assumption|]. rewrite !String.eqb_refl; reflexivity. }
  exists (row_type_xbrl r, xbrl_factoid_original r, intra_table_calc_flag r).
  destruct hits as [|h hs] eqn:E; [contradiction|].
  rewrite <- E in *.
  apply in_map_iff. exists r. split; [reflexivity | assumption].
Qed.

Lemma Forall2_map_self {A B : Type} (R : A -> B -> Prop) (f : A -> B) (l : list A) :
  (forall x, In x l -> R x (f x)) -> Forall2 R l (map f l).
Proof.
  induction l as [|a l IH]; intros H; simpl; constructor.
  - apply H; left; reflexivity.
  - apply IH; intros x Hx; apply H; right; assumption.
Qed.

(** C4, as stated, fails: a component drawn from two source tables, one of
    them among the exploded tables and one not, is flagged [in_explosion]
    although not every source table is among the exploded ones, and the
    factoid it belongs to keeps its calculation. *)
Lemma in_explosion_not_every_source_table :
  let names := ["income_statement_ferc1"] in
  let st := ["income_statement_ferc1"; "electric_operating_revenues_ferc1"] in
  let r := mkMeta "income_statement_ferc1" "operating_revenues"
                  [mkCalc "electric_operating_revenues" 1%float st]
                  "calculated_value" "OperatingRevenues" false in
  ~ (in_explosion_tables st names = true <-> (forall tbl, In tbl st -> In tbl names))
  /\ MetadataExploder.redefine_calculations_with_components_out_of_explosion
       (MetadataExploder.mk names []) [r]
     = Ok ([r], MetadataExploder.mk names []).
Proof.
  cbv zeta. split; [|reflexivity].
  intros [H _]. specialize (H eq_refl "electric_operating_revenues_ferc1").
  destruct H as [H | []]; [|discriminate].
  right; left; reflexivity.
Qed.

(** C4, amended: for every component row of the exploded metadata, the flag
    [in_explosion] is true if and only if at least one of the component's
    source tables is among the exploded tables; and when the flag of a
    component is false, every metadata row with the factoid of that
    component's calculation is demoted: its calculations become empty and its
    row type ["reported_value"]. *)
Theorem in_explosion_any_source_table_and_demotion
    (self : MetadataExploder.t) (meta : list MetaRow)
    (r : MetaRow) (c : CalcComponent) :
  In r meta -> In c (calculations r) ->
  (in_explosion_tables (source_tables c) (MetadataExploder.table_names self) = true
   <-> exists tbl, In tbl (source_tables c)
                   /\ In tbl (MetadataExploder.table_names self))
  /\ (in_explosion_tables (source_tables c) (MetadataExploder.table_names self) = false ->
      exists out self',
        MetadataExploder.redefine_calculations_with_components_out_of_explosion
          self meta = Ok (out, self')
        /\ Forall2 (fun r' o => xbrl_factoid r' = xbrl_factoid r ->
                                o = MetadataExploder.demote r'
                                /\ calculations o = []
                                /\ row_type_xbrl o = "reported_value")
                   meta out).
Proof.
  intros Hr Hc. split; [apply in_explosion_tables_spec|].
  intros Hflag.
  unfold MetadataExploder.redefine_calculations_with_components_out_of_explosion,
    convert_calculations_into_calculation_component_table.
  destruct meta as [|m0 meta0] eqn:Em; [contradiction|]. rewrite <- Em in *.
  cbn [bind].
  set (calcs := flat_map _ meta).
  assert (In (c, table_name r, xbrl_factoid r) calcs) as Hcalc.
  { apply in_flat_map. exists r. split; [assumption|].
    apply in_map_iff. exists c. split; [reflexivity | assumption]. }
  assert (Nat.eqb (List.length calcs) 0 = false) as Hlen.
  { destruct calcs; [contradiction | reflexivity]. }
  rewrite Hlen. cbn [negb].
  eexists; eexists. split; [reflexivity|].
  apply Forall2_map_self. intros r' _.
  set (bad := Py.unique String.eqb _).
  assert (In (xbrl_factoid r) bad) as Hbad.
  { apply (unique_In String.eqb String.eqb_eq).
    destruct (merge_meta_left_self meta r c Hr) as (cm & Hcm).
    apply in_map_iff.
    exists (mkCalcRow c (table_name r) (xbrl_factoid r) (Some cm)
              (in_explosion_tables (source_tables c) (MetadataExploder.table_names self))).
    split; [reflexivity|].
    apply filter_In. split.
    - apply in_map_iff.
      exists (mkCalcRow c (table_name r) (xbrl_factoid r) (Some cm) false).
      split; [reflexivity|].
      apply in_flat_map. exists (c, table_name r, xbrl_factoid r).
      split; assumption.
    - cbn. rewrite Hflag. reflexivity. }
  intros E. rewrite E.
  apply str_in_In in Hbad. rewrite Hbad.
  repeat split.
Qed.

Lemma in_explosion_any_source_table_and_demotion_witness :
  let self := MetadataExploder.mk ["income_statement_ferc1"] [] in
  let c := mkCalc "electric_operating_revenues" 1%float
                  ["electric_operating_revenues_ferc1"] in
  let r := mkMeta "income_statement_ferc1" "operating_revenues" [c]
                  "calculated_value" "OperatingRevenues" false in
  exists out self',
    MetadataExploder.redefine_calculations_with_components_out_of_explosion
      self [r] = Ok (out, self')
    /\ Forall2 (fun r' o => xbrl_factoid r' = xbrl_factoid r ->
                            o = MetadataExploder.demote r'
                            /\ calculations o = []
                            /\ row_type_xbrl o = "reported_value")
               [r] out.
Proof.
  cbv zeta.
  refine (proj2 (in_explosion_any_source_table_and_demotion
                   (MetadataExploder.mk ["income_statement_ferc1"] [])
                   [_] _ _ _ _) _).
  - left; reflexivity.
  - left; reflexivity.
  - reflexivity.
Defined.

(** ** The value column *)

Lemma opt_str_eqb_eq (a b : option string) :
  Exploder.opt_str_eqb a b = true <-> a = b.
Proof.
  destruct a as [x|], b as [y|]; simpl; try (split; congruence).
  rewrite String.eqb_eq. split; congruence.
Qed.

(** [FERC1_TFR_CLASSES] is a dictionary: a table name has at most one entry,
    and indexing it by a table name gives that entry. *)
Lemma class_of_table (classes : list (string * TableParams)) (tbl : string)
    (p : TableParams) :
  NoDup (map fst classes) -> In (tbl, p) classes ->
  Exploder.lookup_class classes tbl = Ok p.
Proof.
  induction classes as [|[k q] classes IH]; simpl; intros Hnd Hin; [contradiction|].
  inversion Hnd as [|? ? Hk Hnd']; subst.
  destruct Hin as [Hin | Hin].
  - inversion Hin; subst. rewrite String.eqb_refl. reflexivity.
  - destruct (String.eqb k tbl) eqn:E.
    + apply String.eqb_eq in E. subst k. exfalso. apply Hk.
      change tbl with (fst (tbl, p)). apply in_map. exact Hin.
    + apply IH; assumption.
Qed.

(** The list that the loop of [value_col] builds: the value column of each
    table of the group, in the order of the tables. *)
Lemma collect_value_cols_of_tables (classes : list (string * TableParams))
    (tables : list string) :
  NoDup (map fst classes) ->
  (forall tbl, In tbl tables -> exists p, In (tbl, p) classes) ->
  exists value_cols,
    Exploder.collect_value_cols classes tables = Ok value_cols
    /\ (value_cols = [] <-> tables = [])
    /\ forall x, In x value_cols
                 <-> exists tbl p, In tbl tables /\ In (tbl, p) classes
                                   /\ column_to_check p = x.
Proof.
  intros Hnd. induction tables as [|t tables IH]; intros Hall.
  - exists []. split; [reflexivity|]. split; [tauto|].
    intros x. split; [intros [] | intros (tbl & p & [] & _)].
  - destruct (Hall t (or_introl eq_refl)) as (p & Hp).
    destruct (IH (fun tbl Htbl => Hall tbl (or_intror Htbl)))
      as (vs & Hvs & _ & Hspec).
    exists (column_to_check p :: vs). split; [|split].
    + simpl. rewrite (class_of_table classes t p Hnd Hp). cbn [bind].
      rewrite Hvs. reflexivity.
    + split; discriminate.
    + intros x. simpl. rewrite Hspec. split.
      * intros [<- | (tbl & q & Htbl & Hq & Hx)].
        -- exists t, p. auto.
        -- exists tbl, q. auto.
      * intros (tbl & q & [<- | Htbl] & Hq & Hx).
        -- left. pose proof (class_of_table classes t p Hnd Hp) as E1.
           rewrite (class_of_table classes t q Hnd Hq) in E1.
           inversion E1; subst. reflexivity.
        -- right. exists tbl, q. auto.
Qed.

(** C9: for a group of tables each of which has a transformer, [value_col]
    raises a [ValueError] if the value-column names of the tables of the
    group are not exactly one distinct name (the group is empty, or two of
    its tables have different value columns), and returns the name if all
    the tables of a non-empty group have the same one. *)
Theorem value_col_exactly_one_name
    (classes : list (string * TableParams)) (self : Exploder.t) :
  NoDup (map fst classes) ->
  (forall tbl, In tbl (Exploder.table_names self) -> exists p, In (tbl, p) classes) ->
  ((Exploder.table_names self = []
    \/ exists t1 p1 t2 p2,
         In t1 (Exploder.table_names self) /\ In (t1, p1) classes
         /\ In t2 (Exploder.table_names self) /\ In (t2, p2) classes
         /\ column_to_check p1 <> column_to_check p2) ->
   exists e, Exploder.value_col classes self = Raise e /\ kind e = ValueError)
  /\ (forall v,
         Exploder.table_names self <> [] ->
         (forall tbl p, In tbl (Exploder.table_names self) -> In (tbl, p) classes ->
                        column_to_check p = v) ->
         Exploder.value_col classes self = Ok v).
Proof.
  intros Hnd Hall.
  destruct (collect_value_cols_of_tables classes (Exploder.table_names self) Hnd Hall)
    as (value_cols & Hcols & Hnil & Hspec).
  unfold Exploder.value_col. rewrite Hcols. cbn [bind]. split.
  - intros H.
    assert (Nat.eqb (List.length (Py.unique Exploder.opt_str_eqb value_cols)) 1 = false)
      as Hlen.
    { apply Nat.eqb_neq.
      destruct H as [H | (t1 & p1 & t2 & p2 & Ht1 & Hp1 & Ht2 & Hp2 & Hne)].
      - apply Hnil in H. rewrite H. simpl; lia.
      - assert (In (column_to_check p1) value_cols) as Hx
            by (apply Hspec; exists t1, p1; auto).
        assert (In (column_to_check p2) value_cols) as Hy
            by (apply Hspec; exists t2, p2; auto).
        pose proof (unique_two_distinct Exploder.opt_str_eqb opt_str_eqb_eq
                      value_cols _ _ Hx Hy Hne). lia. }
    rewrite Hlen. cbn [negb]. eexists. split; reflexivity.
  - intros v Hne Hsame.
    rewrite (unique_all_equal Exploder.opt_str_eqb opt_str_eqb_eq value_cols v).
    + reflexivity.
    + intros E. apply Hne, Hnil. exact E.
    + intros x Hx. apply Hspec in Hx. destruct Hx as (tbl & p & Htbl & Hp & <-).
      exact (Hsame tbl p Htbl Hp).
Qed.

Lemma value_col_exactly_one_name_witness :
  (exists e,
      Exploder.value_col
        [("income_statement_ferc1",
          mkParams "income_type" (Some "dollar_value") (Some "utility_type"));
         ("balance_sheet_assets_ferc1",
          mkParams "asset_type" (Some "ending_balance") (Some "utility_type"))]
        (Exploder.mk ["income_statement_ferc1"; "balance_sheet_assets_ferc1"]
                     "income_statement_ferc1")
      = Raise e
      /\ kind e = ValueError)
  /\ Exploder.value_col
       [("balance_sheet_assets_ferc1",
         mkParams "asset_type" (Some "ending_balance") (Some "utility_type"));
        ("utility_plant_summary_ferc1",
         mkParams "utility_plant_asset_type" (Some "ending_balance")
                  (Some "utility_type"))]
       (Exploder.mk ["balance_sheet_assets_ferc1"; "utility_plant_summary_ferc1"]
                    "balance_sheet_assets_ferc1")
     = Ok (Some "ending_balance").
Proof.
  split.
  - refine (proj1 (value_col_exactly_one_name _ _ _ _) _).
    + repeat constructor; simpl; intuition discriminate.
    + intros tbl [<- | [<- | []]]; eexists; simpl; eauto.
    + right.
      exists "income_statement_ferc1",
        (mkParams "income_type" (Some "dollar_value") (Some "utility_type")),
        "balance_sheet_assets_ferc1",
        (mkParams "asset_type" (Some "ending_balance") (Some "utility_type")).
      simpl. repeat split; auto. discriminate.
  - refine (proj2 (value_col_exactly_one_name _ _ _ _) (Some "ending_balance") _ _).
    + repeat constructor; simpl; intuition discriminate.
    + intros tbl [<- | [<- | []]]; eexists; simpl; eauto.
    + discriminate.
    + intros tbl p _ [H | [H | []]]; inversion H; reflexivity.
Defined.

(** ** Construction of the forest: the seeds *)




(** ** Reconciliation of the inter-table calculations *)

(** Nulls propagate: the difference of two values is null as soon as one of
    them is, by the IEEE 754 specification of the operations. *)
Lemma is_nan_Prim2SF (x : float) :
  PrimFloat.is_nan x = true <-> Prim2SF x = S754_nan.
Proof.
  split.
  - intros H. unfold Prim2SF. rewrite H. reflexivity.
  - intros H. unfold PrimFloat.is_nan. rewrite FloatAxioms.eqb_spec, H. reflexivity.
Qed.

Lemma abs_diff_null (a b : float) :
  PrimFloat.is_nan a = true \/ PrimFloat.is_nan b = true ->
  PrimFloat.is_nan (PrimFloat.abs (PrimFloat.sub a b)) = true.
Proof.
  intros H. apply is_nan_Prim2SF.
  rewrite FloatAxioms.abs_spec, FloatAxioms.sub_spec.
  destruct H as [H | H]; apply is_nan_Prim2SF in H; rewrite H.
  - reflexivity.
  - destruct (Prim2SF a); reflexivity.
Qed.

Lemma abs_diff_notnull (r : DataRow) :
  Exploder.notnull (d_abs_diff (Exploder.with_diffs r)) = true ->
  Exploder.notnull (d_value r) = true
  /\ Exploder.notnull (d_calculated_amount r) = true.
Proof.
  unfold Exploder.notnull, Exploder.with_diffs. simpl. intros H.
  apply negb_true_iff in H.
  destruct (PrimFloat.is_nan (d_value r)) eqn:Ev.
  - rewrite abs_diff_null in H by (left; exact Ev). discriminate.
  - destruct (PrimFloat.is_nan (d_calculated_amount r)) eqn:Ec.
    + rewrite abs_diff_null in H by (right; exact Ec). discriminate.
    + split; reflexivity.
Qed.

(** C7, as stated, fails: with one off row, one matching row and eighteen
    rows whose reported value is null, the off rows are one in twenty of the
    rows with a non-null calculated value, which does not exceed [0.05]; the
    code counts only the two rows where the difference is not null, finds a
    ratio of one half and raises. *)
Lemma reconcile_ratio_is_not_over_calculated_rows :
  let df :=
    mkFrame true
      (income_row "net_income_loss" 100%float 10%float
       :: income_row "operating_revenues" 100%float 100%float
       :: repeat (income_row "income_taxes" PrimFloat.nan 5%float) 18) in
  exists claimed e,
    Exploder.off_ratio_over_calculated df = Ok claimed
    /\ PrimFloat.ltb Exploder.default_calculation_tolerance claimed = false
    /\ Exploder.reconcile_intertable_calculations income_classes income_exploder df
         Exploder.default_calculation_tolerance = Raise e
    /\ kind e = AssertionError.
Proof.
  cbv zeta. eexists; eexists.
  split; [vm_compute; reflexivity|].
  split; [vm_compute; reflexivity|].
  split; vm_compute; reflexivity.
Qed.

(** C7, amended: on a frame with a column [calculated_amount] that has at
    least one row whose difference [abs_diff] is not null, the ratio is the
    number of off rows over the number of rows whose [abs_diff] is not null;
    when it exceeds the tolerance the reconciliation raises an
    [AssertionError] whose message gives the ratio and the tolerance, and
    when it does not the reconciliation returns a frame.  The rows counted
    have both a reported and a calculated value. *)
Theorem reconcile_raises_iff_off_ratio_exceeds_tolerance
    (classes : list (string * TableParams)) (self : Exploder.t)
    (df : DataFrame) (calculation_tolerance : float) (col : string) :
  has_calculated_amount df = true ->
  Exploder.value_col classes self = Ok (Some col) ->
  Exploder.calculated_values df <> [] ->
  let off_ratio :=
    PrimFloat.div (Exploder.float_of_nat (List.length (Exploder.off_df df)))
                  (Exploder.float_of_nat (List.length (Exploder.calculated_values df))) in
  (PrimFloat.ltb calculation_tolerance off_ratio = true ->
   Exploder.reconcile_intertable_calculations classes self df calculation_tolerance
   = Raise (mkExn AssertionError
              [Text "Calculations in "; Text (Exploder.root_table self);
               Text " are off by "; Num off_ratio;
               Text ". Expected tolerance of "; Num calculation_tolerance;
               Text "."]))
  /\ (PrimFloat.ltb calculation_tolerance off_ratio = false ->
      exists out,
        Exploder.reconcile_intertable_calculations classes self df calculation_tolerance
        = Ok out)
  /\ (forall r, In r (Exploder.calculated_values df) ->
                Exploder.notnull (d_value r) = true
                /\ Exploder.notnull (d_calculated_amount r) = true).
Proof.
  intros Hcol Hvc Hne off_ratio.
  assert (forall r, In r (Exploder.calculated_values df) ->
                    Exploder.notnull (d_value r) = true
                    /\ Exploder.notnull (d_calculated_amount r) = true) as Hboth.
  { intros r Hr. unfold Exploder.calculated_values, Exploder.assigned in Hr.
    apply filter_In in Hr. destruct Hr as [Hr Hnn]. cbn [rows] in Hr.
    apply in_map_iff in Hr. destruct Hr as (r0 & <- & _).
    apply abs_diff_notnull in Hnn. exact Hnn. }
  unfold Exploder.reconcile_intertable_calculations.
  rewrite Hcol, Hvc. cbn [bind].
  cbv zeta. unfold Exploder.true_div.
  assert (Nat.eqb (List.length (Exploder.calculated_values df)) 0 = false) as ->.
  { destruct (Exploder.calculated_values df); [congruence | reflexivity]. }
  cbn [bind]. fold off_ratio.
  split; [|split; [|exact Hboth]]; intros Hcmp; rewrite Hcmp.
  - reflexivity.
  - destruct (PrimFloat.ltb 0 off_ratio); eexists; reflexivity.
Qed.

Lemma reconcile_raises_iff_off_ratio_exceeds_tolerance_witness :
  let df :=
    mkFrame true [income_row "net_income_loss" 100%float 10%float;
                  income_row "operating_revenues" 100%float 100%float] in
  exists e,
    Exploder.reconcile_intertable_calculations income_classes income_exploder df
      Exploder.default_calculation_tolerance = Raise e.
Proof.
  cbv zeta. eexists.
  refine (proj1 (reconcile_raises_iff_off_ratio_exceeds_tolerance
                   income_classes income_exploder _ _ "dollar_value" _ _ _) _).
  - reflexivity.
  - reflexivity.
  - vm_compute. discriminate.
  - vm_compute. reflexivity.
Defined.




(** ** Graphs *)

Lemma filter_all {A : Type} (p : A -> bool) (l : list A) :
  (forall x, In x l -> p x = true) -> filter p l = l.
Proof.
  induction l as [|a l IH]; intros H; simpl; [reflexivity|].
  rewrite (H a) by (left; reflexivity).
  f_equal. apply IH. intros x Hx. apply H. right; assumption.
Qed.

Lemma remove_nodes_from_nil (g : nx.DiGraph) : nx.remove_nodes_from g [] = g.
Proof.
  destruct g as [ns es]. unfold nx.remove_nodes_from. simpl.
  rewrite !filter_all by reflexivity. reflexivity.
Qed.

Lemma edge_eqb_eq (e1 e2 : NodeId * NodeId) : nx.edge_eqb e1 e2 = true <-> e1 = e2.
Proof.
  destruct e1 as [u1 v1], e2 as [u2 v2]. unfold nx.edge_eqb. simpl.
  rewrite andb_true_iff, !NodeId_eqb_eq. split.
  - intros [-> ->]; reflexivity.
  - intros H; inversion H; auto.
Qed.

Lemma has_edge_In (g : nx.DiGraph) (u v : NodeId) :
  nx.has_edge g u v = true <-> In (u, v) (nx.edges g).
Proof.
  unfold nx.has_edge. rewrite existsb_exists. split.
  - intros (e & He & E). apply edge_eqb_eq in E. subst e. assumption.
  - intros H. exists (u, v). split; [assumption | apply edge_eqb_eq; reflexivity].
Qed.

Lemma edges_add_node (g : nx.DiGraph) (n : NodeId) :
  nx.edges (nx.add_node g n) = nx.edges g.
Proof. unfold nx.add_node. destruct (nx.has_node g n); reflexivity. Qed.

Lemma has_edge_add_node (g : nx.DiGraph) (n u v : NodeId) :
  nx.has_edge (nx.add_node g n) u v = nx.has_edge g u v.
Proof. unfold nx.has_edge. rewrite edges_add_node. reflexivity. Qed.

Lemma edges_add_edge (g : nx.DiGraph) (u v : NodeId) :
  nx.edges (nx.add_edge g u v)
  = nx.edges g ++ (if nx.has_edge g u v then [] else [(u, v)]).
Proof.
  unfold nx.add_edge. cbv zeta.
  rewrite !has_edge_add_node.
  destruct (nx.has_edge g u v); simpl.
  - rewrite !edges_add_node, app_nil_r. reflexivity.
  - rewrite !edges_add_node. reflexivity.
Qed.

Lemma In_edges_add_edge (g : nx.DiGraph) (u v x y : NodeId) :
  In (x, y) (nx.edges (nx.add_edge g u v))
  <-> In (x, y) (nx.edges g) \/ (x, y) = (u, v).
Proof.
  rewrite edges_add_edge, in_app_iff.
  destruct (nx.has_edge g u v) eqn:E; simpl.
  - apply has_edge_In in E. split; [tauto|].
    intros [H | H]; [left; assumption|]. inversion H; subst. left; assumption.
  - split; [intros [H | [H | []]]; auto | intros [H | H]; auto].
Qed.

Lemma In_pred_list (g : nx.DiGraph) (u v : NodeId) :
  In u (nx.pred_list g v) <-> In (u, v) (nx.edges g).
Proof.
  unfold nx.pred_list. rewrite in_map_iff. split.
  - intros ([x y] & E & H). apply filter_In in H. destruct H as [H Hy].
    simpl in *. apply NodeId_eqb_eq in Hy. subst. assumption.
  - intros H. exists (u, v). split; [reflexivity|].
    apply filter_In. split; [assumption | apply NodeId_eqb_refl].
Qed.

Lemma In_succ_list (g : nx.DiGraph) (u v : NodeId) :
  In v (nx.succ_list g u) <-> In (u, v) (nx.edges g).
Proof.
  unfold nx.succ_list. rewrite in_map_iff. split.
  - intros ([x y] & E & H). apply filter_In in H. destruct H as [H Hx].
    simpl in *. apply NodeId_eqb_eq in Hx. subst. assumption.
  - intros H. exists (u, v). split; [reflexivity|].
    apply filter_In. split; [assumption | apply NodeId_eqb_refl].
Qed.

Lemma pred_list_add_edge (g : nx.DiGraph) (u v n : NodeId) :
  nx.pred_list (nx.add_edge g u v) n
  = nx.pred_list g n
    ++ (if nx.has_edge g u v then [] else if NodeId_eqb v n then [u] else []).
Proof.
  unfold nx.pred_list. rewrite edges_add_edge, filter_app, map_app.
  f_equal. destruct (nx.has_edge g u v); [reflexivity|].
  simpl. destruct (NodeId_eqb v n); reflexivity.
Qed.

Lemma succ_list_add_edge (g : nx.DiGraph) (u v n : NodeId) :
  nx.succ_list (nx.add_edge g u v) n
  = nx.succ_list g n
    ++ (if nx.has_edge g u v then [] else if NodeId_eqb u n then [v] else []).
Proof.
  unfold nx.succ_list. rewrite edges_add_edge, filter_app, map_app.
  f_equal. destruct (nx.has_edge g u v); [reflexivity|].
  simpl. destruct (NodeId_eqb u n); reflexivity.
Qed.

(** What a step of the pruning loop does when it does not raise: the node
    has one parent and two children, one of which does not end in
    ["_correction"]; nothing is removed, the iterator handed to
    [remove_nodes_from] being exhausted; the edge from the parent to that
    child is added. *)
Lemma splice_Ok (f f' : nx.DiGraph) (node : NodeId) :
  XbrlCalculationForestFerc1.splice f node = Ok f' ->
  exists p c,
    nx.pred_list f node = [p]
    /\ List.length (nx.succ_list f node) = 2
    /\ filter XbrlCalculationForestFerc1.not_correction (nx.succ_list f node) = [c]
    /\ f' = nx.add_edge f p c.
Proof.
  unfold XbrlCalculationForestFerc1.splice, nx.predecessors, nx.successors,
    nx.list_of_iter.
  destruct (nx.has_node f node); [|discriminate]. cbn [bind].
  intros H.
  apply bind_Ok in H. destruct H as (u1 & H1 & H). apply assert_Ok in H1.
  apply bind_Ok in H. destruct H as (u2 & H2 & H). apply assert_Ok in H2.
  apply bind_Ok in H. destruct H as (u3 & H3 & H). apply assert_Ok in H3.
  apply Nat.eqb_eq in H1, H2, H3.
  rewrite remove_nodes_from_nil in H.
  destruct (nx.pred_list f node) as [|p [|? ?]]; try discriminate.
  destruct (filter _ (nx.succ_list f node)) as [|c [|? ?]]; try discriminate.
  exists p, c. inversion H. repeat split; assumption.
Qed.

Lemma splice_edges (f f' : nx.DiGraph) (node : NodeId) :
  XbrlCalculationForestFerc1.splice f node = Ok f' ->
  exists extra, nx.edges f' = nx.edges f ++ extra.
Proof.
  intros H. destruct (splice_Ok _ _ _ H) as (p & c & _ & _ & _ & ->).
  rewrite edges_add_edge. eexists; reflexivity.
Qed.

Lemma prune_edges (pts : list NodeId) :
  forall f f', XbrlCalculationForestFerc1.prune f pts = Ok f' ->
               exists extra, nx.edges f' = nx.edges f ++ extra.
Proof.
  induction pts as [|n pts IH]; intros f f' H; simpl in H.
  - inversion H; subst. exists []. rewrite app_nil_r; reflexivity.
  - apply bind_Ok in H. destruct H as (f1 & H1 & H2).
    destruct (splice_edges _ _ _ H1) as (e1 & E1).
    destruct (IH _ _ H2) as (e2 & E2).
    exists (e1 ++ e2). rewrite E2, E1, app_assoc. reflexivity.
Qed.

Lemma prune_has_edge (pts : list NodeId) (f f' : nx.DiGraph) (u v : NodeId) :
  XbrlCalculationForestFerc1.prune f pts = Ok f' ->
  nx.has_edge f u v = true -> nx.has_edge f' u v = true.
Proof.
  intros H Huv. destruct (prune_edges _ _ _ H) as (extra & E).
  apply has_edge_In. rewrite E. apply in_or_app. left.
  apply has_edge_In; assumption.
Qed.

Lemma In_node_list_add_node (g : nx.DiGraph) (n x : NodeId) :
  In x (nx.node_list (nx.add_node g n)) <-> In x (nx.node_list g) \/ x = n.
Proof.
  unfold nx.add_node. destruct (nx.has_node g n) eqn:E.
  - apply node_in_In in E. split; [tauto | intros [H | ->]; assumption].
  - unfold nx.node_list. simpl. rewrite map_app, in_app_iff. simpl.
    split; [intros [H | [H | []]]; auto | intros [H | H]; auto].
Qed.

Lemma node_list_add_edge (g : nx.DiGraph) (u v : NodeId) :
  nx.node_list (nx.add_edge g u v) = nx.node_list (nx.add_node (nx.add_node g u) v).
Proof.
  unfold nx.add_edge. cbv zeta.
  destruct (nx.has_edge (nx.add_node (nx.add_node g u) v) u v); reflexivity.
Qed.

Lemma closed_add_edge (g : nx.DiGraph) (u v : NodeId) :
  nx.closed g -> nx.closed (nx.add_edge g u v).
Proof.
  intros Hg x y Hxy. rewrite node_list_add_edge, !In_node_list_add_node.
  apply In_edges_add_edge in Hxy. destruct Hxy as [Hxy | Hxy].
  - destruct (Hg x y Hxy). tauto.
  - inversion Hxy; subst. tauto.
Qed.

Lemma closed_set_node_attributes (g : nx.DiGraph) (attrs : list (NodeId * nx.NodeAttrs)) :
  nx.closed g -> nx.closed (nx.set_node_attributes g attrs).
Proof.
  assert (nx.node_list (nx.set_node_attributes g attrs) = nx.node_list g) as E.
  { unfold nx.node_list, nx.set_node_attributes. simpl. rewrite map_map.
    apply map_ext. intros [n a]. simpl. destruct (nx.attrs_get attrs n); reflexivity. }
  intros Hg x y Hxy. rewrite E. apply Hg. exact Hxy.
Qed.

Lemma closed_remove_nodes_from (g : nx.DiGraph) (ns : list NodeId) :
  nx.closed g -> nx.closed (nx.remove_nodes_from g ns).
Proof.
  intros Hg x y Hxy. unfold nx.remove_nodes_from in *. simpl in Hxy.
  apply filter_In in Hxy. destruct Hxy as [Hxy Hkeep]. simpl in Hkeep.
  apply negb_true_iff, orb_false_iff in Hkeep. destruct Hkeep as [Hx Hy].
  destruct (Hg x y Hxy) as [Hnx Hny].
  unfold nx.node_list in *. simpl.
  apply in_map_iff in Hnx. destruct Hnx as ([x' ax] & Ex & Hnx). simpl in Ex. subst x'.
  apply in_map_iff in Hny. destruct Hny as ([y' ay] & Ey & Hny). simpl in Ey. subst y'.
  split; apply in_map_iff; [exists (x, ax) | exists (y, ay)];
    (split; [reflexivity|]); apply filter_In; simpl;
    (split; [assumption|]); [rewrite Hx | rewrite Hy]; reflexivity.
Qed.

Lemma visit_calc_closed (tags : list (NodeId * nx.Tags)) (from_node : NodeId)
    (st st' : XbrlCalculationForestFerc1.builder_state) (calc : CalcComponent) :
  nx.closed (fst st) ->
  XbrlCalculationForestFerc1.visit_calc tags from_node st calc = Ok st' ->
  nx.closed (fst st').
Proof.
  intros Hst H. destruct st as [forest attrs].
  unfold XbrlCalculationForestFerc1.visit_calc in H.
  apply bind_Ok in H. destruct H as (u & _ & H).
  destruct (source_tables calc) as [|tbl rest]; [discriminate|].
  apply bind_Ok in H. destruct H as (a & _ & H).
  inversion H; subst st'. simpl. apply closed_add_edge. exact Hst.
Qed.

Lemma visit_row_closed (tags : list (NodeId * nx.Tags))
    (st st' : XbrlCalculationForestFerc1.builder_state) (row : MetaRow) :
  nx.closed (fst st) ->
  XbrlCalculationForestFerc1.visit_row tags st row = Ok st' ->
  nx.closed (fst st').
Proof.
  intros Hst H. destruct st as [forest attrs].
  unfold XbrlCalculationForestFerc1.visit_row in H.
  apply bind_Ok in H. destruct H as (a & _ & H).
  refine (foldM_invariant (fun s => nx.closed (fst s)) _ _ _ _ _ _ H).
  - intros s x s' _ Hs Hx. eapply visit_calc_closed; eassumption.
  - exact Hst.
Qed.

Lemma exploded_meta_to_digraph_closed (meta : list MetaRow)
    (tags : list (NodeId * nx.Tags)) (g : nx.DiGraph) :
  XbrlCalculationForestFerc1.exploded_meta_to_digraph meta tags = Ok g ->
  nx.closed g.
Proof.
  unfold XbrlCalculationForestFerc1.exploded_meta_to_digraph. intros H.
  apply bind_Ok in H. destruct H as ([forest attrs] & Hfold & H).
  inversion H; subst g.
  apply closed_remove_nodes_from, closed_set_node_attributes.
  refine (foldM_invariant (fun s => nx.closed (fst s)) _ _ _ _ _ _ Hfold).
  - intros s x s' _ Hs Hx. eapply visit_row_closed; eassumption.
  - intros u v [].
Qed.

Lemma seeded_digraph_closed (self : XbrlCalculationForestFerc1.t) (g : nx.DiGraph) :
  XbrlCalculationForestFerc1.seeded_digraph self = Ok g -> nx.closed g.
Proof.
  unfold XbrlCalculationForestFerc1.seeded_digraph. intros H.
  apply bind_Ok in H. destruct H as (ns & _ & H).
  apply bind_Ok in H. destruct H as (meta & _ & H).
  eapply exploded_meta_to_digraph_closed; eassumption.
Qed.

Lemma path_trans (g : nx.DiGraph) (u v w : NodeId) :
  nx.path g u v -> nx.path g v w -> nx.path g u w.
Proof.
  intros Huv Hvw. induction Huv as [u v Huv | u x v Hux _ IH].
  - eapply nx.path_step; eassumption.
  - eapply nx.path_step; [exact Hux | apply IH; exact Hvw].
Qed.

Lemma path_included (g f : nx.DiGraph) :
  (forall u v, nx.edge f u v -> nx.path g u v) ->
  forall u v, nx.path f u v -> nx.path g u v.
Proof.
  intros Hedges u v H. induction H as [u v Huv | u x v Hux _ IH].
  - apply Hedges; assumption.
  - eapply path_trans; [apply Hedges; exact Hux | exact IH].
Qed.

(** ** Descendants and ancestors *)

Lemma NoDup_unique (l : list NodeId) : NoDup (Py.unique NodeId_eqb l).
Proof.
  induction l as [|a l IH]; simpl; constructor.
  - intros H. apply filter_In in H. destruct H as [_ H].
    rewrite NodeId_eqb_refl in H. discriminate.
  - apply NoDup_filter. exact IH.
Qed.

Section Search.

Variable next : NodeId -> list NodeId.
Variable universe : list NodeId.
Variable source : NodeId.

(** [linked] stands for the nodes joined to the source: it is closed under
    [next] from the source, and it is the least such set. *)
Variable linked : NodeId -> Prop.

Hypothesis next_in_universe : forall x y, In y (next x) -> In y universe.
Hypothesis linked_step :
  forall x y, x = source \/ linked x -> In y (next x) -> linked y.
Hypothesis linked_least :
  forall Q : NodeId -> Prop,
    (forall x y, x = source \/ Q x -> In y (next x) -> Q y) ->
    forall n, linked n -> Q n.

Let fresh_of (seen frontier : list NodeId) : list NodeId :=
  Py.unique NodeId_eqb
    (filter (fun n => negb (nx.node_in n seen)) (flat_map next frontier)).

Lemma fresh_of_In (seen frontier : list NodeId) (y : NodeId) :
  In y (fresh_of seen frontier)
  <-> (exists x, In x frontier /\ In y (next x)) /\ ~ In y seen.
Proof.
  unfold fresh_of. rewrite (unique_In NodeId_eqb NodeId_eqb_eq), filter_In, in_flat_map.
  rewrite negb_true_iff. pose proof (node_in_In y seen) as H.
  destruct (nx.node_in y seen); split; intros [H1 H2]; split; auto.
  - discriminate.
  - elim H2. apply H. reflexivity.
  - intros H3. apply H in H3. discriminate.
Qed.

Lemma search_sound (fuel : nat) :
  forall seen frontier,
    (forall x, In x seen -> x = source \/ linked x) ->
    incl frontier seen ->
    forall n, In n (nx.search fuel next seen frontier) -> n = source \/ linked n.
Proof.
  induction fuel as [|k IH]; intros seen frontier Hseen Hfr n Hn; simpl in Hn.
  - apply Hseen; assumption.
  - fold (fresh_of seen frontier) in Hn.
    destruct (fresh_of seen frontier) as [|a fresh] eqn:E.
    + apply Hseen; assumption.
    + rewrite <- E in Hn. apply (IH (seen ++ fresh_of seen frontier) (fresh_of seen frontier));
        try assumption.
      * intros x Hx. apply in_app_or in Hx. destruct Hx as [Hx | Hx];
          [apply Hseen; assumption|].
        apply fresh_of_In in Hx. destruct Hx as [(x0 & Hx0 & Hy) _].
        right. apply (linked_step x0); [apply Hseen, Hfr; assumption | assumption].
      * intros x Hx. apply in_or_app. right; assumption.
Qed.

Lemma search_complete (fuel : nat) :
  forall seen frontier,
    NoDup seen ->
    incl seen universe ->
    incl frontier seen ->
    (forall x, In x seen -> ~ In x frontier -> forall y, In y (next x) -> In y seen) ->
    List.length universe < fuel + List.length seen ->
    incl seen (nx.search fuel next seen frontier)
    /\ forall x, In x (nx.search fuel next seen frontier) ->
                 forall y, In y (next x) -> In y (nx.search fuel next seen frontier).
Proof.
  induction fuel as [|k IH]; intros seen frontier Hnd Huni Hfr Hclosed Hlen.
  - pose proof (NoDup_incl_length Hnd Huni). simpl in Hlen. lia.
  - simpl. fold (fresh_of seen frontier).
    destruct (fresh_of seen frontier) as [|a fresh] eqn:E.
    + split; [apply incl_refl|].
      intros x Hx y Hy.
      destruct (nx.node_in x frontier) eqn:Hxf.
      * apply node_in_In in Hxf.
        destruct (nx.node_in y seen) eqn:Hys; [apply node_in_In; assumption|].
        exfalso. assert (In y (fresh_of seen frontier)) as Hin.
        { apply fresh_of_In. split; [exists x; split; assumption|].
          intros H. apply node_in_In in H. congruence. }
        rewrite E in Hin. exact Hin.
      * apply (Hclosed x Hx); [|assumption].
        intros H. apply node_in_In in H. congruence.
    + rewrite <- E.
      assert (forall y, In y (fresh_of seen frontier) -> ~ In y seen) as Hfresh
        by (intros y Hy; apply fresh_of_In in Hy; tauto).
      destruct (IH (seen ++ fresh_of seen frontier) (fresh_of seen frontier))
        as [Hincl Hout].
      * apply NoDup_app; [assumption | apply NoDup_unique |].
        intros x Hx Hx'. exact (Hfresh x Hx' Hx).
      * intros x Hx. apply in_app_or in Hx. destruct Hx as [Hx | Hx];
          [apply Huni; assumption|].
        apply fresh_of_In in Hx. destruct Hx as [(x0 & _ & Hy) _].
        apply (next_in_universe x0); assumption.
      * intros x Hx. apply in_or_app. right; assumption.
      * intros x Hx Hnf y Hy. apply in_app_or in Hx.
        destruct Hx as [Hx | Hx]; [|contradiction].
        destruct (nx.node_in x frontier) eqn:Hxf.
        -- apply node_in_In in Hxf.
           destruct (nx.node_in y seen) eqn:Hys.
           ++ apply in_or_app. left. apply node_in_In; assumption.
           ++ apply in_or_app. right. apply fresh_of_In.
              split; [exists x; split; assumption|].
              intros H. apply node_in_In in H. congruence.
        -- apply in_or_app. left. apply (Hclosed x Hx); [|assumption].
           intros H. apply node_in_In in H. congruence.
      * rewrite length_app, E. simpl. simpl in Hlen. lia.
      * split; [|exact Hout].
        intros x Hx. apply Hincl. apply in_or_app. left; assumption.
Qed.

Lemma search_from_source (n : NodeId) :
  In source universe ->
  In n (filter (fun n => negb (NodeId_eqb n source))
               (nx.search (List.length universe) next [source] [source]))
  <-> linked n /\ n <> source.
Proof.
  intros Hsrc. rewrite filter_In, negb_true_iff, NodeId_eqb_neq. split.
  - intros [Hn Hne]. split; [|assumption].
    destruct (search_sound (List.length universe) [source] [source]) with (n := n)
      as [-> | H]; try assumption.
    + intros x [<- | []]. left; reflexivity.
    + apply incl_refl.
    + congruence.
  - intros [Hn Hne]. split; [|assumption].
    destruct (search_complete (List.length universe) [source] [source])
      as [Hincl Hout].
    + constructor; [intros [] | constructor].
    + intros x [<- | []]. assumption.
    + apply incl_refl.
    + intros x [<- | []] Hx. elim Hx. left; reflexivity.
    + simpl. lia.
    + apply (linked_least
               (fun n => In n (nx.search (List.length universe) next [source] [source])));
        [|assumption].
      intros x y [-> | Hx] Hy.
      * apply (Hout source); [apply Hincl; left; reflexivity | assumption].
      * apply (Hout x); assumption.
Qed.

End Search.

Lemma path_from_least (g : nx.DiGraph) (s : NodeId) (Q : NodeId -> Prop) :
  (forall x y, x = s \/ Q x -> In y (nx.succ_list g x) -> Q y) ->
  forall n, nx.path g s n -> Q n.
Proof.
  intros HQ.
  assert (forall u n, nx.path g u n -> u = s \/ Q u -> Q n) as H.
  { intros u n Hp. induction Hp as [u v Huv | u v w Huv _ IH]; intros Hu.
    - apply (HQ u v Hu). apply In_succ_list. exact Huv.
    - apply IH. right. apply (HQ u v Hu). apply In_succ_list. exact Huv. }
  intros n Hn. apply (H s n Hn). left; reflexivity.
Qed.

Lemma path_to_least (g : nx.DiGraph) (s : NodeId) (Q : NodeId -> Prop) :
  (forall x y, x = s \/ Q x -> In y (nx.pred_list g x) -> Q y) ->
  forall n, nx.path g n s -> Q n.
Proof.
  intros HQ n Hp. revert HQ.
  induction Hp as [u v Huv | u v w Huv _ IH]; intros HQ.
  - apply (HQ v u); [left; reflexivity | apply In_pred_list; exact Huv].
  - apply (HQ v u); [right; apply IH; exact HQ | apply In_pred_list; exact Huv].
Qed.

(** In a graph whose edges join nodes, [nx.descendants] gives the nodes
    other than the source that a directed path from the source reaches,
    and [nx.ancestors] those from which a directed path reaches it. *)
Lemma descendants_spec (g : nx.DiGraph) (source : NodeId) (d : list NodeId) :
  nx.closed g ->
  nx.descendants g source = Ok d ->
  forall n, In n d <-> nx.path g source n /\ n <> source.
Proof.
  intros Hg H n. unfold nx.descendants in H.
  destruct (nx.has_node g source) eqn:Hs; [|discriminate].
  inversion H; subst d. unfold nx.reachable.
  replace (List.length (nx.nodes g)) with (List.length (nx.node_list g))
    by (unfold nx.node_list; apply length_map).
  apply (search_from_source (nx.succ_list g) (nx.node_list g) source
           (nx.path g source)).
  - intros x y Hy. apply In_succ_list in Hy. apply (Hg x y Hy).
  - intros x y [-> | Hx] Hy; apply In_succ_list in Hy.
    + apply nx.path_edge. exact Hy.
    + apply (path_trans g source x y Hx). apply nx.path_edge. exact Hy.
  - intros Q HQ. apply path_from_least. exact HQ.
  - apply node_in_In. exact Hs.
Qed.

Lemma ancestors_spec (g : nx.DiGraph) (source : NodeId) (a : list NodeId) :
  nx.closed g ->
  nx.ancestors g source = Ok a ->
  forall n, In n a <-> nx.path g n source /\ n <> source.
Proof.
  intros Hg H n. unfold nx.ancestors in H.
  destruct (nx.has_node g source) eqn:Hs; [|discriminate].
  inversion H; subst a. unfold nx.reachable.
  replace (List.length (nx.nodes g)) with (List.length (nx.node_list g))
    by (unfold nx.node_list; apply length_map).
  apply (search_from_source (nx.pred_list g) (nx.node_list g) source
           (fun n => nx.path g n source)).
  - intros x y Hy. apply In_pred_list in Hy. apply (Hg y x Hy).
  - intros x y [-> | Hx] Hy; apply In_pred_list in Hy.
    + apply nx.path_edge. exact Hy.
    + apply (nx.path_step g y x source Hy Hx).
  - intros Q HQ. apply path_to_least. exact HQ.
  - apply node_in_In. exact Hs.
Qed.

(** ** The weights recorded by the graph builder *)

Lemma attrs_get_set_same (attrs : list (NodeId * nx.NodeAttrs)) (n : NodeId)
    (a : nx.NodeAttrs) :
  nx.attrs_get (nx.attrs_set attrs n a) n = Some a.
Proof.
  unfold nx.attrs_get, nx.attrs_set.
  induction attrs as [|[k b] attrs IH]; simpl.
  - rewrite NodeId_eqb_refl. reflexivity.
  - destruct (NodeId_eqb k n) eqn:E; simpl; rewrite E; [reflexivity | exact IH].
Qed.

(** A weight once recorded on a node, and not zero, is the weight the node
    keeps: no later component changes it. *)
Lemma visit_calc_keeps_recorded_weight (tags : list (NodeId * nx.Tags))
    (from_node : NodeId) (st st' : XbrlCalculationForestFerc1.builder_state)
    (calc : CalcComponent) (tbl : string) (w : float) :
  source_tables calc = [tbl] ->
  nx.attr_weight (XbrlCalculationForestFerc1.attrs_of (snd st) (mkNodeId tbl (name calc)))
  = Some w ->
  Py.float_truthy w = true ->
  XbrlCalculationForestFerc1.visit_calc tags from_node st calc = Ok st' ->
  nx.attr_weight (XbrlCalculationForestFerc1.attrs_of (snd st') (mkNodeId tbl (name calc)))
  = Some w.
Proof.
  intros Hsrc Hw Htruthy H. destruct st as [forest attrs]. simpl in Hw.
  unfold XbrlCalculationForestFerc1.visit_calc in H.
  rewrite Hsrc in H. simpl in H. rewrite Hw, Htruthy in H.
  unfold Py.expr_stmt in H.
  destruct (negb (PrimFloat.eqb w (weight calc))).
  - apply bind_Ok in H. destruct H as (a & Ha & H).
    apply bind_Ok in Ha. destruct Ha as (u & _ & Ha).
    inversion Ha; subst a. inversion H; subst st'. simpl.
    unfold XbrlCalculationForestFerc1.attrs_of at 1.
    rewrite attrs_get_set_same. simpl. exact Hw.
  - simpl in H. inversion H; subst st'. simpl.
    unfold XbrlCalculationForestFerc1.attrs_of at 1.
    rewrite attrs_get_set_same. simpl. exact Hw.
Qed.

(** C5: the code at a failing input.  The component [operating_expenses]
    is asserted with the weight [1.0] and then with the weight [-1.0]; the
    graph is built, and the weight recorded on the node is [1.0], the
    first one seen, not [-1.0]. *)
Theorem conflicting_weight_keeps_first_seen :
  exists g a,
    XbrlCalculationForestFerc1.exploded_meta_to_digraph shared_component_meta [] = Ok g
    /\ nx.node_attrs g (mkNodeId "income_statement_ferc1" "operating_expenses") = Some a
    /\ nx.attr_weight a = Some 1%float.
Proof.
  eexists; eexists.
  split; [vm_compute; reflexivity|].
  split; [vm_compute; reflexivity|].
  reflexivity.
Qed.

(** ** Pruning: the passthroughs *)

(** [forest] returns what the loop over the passthroughs returns, when that
    has a node. *)
Lemma forest_is_pruned (self : XbrlCalculationForestFerc1.t) (g f : nx.DiGraph) :
  XbrlCalculationForestFerc1.seeded_digraph self = Ok g ->
  XbrlCalculationForestFerc1.forest self = Ok f
  <-> XbrlCalculationForestFerc1.prune g (XbrlCalculationForestFerc1.passthroughs_of g)
      = Ok f
      /\ nx.nodes f <> [].
Proof.
  intros Hg.
  unfold XbrlCalculationForestFerc1.forest, XbrlCalculationForestFerc1.passthroughs.
  rewrite Hg. cbn [bind].
  destruct (XbrlCalculationForestFerc1.prune
              g (XbrlCalculationForestFerc1.passthroughs_of g)) as [f'|e]; cbn [bind].
  - unfold nx.is_forest_returns. destruct (nx.nodes f') eqn:E; cbn [bind].
    + split; [discriminate|]. intros [H Hne]. inversion H; subst. congruence.
    + split.
      * intros H. inversion H; subst. split; [reflexivity|]. rewrite E. discriminate.
      * intros [H _]. exact H.
  - split; [discriminate | intros [H _]; discriminate].
Qed.

Lemma pred_list_extended (g f : nx.DiGraph) (extra : list (NodeId * NodeId)) (n : NodeId) :
  nx.edges f = nx.edges g ++ extra ->
  nx.pred_list f n
  = nx.pred_list g n ++ map fst (filter (fun e => NodeId_eqb (snd e) n) extra).
Proof.
  intros E. unfold nx.pred_list. rewrite E, filter_app, map_app. reflexivity.
Qed.

Lemma succ_list_extended (g f : nx.DiGraph) (extra : list (NodeId * NodeId)) (n : NodeId) :
  nx.edges f = nx.edges g ++ extra ->
  nx.succ_list f n
  = nx.succ_list g n ++ map snd (filter (fun e => NodeId_eqb (fst e) n) extra).
Proof.
  intros E. unfold nx.succ_list. rewrite E, filter_app, map_app. reflexivity.
Qed.

Lemma app_same_length_nil {A : Type} (l extra : list A) (n : nat) :
  List.length l = n -> List.length (l ++ extra) = n -> extra = [].
Proof.
  rewrite length_app. intros -> H. destruct extra; [reflexivity | simpl in H; lia].
Qed.

(** A step of the loop on a node of the unpruned graph with two children
    there finds the same children, whatever edges have been added so far. *)
Lemma splice_same_children (g f f' : nx.DiGraph) (node : NodeId) :
  (exists extra, nx.edges f = nx.edges g ++ extra) ->
  List.length (nx.succ_list g node) = 2 ->
  XbrlCalculationForestFerc1.splice f node = Ok f' ->
  exists p c,
    In p (nx.pred_list f node)
    /\ nx.pred_list f node = [p]
    /\ filter XbrlCalculationForestFerc1.not_correction (nx.succ_list g node) = [c]
    /\ f' = nx.add_edge f p c.
Proof.
  intros (extra & E) Hlen H.
  destruct (splice_Ok _ _ _ H) as (p & c & Hp & Hlen' & Hc & ->).
  rewrite (succ_list_extended g f extra node E) in Hlen', Hc.
  rewrite (app_same_length_nil _ _ 2 Hlen Hlen'), app_nil_r in Hc.
  exists p, c. repeat split; try assumption.
  rewrite Hp. left; reflexivity.
Qed.

Lemma prune_adds_spliced_edge (g : nx.DiGraph) (A B C : NodeId) :
  nx.pred_list g B = [A] ->
  List.length (nx.succ_list g B) = 2 ->
  filter XbrlCalculationForestFerc1.not_correction (nx.succ_list g B) = [C] ->
  forall pts f0 f,
    (exists extra, nx.edges f0 = nx.edges g ++ extra) ->
    XbrlCalculationForestFerc1.prune f0 pts = Ok f ->
    In B pts ->
    nx.has_edge f A C = true.
Proof.
  intros HA Hlen HC. induction pts as [|n pts IH]; intros f0 f Hext H HB;
    [contradiction|].
  simpl in H. apply bind_Ok in H. destruct H as (f1 & H1 & H2).
  destruct HB as [-> | HB].
  - destruct (splice_same_children g f0 f1 B Hext Hlen H1)
      as (p & c & _ & Hp & Hc & ->).
    destruct Hext as (extra & E).
    rewrite (pred_list_extended g f0 extra B E), HA in Hp.
    rewrite HC in Hc. inversion Hp; subst p. inversion Hc; subst c.
    apply (prune_has_edge _ _ _ _ _ H2).
    apply has_edge_In, In_edges_add_edge. right; reflexivity.
  - apply (IH f1 f); [|assumption|assumption].
    destruct Hext as (extra & E). destruct (splice_edges _ _ _ H1) as (e1 & E1).
    exists (extra ++ e1). rewrite E1, E, app_assoc. reflexivity.
Qed.

Lemma children_of_passthrough (B C : NodeId) (l : list NodeId) :
  l = [C; XbrlCalculationForestFerc1.correction_node B]
  \/ l = [XbrlCalculationForestFerc1.correction_node B; C] ->
  Py.endswith (node_factoid C) "_correction" = false ->
  List.length l = 2
  /\ filter XbrlCalculationForestFerc1.not_correction l = [C]
  /\ In (XbrlCalculationForestFerc1.correction_node B) l.
Proof.
  intros Hl HC.
  assert (XbrlCalculationForestFerc1.not_correction C = true) as HnC.
  { unfold XbrlCalculationForestFerc1.not_correction. rewrite HC. reflexivity. }
  assert (XbrlCalculationForestFerc1.not_correction
            (XbrlCalculationForestFerc1.correction_node B) = false) as HnB.
  { unfold XbrlCalculationForestFerc1.not_correction,
      XbrlCalculationForestFerc1.correction_node. simpl.
    rewrite endswith_app. reflexivity. }
  destruct Hl as [-> | ->]; simpl; rewrite HnC, HnB; repeat split; auto.
Qed.

Lemma is_passthrough (g : nx.DiGraph) (B : NodeId) :
  In B (nx.node_list g) ->
  nx.in_degree g B = 1 ->
  nx.out_degree g B = 2 ->
  In (XbrlCalculationForestFerc1.correction_node B) (nx.succ_list g B) ->
  In B (XbrlCalculationForestFerc1.passthroughs_of g).
Proof.
  intros Hnode Hin Hout Hcorr. unfold XbrlCalculationForestFerc1.passthroughs_of.
  apply filter_In. split.
  - apply filter_In. split; [assumption | apply Nat.eqb_eq; assumption].
  - apply node_in_In, in_flat_map. exists B. split.
    + apply filter_In. split; [assumption | apply Nat.eqb_eq; assumption].
    + apply in_flat_map. exists (XbrlCalculationForestFerc1.correction_node B).
      split; [assumption|].
      unfold XbrlCalculationForestFerc1.is_correction_of,
        XbrlCalculationForestFerc1.correction_node. simpl.
      rewrite !String.eqb_refl. left; reflexivity.
Qed.

(** C1, as stated, fails: with the second child of [b] being the correction
    of [c], the seeded digraph has the edges from [a] to [b], from [b] to
    [c] and from [b] to the correction, [b] has the one parent [a] and these
    two children, and yet [b] is no passthrough: the forest is the seeded
    digraph, [b] is in it and there is no edge from [a] to [c]. *)
Lemma passthrough_as_specified_is_left_alone :
  exists g f,
    XbrlCalculationForestFerc1.construct passthrough_meta_as_specified [] []
    = Ok passthrough_self_as_specified
    /\ XbrlCalculationForestFerc1.seeded_digraph passthrough_self_as_specified = Ok g
    /\ nx.pred_list g node_b = [node_a]
    /\ nx.succ_list g node_b
       = [node_c; mkNodeId (source_table node_c) (node_factoid node_c ++ "_correction")]
    /\ XbrlCalculationForestFerc1.forest passthrough_self_as_specified = Ok f
    /\ f = g
    /\ nx.has_node f node_b = true
    /\ nx.has_edge f node_a node_c = false.
Proof.
  eexists; eexists.
  split; [vm_compute; reflexivity|].
  split; [vm_compute; reflexivity|].
  split; [vm_compute; reflexivity|].
  split; [vm_compute; reflexivity|].
  split; [vm_compute; reflexivity|].
  repeat split.
Qed.

(** C1, amended: in a seeded digraph where [B] has exactly one parent [A] and
    exactly two children, a child [C] whose factoid does not end in
    ["_correction"] and the correction of [B] itself (same table as [B],
    factoid of [B] suffixed with ["_correction"]), [B] is a passthrough;
    every forest the pruning returns has a direct edge from [A] to [C]; and
    the pruning does return a forest when [B] is the only passthrough. *)
Theorem forest_joins_parent_and_child_of_passthrough
    (self : XbrlCalculationForestFerc1.t) (g : nx.DiGraph) (A B C : NodeId) :
  XbrlCalculationForestFerc1.seeded_digraph self = Ok g ->
  nx.pred_list g B = [A] ->
  (nx.succ_list g B = [C; XbrlCalculationForestFerc1.correction_node B]
   \/ nx.succ_list g B = [XbrlCalculationForestFerc1.correction_node B; C]) ->
  Py.endswith (node_factoid C) "_correction" = false ->
  In B (XbrlCalculationForestFerc1.passthroughs_of g)
  /\ (forall f, XbrlCalculationForestFerc1.forest self = Ok f ->
                nx.has_edge f A C = true)
  /\ (XbrlCalculationForestFerc1.passthroughs_of g = [B] ->
      exists f, XbrlCalculationForestFerc1.forest self = Ok f
                /\ nx.has_edge f A C = true).
Proof.
  intros Hg HA Hsucc HC.
  destruct (children_of_passthrough B C _ Hsucc HC) as (Hlen & Hchild & Hcorr).
  assert (In B (nx.node_list g)) as Hnode.
  { apply (seeded_digraph_closed _ _ Hg A B). apply In_pred_list.
    rewrite HA. left; reflexivity. }
  assert (In B (XbrlCalculationForestFerc1.passthroughs_of g)) as Hpass.
  { apply is_passthrough; try assumption.
    unfold nx.in_degree. rewrite HA. reflexivity. }
  assert (forall f, XbrlCalculationForestFerc1.forest self = Ok f ->
                    nx.has_edge f A C = true) as Hedge.
  { intros f Hf. apply (forest_is_pruned self g f Hg) in Hf. destruct Hf as [Hf _].
    apply (prune_adds_spliced_edge g A B C HA Hlen Hchild
             (XbrlCalculationForestFerc1.passthroughs_of g) g f); try assumption.
    exists []. rewrite app_nil_r. reflexivity. }
  split; [exact Hpass|]. split; [exact Hedge|].
  intros Honly.
  assert (exists f, XbrlCalculationForestFerc1.forest self = Ok f) as (f & Hf).
  { assert (exists f,
               XbrlCalculationForestFerc1.prune
                 g (XbrlCalculationForestFerc1.passthroughs_of g) = Ok f
               /\ In B (nx.node_list f)) as (f & Hpruned & HB).
    { rewrite Honly.
      unfold XbrlCalculationForestFerc1.prune. simpl.
      unfold XbrlCalculationForestFerc1.splice, nx.predecessors, nx.successors,
        nx.list_of_iter, nx.has_node.
      assert (nx.node_in B (nx.node_list g) = true) as ->
          by (apply node_in_In; exact Hnode).
      cbn [bind]. rewrite HA. simpl List.length. cbn [Nat.eqb assert bind].
      rewrite Hlen. cbn [Nat.eqb assert bind].
      rewrite Hchild. simpl List.length. cbn [Nat.eqb assert bind].
      eexists. split; [reflexivity|].
      rewrite remove_nodes_from_nil, node_list_add_edge.
      apply In_node_list_add_node. left. apply In_node_list_add_node. left.
      exact Hnode. }
    exists f. apply (forest_is_pruned self g f Hg). split; [exact Hpruned|].
    intros E. unfold nx.node_list in HB. rewrite E in HB. exact HB. }
  exists f. split; [exact Hf | apply Hedge; exact Hf].
Qed.

Lemma forest_joins_parent_and_child_of_passthrough_witness :
  exists f, XbrlCalculationForestFerc1.forest passthrough_self = Ok f
            /\ nx.has_edge f node_a node_c = true.
Proof.
  refine (proj2 (proj2 (forest_joins_parent_and_child_of_passthrough
                          passthrough_self passthrough_seeded node_a node_b node_c
                          _ _ _ _)) _).
  - vm_compute. reflexivity.
  - vm_compute. reflexivity.
  - left. vm_compute. reflexivity.
  - vm_compute. reflexivity.
  - vm_compute. reflexivity.
Defined.

(** The passthrough itself stays: in the scenario as the code tests it, the
    forest still has [b], its edge to [c] and its correction, and [c] now
    has the two parents [b] and [a]. *)
Example passthrough_stays_in_the_forest :
  exists f,
    XbrlCalculationForestFerc1.forest passthrough_self = Ok f
    /\ nx.has_node f node_b = true
    /\ nx.has_node f (XbrlCalculationForestFerc1.correction_node node_b) = true
    /\ nx.pred_list f node_c = [node_b; node_a].
Proof.
  eexists. split; [vm_compute; reflexivity|]. repeat split.
Qed.

(** ** Pruning: in-degrees and cycles *)

Lemma passthrough_out_degree (g : nx.DiGraph) (b : NodeId) :
  In b (XbrlCalculationForestFerc1.passthroughs_of g) ->
  List.length (nx.succ_list g b) = 2.
Proof.
  unfold XbrlCalculationForestFerc1.passthroughs_of. intros H.
  apply filter_In in H. destruct H as [_ H].
  apply node_in_In, in_flat_map in H. destruct H as (node & Hnode & H).
  apply filter_In in Hnode. destruct Hnode as [_ Hout]. apply Nat.eqb_eq in Hout.
  apply in_flat_map in H. destruct H as (child & _ & H).
  destruct (XbrlCalculationForestFerc1.is_correction_of node child);
    [|contradiction].
  destruct H as [<- | []]. exact Hout.
Qed.

(** The edges of the pruned graph follow paths of the unpruned one. *)
Lemma prune_edges_follow_paths (g : nx.DiGraph) (pts : list NodeId) (f : nx.DiGraph) :
  XbrlCalculationForestFerc1.prune g pts = Ok f ->
  forall u v, nx.edge f u v -> nx.path g u v.
Proof.
  intros H.
  refine (foldM_invariant
            (fun f0 => forall u v, nx.edge f0 u v -> nx.path g u v)
            _ pts g f _ _ H).
  - intros f0 b f1 _ Hinv Hstep.
    destruct (splice_Ok _ _ _ Hstep) as (p & c & Hp & _ & Hc & ->).
    intros u v Huv. unfold nx.edge in Huv. apply In_edges_add_edge in Huv.
    destruct Huv as [Huv | Huv]; [apply Hinv; exact Huv|].
    inversion Huv; subst u v.
    apply (path_trans g p b c).
    + apply Hinv, In_pred_list. rewrite Hp. left; reflexivity.
    + apply Hinv, In_succ_list.
      assert (In c (filter XbrlCalculationForestFerc1.not_correction
                           (nx.succ_list f0 b))) as Hin
        by (rewrite Hc; left; reflexivity).
      apply filter_In in Hin. tauto.
  - intros u v Huv. apply nx.path_edge. exact Huv.
Qed.

(** The parents of a node that is not the substantive child of a
    passthrough are left as they are. *)
Lemma prune_keeps_parents (g : nx.DiGraph) (n : NodeId) (f : nx.DiGraph) :
  (forall b, In b (XbrlCalculationForestFerc1.passthroughs_of g) ->
             In n (nx.succ_list g b) ->
             XbrlCalculationForestFerc1.not_correction n = false) ->
  XbrlCalculationForestFerc1.prune g (XbrlCalculationForestFerc1.passthroughs_of g)
  = Ok f ->
  nx.pred_list f n = nx.pred_list g n.
Proof.
  intros Hn H.
  refine (proj2 (foldM_invariant
                   (fun f0 => (exists extra, nx.edges f0 = nx.edges g ++ extra)
                              /\ nx.pred_list f0 n = nx.pred_list g n)
                   _ (XbrlCalculationForestFerc1.passthroughs_of g) g f _ _ H)).
  - intros f0 b f1 Hb [Hext Hpred] Hstep.
    destruct (splice_same_children g f0 f1 b Hext (passthrough_out_degree g b Hb) Hstep)
      as (p & c & _ & _ & Hc & ->).
    split.
    + destruct Hext as (extra & E). rewrite edges_add_edge, E, <- app_assoc.
      eexists; reflexivity.
    + rewrite pred_list_add_edge, <- Hpred.
      destruct (nx.has_edge f0 p c); [apply app_nil_r|].
      destruct (NodeId_eqb c n) eqn:Ecn; [|apply app_nil_r].
      apply NodeId_eqb_eq in Ecn. subst c. exfalso.
      assert (In n (filter XbrlCalculationForestFerc1.not_correction
                           (nx.succ_list g b))) as Hin
        by (rewrite Hc; left; reflexivity).
      apply filter_In in Hin. destruct Hin as [Hin Hnc].
      rewrite (Hn b Hb Hin) in Hnc. discriminate.
  - split; [exists []; rewrite app_nil_r; reflexivity | reflexivity].
Qed.

(** C2, as stated, fails: two calculations that share a component make a
    seeded digraph in which the component has two parents; no passthrough is
    found, and the forest returned has a node of in-degree 2. *)
Lemma stepchild_survives_pruning :
  exists f,
    XbrlCalculationForestFerc1.construct stepchild_meta [] [] = Ok stepchild_self
    /\ XbrlCalculationForestFerc1.forest stepchild_self = Ok f
    /\ nx.in_degree f (mkNodeId "income_statement_ferc1" "operating_expenses") = 2
    /\ ~ (forall n, In n (nx.node_list f) -> nx.in_degree f n <= 1).
Proof.
  eexists.
  split; [vm_compute; reflexivity|].
  split; [vm_compute; reflexivity|].
  split; [vm_compute; reflexivity|].
  intros H.
  specialize (H (mkNodeId "income_statement_ferc1" "operating_expenses")).
  vm_compute in H.
  assert (2 <= 1) as Habs by (apply H; right; left; reflexivity).
  lia.
Qed.

(** C2, amended: the pruning does not make the graph a forest, it only
    reports when it is none.  For every graph built from exploded metadata
    and pruned without an exception: a node with at most one parent in the
    seeded digraph that is not the child without ["_correction"] suffix of a
    passthrough has at most one parent in the pruned graph; and the pruned
    graph is acyclic if the seeded digraph is. *)
Theorem pruned_in_degree_and_acyclicity
    (self : XbrlCalculationForestFerc1.t) (g f : nx.DiGraph) :
  XbrlCalculationForestFerc1.seeded_digraph self = Ok g ->
  XbrlCalculationForestFerc1.forest self = Ok f ->
  (forall n,
      nx.in_degree g n <= 1 ->
      (forall b, In b (XbrlCalculationForestFerc1.passthroughs_of g) ->
                 In n (nx.succ_list g b) ->
                 XbrlCalculationForestFerc1.not_correction n = false) ->
      nx.in_degree f n <= 1)
  /\ (nx.is_directed_acyclic_graph g -> nx.is_directed_acyclic_graph f).
Proof.
  intros Hg Hf.
  apply (forest_is_pruned self g f Hg) in Hf. destruct Hf as [Hf _]. split.
  - intros n Hdeg Hn. unfold nx.in_degree in *.
    rewrite (prune_keeps_parents g n f Hn Hf). exact Hdeg.
  - intros Hacyclic n Hcycle. apply (Hacyclic n).
    apply (path_included g f (prune_edges_follow_paths g _ f Hf)). exact Hcycle.
Qed.

Lemma pruned_in_degree_and_acyclicity_witness :
  nx.in_degree tree_forest (mkNodeId "plant_in_service_ferc1" "additions") <= 1.
Proof.
  refine (proj1 (pruned_in_degree_and_acyclicity tree_self tree_forest tree_forest _ _)
                (mkNodeId "plant_in_service_ferc1" "additions") _ _).
  - vm_compute. reflexivity.
  - vm_compute. reflexivity.
  - vm_compute. apply le_n.
  - intros b Hb. vm_compute in Hb. destruct Hb.
Defined.

(** ** The leafy metadata *)

Lemma inherit_weights (g : nx.DiGraph) (roots : list NodeId) (anc : list NodeId) :
  forall tags0 w0 acc,
    Py.foldM (XbrlCalculationForestFerc1.inherit g roots) anc (tags0, w0) = Ok acc ->
    exists ws,
      Py.mapM (XbrlCalculationForestFerc1.node_weight g roots) anc = Ok ws
      /\ snd acc = fold_left PrimFloat.mul ws w0.
Proof.
  induction anc as [|n anc IH]; intros tags0 w0 acc H; simpl in H.
  - inversion H; subst. exists []. split; reflexivity.
  - apply bind_Ok in H. destruct H as ([t1 w1] & Hstep & Hrest).
    unfold XbrlCalculationForestFerc1.inherit in Hstep.
    apply bind_Ok in Hstep. destruct Hstep as (a & Ha & Hstep).
    apply bind_Ok in Hstep. destruct Hstep as (nt & Hnt & Hstep).
    apply bind_Ok in Hstep. destruct Hstep as (nw & Hnw & Hstep).
    inversion Hstep; subst t1 w1.
    destruct (IH _ _ _ Hrest) as (ws & Hws & Hacc).
    exists (nw :: ws). split.
    + simpl. rewrite Hnw. cbn [bind]. rewrite Hws. reflexivity.
    + exact Hacc.
Qed.

Lemma leaf_to_root_map_sound (g : nx.DiGraph) (leaves roots : list NodeId)
    (m : list (NodeId * NodeId)) :
  XbrlCalculationForestFerc1.leaf_to_root_map g leaves roots = Ok m ->
  forall leaf root, In (leaf, root) m ->
    In leaf leaves /\ In root roots
    /\ exists d, nx.descendants g root = Ok d /\ In leaf d.
Proof.
  intros H.
  set (P := fun m : list (NodeId * NodeId) =>
              forall leaf root, In (leaf, root) m ->
                In leaf leaves /\ In root roots
                /\ exists d, nx.descendants g root = Ok d /\ In leaf d).
  change (P m).
  unfold XbrlCalculationForestFerc1.leaf_to_root_map in H.
  refine (foldM_invariant P _ leaves [] m _ _ H).
  - intros m0 leaf m1 Hleaf Hm0 Hinner.
    refine (foldM_invariant P _ roots m0 m1 _ Hm0 Hinner).
    intros m2 root m3 Hroot Hm2 Hstep.
    apply bind_Ok in Hstep. destruct Hstep as (d & Hd & Hstep).
    inversion Hstep; subst m3. clear Hstep.
    destruct (nx.node_in leaf d) eqn:Hin; [|assumption].
    intros l r Hlr. apply dict_set_In in Hlr. destruct Hlr as [[-> ->] | Hlr].
    + split; [assumption|]. split; [assumption|].
      exists d. split; [assumption | apply node_in_In; assumption].
    + apply Hm2; assumption.
  - intros leaf root [].
Qed.

Lemma forest_closed (self : XbrlCalculationForestFerc1.t) (f : nx.DiGraph) :
  XbrlCalculationForestFerc1.forest self = Ok f -> nx.closed f.
Proof.
  intros H.
  destruct (XbrlCalculationForestFerc1.seeded_digraph self) as [g|e] eqn:Hg.
  2:{ unfold XbrlCalculationForestFerc1.forest in H. rewrite Hg in H. discriminate. }
  apply (forest_is_pruned self g f Hg) in H. destruct H as [H _].
  unfold XbrlCalculationForestFerc1.prune in H.
  refine (foldM_invariant nx.closed _ _ g f _ _ H).
  - intros f0 b f1 _ Hf0 Hstep.
    destruct (splice_Ok _ _ _ Hstep) as (p & c & _ & _ & _ & ->).
    apply closed_add_edge. exact Hf0.
  - eapply seeded_digraph_closed. exact Hg.
Qed.

(** C8, as stated, fails: for a root with a single leaf of weight [-1.0],
    the only ancestor of the leaf is the root, which contributes [1.0], so
    the product over the ancestors is [1.0]; the leafy metadata gives the
    leaf the weight [-1.0], its own weight being a factor too. *)
Lemma leaf_weight_is_not_the_product_over_ancestors :
  exists self f row claimed,
    XbrlCalculationForestFerc1.construct root_leaf_meta [] [] = Ok self
    /\ XbrlCalculationForestFerc1.forest self = Ok f
    /\ XbrlCalculationForestFerc1.leafy_meta self = Ok [row]
    /\ leaf_node row = mkNodeId "income_statement_ferc1" "income_taxes"
    /\ XbrlCalculationForestFerc1.product_over_ancestors f (leaf_node row) = Ok claimed
    /\ claimed = 1%float
    /\ leaf_weight row = (-1)%float
    /\ PrimFloat.eqb (leaf_weight row) claimed = false.
Proof.
  do 4 eexists.
  split; [vm_compute; reflexivity|].
  split; [vm_compute; reflexivity|].
  split; [vm_compute; reflexivity|].
  split; [reflexivity|].
  split; [vm_compute; reflexivity|].
  repeat split.
Qed.

(** C8, amended: every row of the leafy metadata is the row of a leaf of the
    forest; its weight is the leaf's own weight ([1.0] if it has none)
    multiplied, in turn, by the weight of each of its ancestors, the nodes
    from which a directed path leads to the leaf, an ancestor without weight
    being a root and contributing [1.0]; and its root is a root of the
    forest from which a directed path leads to the leaf. *)
Theorem leafy_meta_weight_is_own_weight_times_ancestors
    (self : XbrlCalculationForestFerc1.t) (f : nx.DiGraph)
    (meta : list LeafRow) (row : LeafRow) :
  XbrlCalculationForestFerc1.forest self = Ok f ->
  XbrlCalculationForestFerc1.leafy_meta self = Ok meta ->
  In row meta ->
  exists a anc ws,
    nx.node_attrs f (leaf_node row) = Some a
    /\ nx.ancestors f (leaf_node row) = Ok anc
    /\ (forall n, In n anc <-> nx.path f n (leaf_node row) /\ n <> leaf_node row)
    /\ Py.mapM (XbrlCalculationForestFerc1.node_weight
                  f (XbrlCalculationForestFerc1.roots f)) anc = Ok ws
    /\ leaf_weight row
       = fold_left PrimFloat.mul ws (XbrlCalculationForestFerc1.own_weight a)
    /\ In (leaf_node row) (XbrlCalculationForestFerc1.leaves f)
    /\ In (root_node row) (XbrlCalculationForestFerc1.roots f)
    /\ nx.path f (root_node row) (leaf_node row).
Proof.
  intros Hf Hmeta Hrow.
  pose proof (forest_closed self f Hf) as Hclosed.
  unfold XbrlCalculationForestFerc1.leafy_meta,
    XbrlCalculationForestFerc1.forest_leaves,
    XbrlCalculationForestFerc1.forest_roots in Hmeta.
  rewrite Hf in Hmeta. cbn [bind] in Hmeta.
  apply bind_Ok in Hmeta. destruct Hmeta as (m & Hm & Hmeta).
  apply bind_Ok in Hmeta. destruct Hmeta as (lrs & Hlrs & Hmeta).
  assert (In row
            (flat_map
               (fun lr =>
                  map (fun '(leaf, original, w, tg) => mkLeaf leaf (snd lr) original w tg)
                      (filter (fun '(leaf, _, _, _) => NodeId_eqb leaf (fst lr)) lrs))
               m)) as Hin.
  { destruct lrs as [|x xs]; [discriminate|].
    destruct m as [|y ys]; [discriminate|].
    inversion Hmeta; subst meta. exact Hrow. }
  clear Hmeta Hrow.
  apply in_flat_map in Hin. destruct Hin as ([leaf root] & Hlr & Hin).
  apply in_map_iff in Hin. destruct Hin as ([[[leaf' original] w] tg] & Erow & Hin).
  apply filter_In in Hin. destruct Hin as [Hin Eleaf].
  apply NodeId_eqb_eq in Eleaf. simpl in Eleaf. subst leaf'. subst row. simpl.
  destruct (leaf_to_root_map_sound _ _ _ _ Hm leaf root Hlr) as (Hleaf & Hroot & Hdesc).
  destruct (mapM_In _ _ _ _ Hlrs Hin) as (x & Hx & Hrowx).
  unfold XbrlCalculationForestFerc1.leaf_row in Hrowx.
  apply bind_Ok in Hrowx. destruct Hrowx as (a & Ha & Hrowx).
  apply bind_Ok in Hrowx. destruct Hrowx as (anc & Hanc & Hrowx).
  apply bind_Ok in Hrowx. destruct Hrowx as (acc & Hacc & Hrowx).
  apply bind_Ok in Hrowx. destruct Hrowx as (orig & Horig & Hrowx).
  inversion Hrowx; subst x original w tg. clear Hrowx.
  destruct (inherit_weights _ _ _ _ _ _ Hacc) as (ws & Hws & Hw).
  exists a, anc, ws.
  split.
  { unfold XbrlCalculationForestFerc1.get_attrs in Ha.
    destruct (nx.node_attrs f leaf); [inversion Ha; reflexivity | discriminate]. }
  split; [assumption|].
  split; [apply (ancestors_spec f leaf anc Hclosed Hanc)|].
  repeat (split; [assumption|]).
  destruct Hdesc as (d & Hd & Hleafd).
  apply (descendants_spec f root d Hclosed Hd). exact Hleafd.
Qed.

Lemma leafy_meta_weight_is_own_weight_times_ancestors_witness :
  exists a anc ws,
    nx.node_attrs tree_forest (mkNodeId "plant_in_service_ferc1" "retirements") = Some a
    /\ nx.ancestors tree_forest (mkNodeId "plant_in_service_ferc1" "retirements") = Ok anc
    /\ Py.mapM (XbrlCalculationForestFerc1.node_weight
                  tree_forest (XbrlCalculationForestFerc1.roots tree_forest)) anc = Ok ws
    /\ 1%float = fold_left PrimFloat.mul ws (XbrlCalculationForestFerc1.own_weight a).
Proof.
  assert (XbrlCalculationForestFerc1.forest tree_self = Ok tree_forest) as Hf
    by (vm_compute; reflexivity).
  assert (XbrlCalculationForestFerc1.leafy_meta tree_self = Ok tree_leafy_meta) as Hm
    by (vm_compute; reflexivity).
  destruct (leafy_meta_weight_is_own_weight_times_ancestors
              tree_self tree_forest tree_leafy_meta
              (mkLeaf (mkNodeId "plant_in_service_ferc1" "retirements")
                      (mkNodeId "balance_sheet_assets_ferc1" "assets_and_other_debits")
                      "retirements" 1%float [])
              Hf Hm (or_intror (or_introl eq_refl)))
    as (a & anc & ws & Ha & Hanc & _ & Hws & Hw & _).
  exists a, anc, ws. repeat (split; [assumption|]). exact Hw.
Defined.

(** The tree of three levels of the specification: the leaf of weight [1.0]
    gets [1.0 * -1.0], the leaf of weight [-1.0] gets [-1.0 * -1.0], the
    products of the weights along their paths, and both have the one root
    of the tree for root. *)
Example leafy_meta_of_three_level_tree :
  XbrlCalculationForestFerc1.construct tree_meta [] [] = Ok tree_self
  /\ XbrlCalculationForestFerc1.leafy_meta tree_self = Ok tree_leafy_meta.
Proof. split; vm_compute; reflexivity. Qed.

(** The same with a passthrough for middle node: the two leaves get the
    weights [1.0] and [-1.0] and the one root. *)
Example leafy_meta_of_passthrough_tree :
  (self <- XbrlCalculationForestFerc1.construct passthrough_tree_meta [] [] ;;
   XbrlCalculationForestFerc1.leafy_meta self)
  = Ok [ mkLeaf node_c node_a "c" 1%float [];
         mkLeaf (XbrlCalculationForestFerc1.correction_node node_b) node_a
                "b_correction" (-1)%float [] ].
Proof. vm_compute. reflexivity. Qed.

(** ** The leafy data *)

Lemma assign_balances_values (m : LeafRow) (d : BalanceRow) :
  starting_balance (XbrlCalculationForestFerc1.assign_balances m (Some d))
  = PrimFloat.mul (b_starting_balance d) (leaf_weight m)
  /\ ending_balance (XbrlCalculationForestFerc1.assign_balances m (Some d))
     = PrimFloat.mul (PrimFloat.mul (b_starting_balance d) (leaf_weight m))
                     (leaf_weight m).
Proof. split; reflexivity. Qed.

(** C3: the code at a failing input.  In the tree of three levels the leaf
    [additions] has the propagated weight [-1.0].  With a starting balance of
    [10.0] and an ending balance of [20.0] reported for it, the leafy data
    has [-10.0] for starting balance, as claimed, but [10.0] for ending
    balance, where the reported value times the weight is [-20.0]: the
    ending balance is computed from the starting balance, which has been
    multiplied already. *)
Theorem leafy_data_ending_balance_at_sample :
  exists self x,
    XbrlCalculationForestFerc1.construct tree_meta [] [] = Ok self
    /\ XbrlCalculationForestFerc1.leafy_data self
         [mkBalance "plant_in_service_ferc1" "additions" [("report_year", "2021")]
                    10%float 20%float]
       = Ok [x; mkLeafyData
                  (mkLeaf (mkNodeId "plant_in_service_ferc1" "retirements")
                          (mkNodeId "balance_sheet_assets_ferc1" "assets_and_other_debits")
                          "retirements" 1%float [])
                  None PrimFloat.nan PrimFloat.nan]
    /\ leaf_node (ld_meta x) = mkNodeId "plant_in_service_ferc1" "additions"
    /\ leaf_weight (ld_meta x) = (-1)%float
    /\ starting_balance x = (-10)%float
    /\ ending_balance x = 10%float
    /\ PrimFloat.mul 20%float (leaf_weight (ld_meta x)) = (-20)%float.
Proof.
  eexists; eexists.
  split; [vm_compute; reflexivity|].
  split; [vm_compute; reflexivity|].
  repeat split.
Qed.

(** ** The graph builder: what it returns *)

Lemma foldM_each {A S : Type} (Q : A -> S -> Prop) (body : S -> A -> result S)
    (l : list A) :
  (forall s x s', body s x = Ok s' -> Q x s') ->
  (forall s y s' x, Q x s -> body s y = Ok s' -> Q x s') ->
  forall s s', Py.foldM body l s = Ok s' -> forall x, In x l -> Q x s'.
Proof.
  intros Hmake Hkeep. induction l as [|a l IH]; intros s s' H x Hx; [contradiction|].
  simpl in H. apply bind_Ok in H. destruct H as (s1 & H1 & H2).
  destruct Hx as [<- | Hx].
  - refine (foldM_invariant (Q a) body l s1 s' _ _ H2).
    + intros t y t' _ Ht Hy. eapply Hkeep; eassumption.
    + eapply Hmake; eassumption.
  - eapply IH; eassumption.
Qed.

Lemma foldM_Raise {A S : Type} (body : S -> A -> result S) (l : list A) :
  forall s e, Py.foldM body l s = Raise e ->
              exists s0 x, In x l /\ body s0 x = Raise e.
Proof.
  induction l as [|a l IH]; intros s e H; simpl in H; [discriminate|].
  destruct (body s a) as [s1|e1] eqn:E; simpl in H.
  - destruct (IH s1 e H) as (s0 & x & Hx & Hb).
    exists s0, x. split; [right; assumption | assumption].
  - inversion H; subst e1. exists s, a. split; [left; reflexivity | assumption].
Qed.

Lemma attrs_get_set_other (attrs : list (NodeId * nx.NodeAttrs)) (k n : NodeId)
    (a : nx.NodeAttrs) :
  NodeId_eqb k n = false ->
  nx.attrs_get (nx.attrs_set attrs k a) n = nx.attrs_get attrs n.
Proof.
  intros Hkn. unfold nx.attrs_get, nx.attrs_set.
  induction attrs as [|[k0 b] attrs IH]; simpl.
  - rewrite Hkn. reflexivity.
  - destruct (NodeId_eqb k0 k) eqn:E; simpl.
    + apply NodeId_eqb_eq in E. subst k0. rewrite Hkn. reflexivity.
    + destruct (NodeId_eqb k0 n); [reflexivity | exact IH].
Qed.

Lemma attrs_of_set (attrs : list (NodeId * nx.NodeAttrs)) (k n : NodeId)
    (a : nx.NodeAttrs) :
  XbrlCalculationForestFerc1.attrs_of (nx.attrs_set attrs k a) n
  = if NodeId_eqb k n then a else XbrlCalculationForestFerc1.attrs_of attrs n.
Proof.
  unfold XbrlCalculationForestFerc1.attrs_of.
  destruct (NodeId_eqb k n) eqn:E.
  - apply NodeId_eqb_eq in E. subst n. rewrite attrs_get_set_same. reflexivity.
  - rewrite attrs_get_set_other by assumption. reflexivity.
Qed.

Lemma length_one {A : Type} (l : list A) :
  Nat.eqb (List.length l) 1 = true -> exists x, l = [x].
Proof.
  destruct l as [|x [|y l]]; simpl; intros H; try discriminate.
  exists x. reflexivity.
Qed.

(** What one step of the loop over the components does when it does not
    raise. *)
Lemma visit_calc_Ok (tags : list (NodeId * nx.Tags)) (from_node : NodeId)
    (forest : nx.DiGraph) (attrs : list (NodeId * nx.NodeAttrs))
    (calc : CalcComponent) (st' : XbrlCalculationForestFerc1.builder_state) :
  XbrlCalculationForestFerc1.visit_calc tags from_node (forest, attrs) calc = Ok st' ->
  exists v a',
    XbrlCalculationForestFerc1.to_node calc = Some v
    /\ st' = (nx.add_edge forest from_node v, nx.attrs_set attrs v a')
    /\ nx.attr_tags a' = Some (XbrlCalculationForestFerc1.tags_loc tags v)
    /\ nx.attr_xbrl_factoid_original a'
       = nx.attr_xbrl_factoid_original (XbrlCalculationForestFerc1.attrs_of attrs v)
    /\ exists w, nx.attr_weight a' = Some w
                 /\ (w = weight calc
                     \/ nx.attr_weight (XbrlCalculationForestFerc1.attrs_of attrs v) = Some w).
Proof.
  unfold XbrlCalculationForestFerc1.visit_calc, XbrlCalculationForestFerc1.to_node.
  intros H. apply bind_Ok in H. destruct H as (u & Hlen & H).
  apply assert_Ok, length_one in Hlen. destruct Hlen as (tbl & Etbl).
  rewrite Etbl in *.
  apply bind_Ok in H. destruct H as (a & Ha & H).
  inversion H; subst st'. clear H.
  exists (mkNodeId tbl (name calc)). eexists. split; [reflexivity|].
  split; [reflexivity|]. split; [reflexivity|].
  set (a0 := XbrlCalculationForestFerc1.attrs_of attrs (mkNodeId tbl (name calc))) in *.
  assert (nx.attr_xbrl_factoid_original a = nx.attr_xbrl_factoid_original a0
          /\ exists w, nx.attr_weight a = Some w
                       /\ (w = weight calc \/ nx.attr_weight a0 = Some w)) as Hgoal.
  { destruct (nx.attr_weight a0) as [w0|] eqn:Ew.
    - destruct (Py.float_truthy w0).
      + destruct (negb (PrimFloat.eqb w0 (weight calc))).
        * apply bind_Ok in Ha. destruct Ha as (u' & _ & Ha).
          unfold Py.expr_stmt in Ha. inversion Ha; subst a.
          split; [reflexivity|]. exists w0. split; [assumption | right; reflexivity].
        * inversion Ha; subst a.
          split; [reflexivity|]. exists w0. split; [assumption | right; reflexivity].
      + inversion Ha; subst a. split; [reflexivity|].
        exists (weight calc). split; [reflexivity | left; reflexivity].
    - inversion Ha; subst a. split; [reflexivity|].
      exists (weight calc). split; [reflexivity | left; reflexivity]. }
  destruct Hgoal as [Ho Hw]. simpl. split; assumption.
Qed.

(** What the loop does on a row, before it turns to the components, when
    it does not raise. *)
Lemma visit_row_Ok (tags : list (NodeId * nx.Tags))
    (forest : nx.DiGraph) (attrs : list (NodeId * nx.NodeAttrs))
    (row : MetaRow) (st' : XbrlCalculationForestFerc1.builder_state) :
  XbrlCalculationForestFerc1.visit_row tags (forest, attrs) row = Ok st' ->
  exists a0,
    Py.foldM (XbrlCalculationForestFerc1.visit_calc tags (node_of_row row))
             (calculations row)
             (forest, nx.attrs_set attrs (node_of_row row) a0) = Ok st'
    /\ nx.attr_xbrl_factoid_original a0 = Some (xbrl_factoid_original row)
    /\ nx.attr_tags a0
       = Some (XbrlCalculationForestFerc1.tags_loc tags (node_of_row row))
    /\ nx.attr_weight a0
       = nx.attr_weight (XbrlCalculationForestFerc1.attrs_of attrs (node_of_row row))
    /\ (forall s,
          nx.attr_xbrl_factoid_original
            (XbrlCalculationForestFerc1.attrs_of attrs (node_of_row row)) = Some s ->
          s <> "" -> s = xbrl_factoid_original row).
Proof.
  unfold XbrlCalculationForestFerc1.visit_row. intros H.
  apply bind_Ok in H. destruct H as (a & Ha & H).
  eexists. split; [exact H|]. simpl.
  set (a0 := XbrlCalculationForestFerc1.attrs_of attrs (node_of_row row)) in *.
  destruct (nx.attr_xbrl_factoid_original a0) as [s0|] eqn:Eo.
  - destruct (String.eqb s0 "") eqn:Es.
    + inversion Ha; subst a. simpl. repeat split.
      intros s Hs Hne. inversion Hs; subst s. apply String.eqb_eq in Es. contradiction.
    + apply bind_Ok in Ha. destruct Ha as (u & Hu & Ha).
      apply assert_Ok, String.eqb_eq in Hu. inversion Ha; subst a. subst s0.
      repeat split; try assumption.
      intros s Hs _. inversion Hs; reflexivity.
  - inversion Ha; subst a. simpl. repeat split. intros s Hs. discriminate.
Qed.

Lemma nodes_add_edge (g : nx.DiGraph) (u v : NodeId) :
  nx.nodes (nx.add_edge g u v) = nx.nodes (nx.add_node (nx.add_node g u) v).
Proof.
  unfold nx.add_edge. cbv zeta.
  destruct (nx.has_edge (nx.add_node (nx.add_node g u) v) u v); reflexivity.
Qed.

Lemma In_nodes_add_node (g : nx.DiGraph) (n : NodeId) (p : NodeId * nx.NodeAttrs) :
  In p (nx.nodes (nx.add_node g n)) -> In p (nx.nodes g) \/ p = (n, nx.no_attrs).
Proof.
  unfold nx.add_node. destruct (nx.has_node g n); [tauto|].
  simpl. rewrite in_app_iff. simpl. intros [H | [H | []]]; auto.
Qed.

Lemma NoDup_add_node (g : nx.DiGraph) (n : NodeId) :
  NoDup (nx.node_list g) -> NoDup (nx.node_list (nx.add_node g n)).
Proof.
  intros H. unfold nx.add_node. destruct (nx.has_node g n) eqn:E; [assumption|].
  unfold nx.node_list in *. simpl. rewrite map_app. simpl.
  apply NoDup_app; [assumption | constructor; [intros [] | constructor] |].
  intros x Hx [Hxn | []]. subst x.
  assert (nx.has_node g n = true) as Hin by (apply node_in_In; exact Hx).
  congruence.
Qed.

Lemma NoDup_add_edge (g : nx.DiGraph) (u v : NodeId) :
  NoDup (nx.node_list g) -> NoDup (nx.node_list (nx.add_edge g u v)).
Proof.
  intros H. rewrite node_list_add_edge. apply NoDup_add_node, NoDup_add_node, H.
Qed.

Lemma In_node_list_add_edge (g : nx.DiGraph) (u v n : NodeId) :
  In n (nx.node_list (nx.add_edge g u v)) <-> In n (nx.node_list g) \/ n = u \/ n = v.
Proof.
  rewrite node_list_add_edge, !In_node_list_add_node. tauto.
Qed.

Lemma visit_calc_invariant (meta : list MetaRow) (tags : list (NodeId * nx.Tags))
    (row : MetaRow) (calc : CalcComponent)
    (st st' : XbrlCalculationForestFerc1.builder_state) :
  In row meta -> In calc (calculations row) ->
  XbrlCalculationForestFerc1.builder_invariant meta tags st ->
  nx.attr_tags (XbrlCalculationForestFerc1.attrs_of (snd st) (node_of_row row))
  = Some (XbrlCalculationForestFerc1.tags_loc tags (node_of_row row)) ->
  XbrlCalculationForestFerc1.visit_calc tags (node_of_row row) st calc = Ok st' ->
  XbrlCalculationForestFerc1.builder_invariant meta tags st'
  /\ nx.attr_tags (XbrlCalculationForestFerc1.attrs_of (snd st') (node_of_row row))
     = Some (XbrlCalculationForestFerc1.tags_loc tags (node_of_row row)).
Proof.
  intros Hrow Hcalc Hinv Hfrom H. destruct st as [forest attrs].
  destruct (visit_calc_Ok _ _ _ _ _ _ H) as (v & a' & Hv & -> & Htags & Horig & w & Hw & Hwfrom).
  destruct Hinv as [Hcl Hnd Hbare Hends Hedges Htg Hwt Hwf Hof]. simpl in *.
  assert (In (node_of_row row, v) (XbrlCalculationForestFerc1.calculation_edges meta))
    as Hnew.
  { unfold XbrlCalculationForestFerc1.calculation_edges.
    apply in_flat_map. exists row. split; [assumption|].
    apply in_flat_map. exists calc. split; [assumption|].
    rewrite Hv. left; reflexivity. }
  split; [constructor; simpl|].
  - apply closed_add_edge. assumption.
  - apply NoDup_add_edge. assumption.
  - intros p Hp. rewrite nodes_add_edge in Hp.
    apply In_nodes_add_node in Hp. destruct Hp as [Hp | ->]; [|reflexivity].
    apply In_nodes_add_node in Hp. destruct Hp as [Hp | ->]; [|reflexivity].
    apply Hbare. assumption.
  - intros n Hn. apply In_node_list_add_edge in Hn.
    destruct Hn as [Hn | [-> | ->]].
    + destruct (Hends n Hn) as (m & [Hm | Hm]); exists m; [left | right];
        apply In_edges_add_edge; left; assumption.
    + exists v. left. apply In_edges_add_edge. right; reflexivity.
    + exists (node_of_row row). right. apply In_edges_add_edge. right; reflexivity.
  - intros x y Hxy. apply In_edges_add_edge in Hxy.
    destruct Hxy as [Hxy | Hxy]; [apply Hedges; assumption|].
    inversion Hxy; subst. assumption.
  - intros n Hn. rewrite attrs_of_set.
    destruct (NodeId_eqb v n) eqn:E.
    + apply NodeId_eqb_eq in E. subst n. assumption.
    + apply In_node_list_add_edge in Hn.
      destruct Hn as [Hn | [-> | ->]]; [apply Htg; assumption | assumption |].
      rewrite NodeId_eqb_refl in E. discriminate.
  - intros x y Hxy. rewrite attrs_of_set.
    destruct (NodeId_eqb v y) eqn:E; [rewrite Hw; discriminate|].
    apply In_edges_add_edge in Hxy.
    destruct Hxy as [Hxy | Hxy]; [apply (Hwt x y); assumption|].
    inversion Hxy; subst. rewrite NodeId_eqb_refl in E. discriminate.
  - intros n w0. rewrite attrs_of_set.
    destruct (NodeId_eqb v n) eqn:E; [|apply Hwf].
    apply NodeId_eqb_eq in E. subst n. intros Hw0.
    rewrite Hw in Hw0. inversion Hw0; subst w0.
    destruct Hwfrom as [-> | Hold]; [|apply Hwf; assumption].
    exists row, calc. repeat split; assumption.
  - intros n s. rewrite attrs_of_set.
    destruct (NodeId_eqb v n) eqn:E; [|apply Hof].
    apply NodeId_eqb_eq in E. subst n. rewrite Horig. apply Hof.
  - rewrite attrs_of_set.
    destruct (NodeId_eqb v (node_of_row row)) eqn:E; [|assumption].
    apply NodeId_eqb_eq in E. rewrite <- E. assumption.
Qed.

Lemma visit_row_invariant (meta : list MetaRow) (tags : list (NodeId * nx.Tags))
    (row : MetaRow) (st st' : XbrlCalculationForestFerc1.builder_state) :
  In row meta ->
  XbrlCalculationForestFerc1.builder_invariant meta tags st ->
  XbrlCalculationForestFerc1.visit_row tags st row = Ok st' ->
  XbrlCalculationForestFerc1.builder_invariant meta tags st'.
Proof.
  intros Hrow Hinv H. destruct st as [forest attrs].
  destruct (visit_row_Ok _ _ _ _ _ H) as (a0 & Hfold & Horig & Htags & Hweight & _).
  destruct Hinv as [Hcl Hnd Hbare Hends Hedges Htg Hwt Hwf Hof]. simpl in *.
  refine (proj1 (foldM_invariant
                   (fun s => XbrlCalculationForestFerc1.builder_invariant meta tags s
                             /\ nx.attr_tags (XbrlCalculationForestFerc1.attrs_of
                                                (snd s) (node_of_row row))
                                = Some (XbrlCalculationForestFerc1.tags_loc
                                          tags (node_of_row row)))
                   _ (calculations row) _ st' _ _ Hfold)).
  - intros s c s' Hc [Hs Hfrom] Hstep.
    eapply visit_calc_invariant; eassumption.
  - split; [constructor; simpl; try assumption|].
    + intros n Hn. rewrite attrs_of_set.
      destruct (NodeId_eqb (node_of_row row) n) eqn:E; [|apply Htg; assumption].
      apply NodeId_eqb_eq in E. subst n. assumption.
    + intros x y Hxy. rewrite attrs_of_set.
      destruct (NodeId_eqb (node_of_row row) y) eqn:E; [|apply (Hwt x y); assumption].
      apply NodeId_eqb_eq in E. subst y. rewrite Hweight. apply (Hwt x); assumption.
    + intros n w. rewrite attrs_of_set.
      destruct (NodeId_eqb (node_of_row row) n) eqn:E; [|apply Hwf].
      apply NodeId_eqb_eq in E. subst n. rewrite Hweight. apply Hwf.
    + intros n s. rewrite attrs_of_set.
      destruct (NodeId_eqb (node_of_row row) n) eqn:E; [|apply Hof].
      apply NodeId_eqb_eq in E. subst n. rewrite Horig.
      intros Hs. inversion Hs; subst s. exists row. repeat split. assumption.
    + simpl. rewrite attrs_of_set, NodeId_eqb_refl. assumption.
Qed.

Lemma builder_loop_invariant (meta : list MetaRow) (tags : list (NodeId * nx.Tags))
    (st : XbrlCalculationForestFerc1.builder_state) :
  Py.foldM (XbrlCalculationForestFerc1.visit_row tags) meta (nx.empty, []) = Ok st ->
  XbrlCalculationForestFerc1.builder_invariant meta tags st.
Proof.
  intros H.
  refine (foldM_invariant (XbrlCalculationForestFerc1.builder_invariant meta tags)
            _ meta (nx.empty, []) st _ _ H).
  - intros s row s' Hrow Hs Hstep. eapply visit_row_invariant; eassumption.
  - constructor; simpl; try (intros; contradiction); try discriminate.
    + intros u v [].
    + constructor.
Qed.

Lemma visit_calc_keeps_edges (tags : list (NodeId * nx.Tags)) (from_node : NodeId)
    (st st' : XbrlCalculationForestFerc1.builder_state) (calc : CalcComponent)
    (e : NodeId * NodeId) :
  In e (nx.edges (fst st)) ->
  XbrlCalculationForestFerc1.visit_calc tags from_node st calc = Ok st' ->
  In e (nx.edges (fst st')).
Proof.
  intros He H. destruct st as [forest attrs]. destruct e as [x y].
  destruct (visit_calc_Ok _ _ _ _ _ _ H) as (v & a' & _ & -> & _).
  simpl. apply In_edges_add_edge. left. exact He.
Qed.

Lemma visit_row_keeps_edges (tags : list (NodeId * nx.Tags))
    (st st' : XbrlCalculationForestFerc1.builder_state) (row : MetaRow)
    (e : NodeId * NodeId) :
  In e (nx.edges (fst st)) ->
  XbrlCalculationForestFerc1.visit_row tags st row = Ok st' ->
  In e (nx.edges (fst st')).
Proof.
  intros He H. destruct st as [forest attrs].
  destruct (visit_row_Ok _ _ _ _ _ H) as (a0 & Hfold & _).
  refine (foldM_invariant (fun s => In e (nx.edges (fst s))) _ _ _ _ _ _ Hfold).
  - intros s c s' _ Hs Hstep. eapply visit_calc_keeps_edges; eassumption.
  - exact He.
Qed.

Lemma visit_calc_keeps_original (tags : list (NodeId * nx.Tags)) (from_node : NodeId)
    (st st' : XbrlCalculationForestFerc1.builder_state) (calc : CalcComponent)
    (n : NodeId) :
  XbrlCalculationForestFerc1.visit_calc tags from_node st calc = Ok st' ->
  nx.attr_xbrl_factoid_original (XbrlCalculationForestFerc1.attrs_of (snd st') n)
  = nx.attr_xbrl_factoid_original (XbrlCalculationForestFerc1.attrs_of (snd st) n).
Proof.
  intros H. destruct st as [forest attrs].
  destruct (visit_calc_Ok _ _ _ _ _ _ H) as (v & a' & _ & -> & _ & Horig & _).
  simpl. rewrite attrs_of_set.
  destruct (NodeId_eqb v n) eqn:E; [|reflexivity].
  apply NodeId_eqb_eq in E. subst n. exact Horig.
Qed.

(** Every edge that the calculations imply is in the graph when the loop
    ends. *)
Lemma builder_loop_edges (meta : list MetaRow) (tags : list (NodeId * nx.Tags))
    (st : XbrlCalculationForestFerc1.builder_state) :
  Py.foldM (XbrlCalculationForestFerc1.visit_row tags) meta (nx.empty, []) = Ok st ->
  forall u v, In (u, v) (XbrlCalculationForestFerc1.calculation_edges meta) ->
              In (u, v) (nx.edges (fst st)).
Proof.
  intros H u v Huv.
  unfold XbrlCalculationForestFerc1.calculation_edges in Huv.
  apply in_flat_map in Huv. destruct Huv as (row & Hrow & Huv).
  apply in_flat_map in Huv. destruct Huv as (calc & Hcalc & Huv).
  destruct (XbrlCalculationForestFerc1.to_node calc) as [w|] eqn:Ew; [|contradiction].
  destruct Huv as [Huv | []]. inversion Huv; subst u w. clear Huv.
  refine (foldM_each
            (fun row s => forall calc v, In calc (calculations row) ->
                                         XbrlCalculationForestFerc1.to_node calc = Some v ->
                                         In (node_of_row row, v) (nx.edges (fst s)))
            _ meta _ _ (nx.empty, []) st H row Hrow calc v Hcalc Ew).
  - intros [forest attrs] r s' Hstep.
    destruct (visit_row_Ok _ _ _ _ _ Hstep) as (a0 & Hfold & _).
    intros c w Hc Hw.
    refine (foldM_each
              (fun c s => forall w, XbrlCalculationForestFerc1.to_node c = Some w ->
                                    In (node_of_row r, w) (nx.edges (fst s)))
              _ (calculations r) _ _ _ s' Hfold c Hc w Hw).
    + intros [f0 a1] c0 s1 Hc0 w0 Hw0.
      destruct (visit_calc_Ok _ _ _ _ _ _ Hc0) as (v0 & a' & Hv0 & -> & _).
      rewrite Hv0 in Hw0. inversion Hw0; subst w0. simpl.
      apply In_edges_add_edge. right; reflexivity.
    + intros s0 c1 s1 c0 Hkeep Hstep1 w0 Hw0.
      eapply visit_calc_keeps_edges; [apply Hkeep; exact Hw0 | exact Hstep1].
  - intros s r2 s' r Hkeep Hstep c w Hc Hw.
    eapply visit_row_keeps_edges; [exact (Hkeep c w Hc Hw) | exact Hstep].
Qed.

(** Every row with a non-empty original factoid has it recorded on its
    node when the loop ends. *)
Lemma builder_loop_original (meta : list MetaRow) (tags : list (NodeId * nx.Tags))
    (st : XbrlCalculationForestFerc1.builder_state) :
  Py.foldM (XbrlCalculationForestFerc1.visit_row tags) meta (nx.empty, []) = Ok st ->
  forall row, In row meta -> xbrl_factoid_original row <> "" ->
    nx.attr_xbrl_factoid_original
      (XbrlCalculationForestFerc1.attrs_of (snd st) (node_of_row row))
    = Some (xbrl_factoid_original row).
Proof.
  intros H row Hrow Hne.
  assert (forall r s s',
            XbrlCalculationForestFerc1.visit_row tags s r = Ok s' ->
            forall n,
              nx.attr_xbrl_factoid_original
                (XbrlCalculationForestFerc1.attrs_of (snd s') n)
              = if NodeId_eqb (node_of_row r) n
                then Some (xbrl_factoid_original r)
                else nx.attr_xbrl_factoid_original
                       (XbrlCalculationForestFerc1.attrs_of (snd s) n)) as Hstep.
  { intros r [forest attrs] s' Hr n.
    destruct (visit_row_Ok _ _ _ _ _ Hr) as (a0 & Hfold & Horig & _).
    transitivity (nx.attr_xbrl_factoid_original
                    (XbrlCalculationForestFerc1.attrs_of
                       (nx.attrs_set attrs (node_of_row r) a0) n)).
    - refine (foldM_invariant
                (fun s => nx.attr_xbrl_factoid_original
                            (XbrlCalculationForestFerc1.attrs_of (snd s) n)
                          = nx.attr_xbrl_factoid_original
                              (XbrlCalculationForestFerc1.attrs_of
                                 (nx.attrs_set attrs (node_of_row r) a0) n))
                _ _ _ _ _ _ Hfold); [|reflexivity].
      intros s c s1 _ Hs Hc.
      rewrite (visit_calc_keeps_original _ _ _ _ _ n Hc). exact Hs.
    - simpl. rewrite attrs_of_set.
      destruct (NodeId_eqb (node_of_row r) n); [exact Horig | reflexivity]. }
  refine (foldM_each
            (fun row s => xbrl_factoid_original row <> "" ->
                          nx.attr_xbrl_factoid_original
                            (XbrlCalculationForestFerc1.attrs_of (snd s) (node_of_row row))
                          = Some (xbrl_factoid_original row))
            _ meta _ _ (nx.empty, []) st H row Hrow Hne).
  - intros s r s' Hr _. rewrite (Hstep r s s' Hr), NodeId_eqb_refl. reflexivity.
  - intros s r2 s' r Hkeep Hr2 Hr. rewrite (Hstep r2 s s' Hr2).
    destruct (NodeId_eqb (node_of_row r2) (node_of_row r)) eqn:E;
      [|apply Hkeep; exact Hr].
    apply NodeId_eqb_eq in E. f_equal. symmetry.
    destruct s as [forest attrs].
    destruct (visit_row_Ok _ _ _ _ _ Hr2) as (_ & _ & _ & _ & _ & Hsame).
    apply Hsame; [|exact Hr]. rewrite E. apply Hkeep. exact Hr.
Qed.

Lemma exploded_meta_to_digraph_Ok (meta : list MetaRow)
    (tags : list (NodeId * nx.Tags)) (g : nx.DiGraph) :
  XbrlCalculationForestFerc1.exploded_meta_to_digraph meta tags = Ok g ->
  exists forest attrs,
    Py.foldM (XbrlCalculationForestFerc1.visit_row tags) meta (nx.empty, [])
    = Ok (forest, attrs)
    /\ g = nx.remove_nodes_from (nx.set_node_attributes forest attrs)
                                XbrlCalculationForestFerc1.bad_nodes.
Proof.
  unfold XbrlCalculationForestFerc1.exploded_meta_to_digraph. intros H.
  apply bind_Ok in H. destruct H as ([forest attrs] & Hfold & H).
  inversion H. exists forest, attrs. split; [assumption | reflexivity].
Qed.

Lemma node_list_set_node_attributes (g : nx.DiGraph)
    (attrs : list (NodeId * nx.NodeAttrs)) :
  nx.node_list (nx.set_node_attributes g attrs) = nx.node_list g.
Proof.
  unfold nx.node_list, nx.set_node_attributes. simpl. rewrite map_map.
  apply map_ext. intros [n a]. simpl. destruct (nx.attrs_get attrs n); reflexivity.
Qed.

Lemma In_node_list_remove (g : nx.DiGraph) (ns : list NodeId) (n : NodeId) :
  In n (nx.node_list (nx.remove_nodes_from g ns))
  <-> In n (nx.node_list g) /\ ~ In n ns.
Proof.
  unfold nx.node_list, nx.remove_nodes_from. simpl. rewrite !in_map_iff. split.
  - intros ([k a] & E & H). simpl in E. subst k.
    apply filter_In in H. destruct H as [H Hk]. simpl in Hk.
    apply negb_true_iff in Hk. split.
    + exists (n, a). split; [reflexivity | assumption].
    + intros Hin. apply node_in_In in Hin. congruence.
  - intros [([k a] & E & H) Hn]. simpl in E. subst k.
    exists (n, a). split; [reflexivity|]. apply filter_In. split; [assumption|].
    simpl. apply negb_true_iff. destruct (nx.node_in n ns) eqn:E; [|reflexivity].
    apply node_in_In in E. contradiction.
Qed.

Lemma In_edges_remove (g : nx.DiGraph) (ns : list NodeId) (u v : NodeId) :
  In (u, v) (nx.edges (nx.remove_nodes_from g ns))
  <-> In (u, v) (nx.edges g) /\ ~ In u ns /\ ~ In v ns.
Proof.
  unfold nx.remove_nodes_from. simpl. rewrite filter_In. simpl.
  rewrite negb_true_iff, orb_false_iff.
  pose proof (node_in_In u ns) as Hu. pose proof (node_in_In v ns) as Hv.
  destruct (nx.node_in u ns), (nx.node_in v ns); split;
    intros (H1 & H2 & H3); repeat split; try assumption; try discriminate;
    try (intros Hx; apply Hu in Hx; discriminate);
    try (intros Hx; apply Hv in Hx; discriminate);
    try (elim H2; apply Hu; reflexivity);
    try (elim H3; apply Hv; reflexivity).
Qed.

Lemma attrs_update_bare (a : nx.NodeAttrs) : nx.attrs_update nx.no_attrs a = a.
Proof.
  destruct a as [[o|] [w|] [t|]]; reflexivity.
Qed.

Lemma node_attrs_set_node_attributes (g : nx.DiGraph)
    (attrs : list (NodeId * nx.NodeAttrs)) (n : NodeId) :
  (forall p, In p (nx.nodes g) -> snd p = nx.no_attrs) ->
  In n (nx.node_list g) ->
  nx.node_attrs (nx.set_node_attributes g attrs) n
  = Some (XbrlCalculationForestFerc1.attrs_of attrs n).
Proof.
  unfold nx.node_attrs, nx.set_node_attributes, nx.node_list. simpl.
  induction (nx.nodes g) as [|[k a] l IH]; intros Hbare Hn; [contradiction|].
  assert (a = nx.no_attrs) as -> by (apply (Hbare (k, a)); left; reflexivity).
  assert (forall b : nx.NodeAttrs,
            nx.attrs_get ((k, b) :: map (fun p => match nx.attrs_get attrs (fst p) with
                                               | Some a0 => (fst p, nx.attrs_update (snd p) a0)
                                               | None => p
                                               end) l) n
            = if NodeId_eqb k n then Some b
              else nx.attrs_get (map (fun p => match nx.attrs_get attrs (fst p) with
                                               | Some a0 => (fst p, nx.attrs_update (snd p) a0)
                                               | None => p
                                               end) l) n) as Hcons
    by (intros b; reflexivity).
  cbn [map fst snd].
  destruct (NodeId_eqb k n) eqn:E.
  - apply NodeId_eqb_eq in E. subst k.
    unfold XbrlCalculationForestFerc1.attrs_of.
    destruct (nx.attrs_get attrs n) as [b|] eqn:Eb; cbn [fst snd];
      rewrite Hcons; try rewrite NodeId_eqb_refl; try rewrite attrs_update_bare;
      reflexivity.
  - assert (In n (map fst l)) as Hn'.
    { destruct Hn as [Hn | Hn]; [|assumption].
      simpl in Hn. subst k. rewrite NodeId_eqb_refl in E. discriminate. }
    assert (forall p, In p l -> snd p = nx.no_attrs) as Hbare'
      by (intros p Hp; apply Hbare; right; assumption).
    destruct (nx.attrs_get attrs k); cbn [fst snd]; rewrite Hcons; try rewrite E;
      apply IH; assumption.
Qed.

Lemma node_attrs_remove (g : nx.DiGraph) (ns : list NodeId) (n : NodeId) :
  ~ In n ns ->
  nx.node_attrs (nx.remove_nodes_from g ns) n = nx.node_attrs g n.
Proof.
  intros Hn. unfold nx.node_attrs, nx.remove_nodes_from, nx.attrs_get. simpl.
  induction (nx.nodes g) as [|[k a] l IH]; [reflexivity|]. simpl.
  destruct (nx.node_in k ns) eqn:Ek; simpl.
  - destruct (NodeId_eqb k n) eqn:E; [|exact IH].
    apply NodeId_eqb_eq in E. subst k. apply node_in_In in Ek. contradiction.
  - destruct (NodeId_eqb k n); [reflexivity | exact IH].
Qed.

Lemma to_node_single_source (calc : CalcComponent) (v : NodeId) :
  XbrlCalculationForestFerc1.to_node calc = Some v ->
  List.length (source_tables calc) = 1.
Proof.
  unfold XbrlCalculationForestFerc1.to_node.
  destruct (source_tables calc) as [|tbl [|t2 rest]]; try discriminate. reflexivity.
Qed.

Lemma builder_loop_single_source (meta : list MetaRow)
    (tags : list (NodeId * nx.Tags)) (st : XbrlCalculationForestFerc1.builder_state) :
  Py.foldM (XbrlCalculationForestFerc1.visit_row tags) meta (nx.empty, []) = Ok st ->
  forall row calc, In row meta -> In calc (calculations row) ->
                   List.length (source_tables calc) = 1.
Proof.
  intros H row calc Hrow Hcalc.
  refine (foldM_each
            (fun row (_ : XbrlCalculationForestFerc1.builder_state) =>
               forall calc, In calc (calculations row) ->
                            List.length (source_tables calc) = 1)
            _ meta _ _ (nx.empty, []) st H row Hrow calc Hcalc).
  - intros [forest attrs] r s' Hstep c Hc.
    destruct (visit_row_Ok _ _ _ _ _ Hstep) as (a0 & Hfold & _).
    refine (foldM_each
              (fun c (_ : XbrlCalculationForestFerc1.builder_state) =>
                 List.length (source_tables c) = 1)
              _ (calculations r) _ _ _ s' Hfold c Hc).
    + intros [f0 a1] c0 s1 Hc0.
      destruct (visit_calc_Ok _ _ _ _ _ _ Hc0) as (v0 & a' & Hv0 & _).
      eapply to_node_single_source. exact Hv0.
    + intros; assumption.
  - intros; auto.
Qed.

Lemma visit_calc_Raise (tags : list (NodeId * nx.Tags)) (from_node : NodeId)
    (st : XbrlCalculationForestFerc1.builder_state) (calc : CalcComponent) (e : exn) :
  XbrlCalculationForestFerc1.visit_calc tags from_node st calc = Raise e ->
  kind e = AssertionError.
Proof.
  destruct st as [forest attrs]. unfold XbrlCalculationForestFerc1.visit_calc.
  destruct (Nat.eqb (List.length (source_tables calc)) 1) eqn:Elen; simpl.
  - destruct (length_one _ Elen) as (tbl & ->).
    destruct (nx.attr_weight _) as [w|]; simpl; [|discriminate].
    destruct (Py.float_truthy w); simpl; [|discriminate].
    destruct (negb (PrimFloat.eqb w (weight calc))); simpl; [|discriminate].
    destruct (PrimFloat.eqb (PrimFloat.mul w (weight calc)) (-1)); simpl;
      [discriminate|].
    intros H. inversion H. reflexivity.
  - intros H. inversion H. reflexivity.
Qed.

Lemma visit_row_Raise (tags : list (NodeId * nx.Tags))
    (st : XbrlCalculationForestFerc1.builder_state) (row : MetaRow) (e : exn) :
  XbrlCalculationForestFerc1.visit_row tags st row = Raise e ->
  kind e = AssertionError.
Proof.
  destruct st as [forest attrs]. unfold XbrlCalculationForestFerc1.visit_row.
  intros H.
  match type of H with
  | bind ?m _ = _ => destruct m as [a|e0] eqn:Ea
  end; simpl in H.
  - apply foldM_Raise in H. destruct H as (s0 & c & _ & Hc).
    eapply visit_calc_Raise. exact Hc.
  - inversion H; subst e0. clear H.
    destruct (nx.attr_xbrl_factoid_original _) as [s|]; [|discriminate].
    destruct (String.eqb s ""); [discriminate|].
    destruct (String.eqb s (xbrl_factoid_original row)); simpl in Ea; [discriminate|].
    inversion Ea. reflexivity.
Qed.

Lemma exploded_meta_to_digraph_Raise (meta : list MetaRow)
    (tags : list (NodeId * nx.Tags)) (e : exn) :
  XbrlCalculationForestFerc1.exploded_meta_to_digraph meta tags = Raise e ->
  kind e = AssertionError.
Proof.
  unfold XbrlCalculationForestFerc1.exploded_meta_to_digraph. intros H.
  destruct (Py.foldM _ meta _) as [[forest attrs]|e0] eqn:E; simpl in H;
    [discriminate|].
  inversion H; subst e0.
  apply foldM_Raise in E. destruct E as (s0 & row & _ & Hrow).
  eapply visit_row_Raise. exact Hrow.
Qed.

(** X1.  The graph that the builder returns is the graph of the
    calculations without the two bad nodes: its edges are the edges the
    calculations imply that touch no bad node, its nodes are the ends of
    the implied edges other than the bad nodes, each once. *)
Theorem built_graph_is_the_calculations_without_bad_nodes
    (meta : list MetaRow) (tags : list (NodeId * nx.Tags)) (g : nx.DiGraph) :
  XbrlCalculationForestFerc1.exploded_meta_to_digraph meta tags = Ok g ->
  (forall u v,
      In (u, v) (nx.edges g)
      <-> In (u, v) (XbrlCalculationForestFerc1.calculation_edges meta)
          /\ ~ In u XbrlCalculationForestFerc1.bad_nodes
          /\ ~ In v XbrlCalculationForestFerc1.bad_nodes)
  /\ (forall n,
        In n (nx.node_list g)
        <-> ~ In n XbrlCalculationForestFerc1.bad_nodes
            /\ exists m,
                 In (n, m) (XbrlCalculationForestFerc1.calculation_edges meta)
                 \/ In (m, n) (XbrlCalculationForestFerc1.calculation_edges meta))
  /\ NoDup (nx.node_list g).
Proof.
  intros H. destruct (exploded_meta_to_digraph_Ok _ _ _ H) as (forest & attrs & Hfold & ->).
  pose proof (builder_loop_invariant _ _ _ Hfold) as Hinv.
  pose proof (builder_loop_edges _ _ _ Hfold) as Hall.
  destruct Hinv as [Hcl Hnd _ Hends Hedges _ _ _ _].
  simpl in Hcl, Hnd, Hends, Hedges, Hall.
  split; [|split].
  - intros u v. rewrite In_edges_remove. simpl. split.
    + intros (Huv & Hu & Hv). repeat split; try assumption. apply Hedges. exact Huv.
    + intros (Huv & Hu & Hv). repeat split; try assumption. apply Hall. exact Huv.
  - intros n. rewrite In_node_list_remove, node_list_set_node_attributes. split.
    + intros [Hn Hbad]. split; [exact Hbad|].
      destruct (Hends n Hn) as (m & [Hm | Hm]); exists m; [left | right];
        apply Hedges; exact Hm.
    + intros [Hbad (m & [Hm | Hm])]; (split; [|exact Hbad]);
        apply Hall in Hm; apply Hcl in Hm; tauto.
  - assert (forall l : list (NodeId * nx.NodeAttrs),
              NoDup (map fst l) ->
              NoDup (map fst (filter (fun p => negb (nx.node_in
                                                       (fst p)
                                                       XbrlCalculationForestFerc1.bad_nodes))
                                     l))) as Hfilter.
    { induction l as [|p l IH]; intros Hl; simpl; [constructor|].
      inversion Hl; subst.
      destruct (negb _); simpl; [constructor|]; try (apply IH; assumption).
      intros Hin. apply in_map_iff in Hin. destruct Hin as (q & Eq & Hq).
      apply filter_In in Hq. destruct Hq as [Hq _].
      match goal with Hnot : ~ In (fst p) (map fst l) |- _ => apply Hnot end.
      rewrite <- Eq. apply in_map. exact Hq. }
    apply (Hfilter (nx.nodes (nx.set_node_attributes forest attrs))).
    change (NoDup (nx.node_list (nx.set_node_attributes forest attrs))).
    rewrite node_list_set_node_attributes. exact Hnd.
Qed.

Lemma built_graph_is_the_calculations_without_bad_nodes_witness :
  NoDup (nx.node_list tree_full).
Proof.
  refine (proj2 (proj2 (built_graph_is_the_calculations_without_bad_nodes
                          tree_meta [] tree_full _))).
  vm_compute. reflexivity.
Defined.

Lemma built_graph_node_attrs (meta : list MetaRow) (tags : list (NodeId * nx.Tags))
    (forest : nx.DiGraph) (attrs : list (NodeId * nx.NodeAttrs)) (n : NodeId) :
  Py.foldM (XbrlCalculationForestFerc1.visit_row tags) meta (nx.empty, [])
  = Ok (forest, attrs) ->
  In n (nx.node_list
          (nx.remove_nodes_from (nx.set_node_attributes forest attrs)
                                XbrlCalculationForestFerc1.bad_nodes)) ->
  nx.node_attrs (nx.remove_nodes_from (nx.set_node_attributes forest attrs)
                                      XbrlCalculationForestFerc1.bad_nodes) n
  = Some (XbrlCalculationForestFerc1.attrs_of attrs n).
Proof.
  intros Hfold Hn.
  apply In_node_list_remove in Hn. destruct Hn as [Hn Hbad].
  rewrite node_list_set_node_attributes in Hn.
  rewrite node_attrs_remove by exact Hbad.
  apply node_attrs_set_node_attributes; [|exact Hn].
  exact (XbrlCalculationForestFerc1.inv_bare _ _ _ (builder_loop_invariant _ _ _ Hfold)).
Qed.

(** X2.  Every node of the graph that the builder returns carries its tags
    (those of its row of the tag table, none if it has no row); a node with
    a parent carries a weight; a weight carried is the weight of a component
    that names the node; and a node carries the original factoid of every
    metadata row of its own that has a non-empty one, and no original
    factoid that is not that of a row of its own. *)
Theorem built_graph_node_attributes
    (meta : list MetaRow) (tags : list (NodeId * nx.Tags)) (g : nx.DiGraph)
    (n : NodeId) :
  XbrlCalculationForestFerc1.exploded_meta_to_digraph meta tags = Ok g ->
  In n (nx.node_list g) ->
  exists a,
    nx.node_attrs g n = Some a
    /\ nx.attr_tags a = Some (XbrlCalculationForestFerc1.tags_loc tags n)
    /\ (forall u, In (u, n) (nx.edges g) -> exists w, nx.attr_weight a = Some w)
    /\ (forall w, nx.attr_weight a = Some w ->
                  exists row calc,
                    In row meta /\ In calc (calculations row)
                    /\ XbrlCalculationForestFerc1.to_node calc = Some n
                    /\ weight calc = w)
    /\ (forall row, In row meta -> node_of_row row = n ->
                    xbrl_factoid_original row <> "" ->
                    nx.attr_xbrl_factoid_original a = Some (xbrl_factoid_original row))
    /\ (forall s, nx.attr_xbrl_factoid_original a = Some s ->
                  exists row, In row meta /\ node_of_row row = n
                              /\ xbrl_factoid_original row = s).
Proof.
  intros H Hn.
  destruct (exploded_meta_to_digraph_Ok _ _ _ H) as (forest & attrs & Hfold & ->).
  pose proof (builder_loop_invariant _ _ _ Hfold) as Hinv.
  pose proof (builder_loop_original _ _ _ Hfold) as Horig.
  exists (XbrlCalculationForestFerc1.attrs_of attrs n).
  split; [eapply built_graph_node_attrs; eassumption|].
  apply In_node_list_remove in Hn. destruct Hn as [Hn Hbad].
  rewrite node_list_set_node_attributes in Hn.
  destruct Hinv as [_ _ _ _ _ Htg Hwt Hwf Hof].
  simpl in Htg, Hwt, Hwf, Hof, Horig.
  split; [apply Htg; exact Hn|].
  split.
  { intros u Hu. apply In_edges_remove in Hu. destruct Hu as [Hu _]. simpl in Hu.
    specialize (Hwt u n Hu).
    destruct (nx.attr_weight (XbrlCalculationForestFerc1.attrs_of attrs n)) as [w|];
      [exists w; reflexivity | congruence]. }
  split; [apply Hwf|].
  split; [|apply Hof].
  intros row Hrow <- Hne. apply Horig; assumption.
Qed.

Lemma built_graph_node_attributes_witness :
  exists a,
    nx.node_attrs tree_full (mkNodeId "plant_in_service_ferc1" "retirements") = Some a
    /\ nx.attr_tags a = Some [].
Proof.
  destruct (built_graph_node_attributes
              tree_meta [] tree_full (mkNodeId "plant_in_service_ferc1" "retirements"))
    as (a & Ha & Htags & _).
  - vm_compute. reflexivity.
  - vm_compute. right; right; right; left. reflexivity.
  - exists a. split; [exact Ha | exact Htags].
Defined.

(** X3.  A component whose list of source tables does not have exactly
    one element makes the builder raise an [AssertionError], wherever the
    component stands in the metadata. *)
Theorem builder_raises_on_component_without_single_source
    (meta : list MetaRow) (tags : list (NodeId * nx.Tags))
    (row : MetaRow) (calc : CalcComponent) :
  In row meta -> In calc (calculations row) ->
  List.length (source_tables calc) <> 1 ->
  exists e,
    XbrlCalculationForestFerc1.exploded_meta_to_digraph meta tags = Raise e
    /\ kind e = AssertionError.
Proof.
  intros Hrow Hcalc Hlen.
  destruct (XbrlCalculationForestFerc1.exploded_meta_to_digraph meta tags)
    as [g|e] eqn:E.
  - exfalso. apply Hlen.
    destruct (exploded_meta_to_digraph_Ok _ _ _ E) as (forest & attrs & Hfold & _).
    eapply builder_loop_single_source; eassumption.
  - exists e. split; [reflexivity|].
    eapply exploded_meta_to_digraph_Raise. exact E.
Qed.

Lemma builder_raises_on_component_without_single_source_witness :
  exists e,
    XbrlCalculationForestFerc1.exploded_meta_to_digraph
      [meta_row "income_statement_ferc1" "operating_revenues"
         [mkCalc "electric_operating_revenues" 1%float
                 ["income_statement_ferc1"; "electric_operating_revenues_ferc1"]]]
      [] = Raise e
    /\ kind e = AssertionError.
Proof.
  eapply (builder_raises_on_component_without_single_source _ []).
  - left. reflexivity.
  - left. reflexivity.
  - simpl. discriminate.
Defined.

(** X4.  Two metadata rows of the same node with different non-empty
    original factoids make the builder raise an [AssertionError]. *)
Theorem builder_raises_on_inconsistent_original_factoid
    (meta : list MetaRow) (tags : list (NodeId * nx.Tags)) (r1 r2 : MetaRow) :
  In r1 meta -> In r2 meta ->
  node_of_row r1 = node_of_row r2 ->
  xbrl_factoid_original r1 <> "" ->
  xbrl_factoid_original r2 <> "" ->
  xbrl_factoid_original r1 <> xbrl_factoid_original r2 ->
  exists e,
    XbrlCalculationForestFerc1.exploded_meta_to_digraph meta tags = Raise e
    /\ kind e = AssertionError.
Proof.
  intros H1 H2 Hnode Hne1 Hne2 Hdiff.
  destruct (XbrlCalculationForestFerc1.exploded_meta_to_digraph meta tags)
    as [g|e] eqn:E.
  - exfalso. apply Hdiff.
    destruct (exploded_meta_to_digraph_Ok _ _ _ E) as (forest & attrs & Hfold & _).
    pose proof (builder_loop_original _ _ _ Hfold r1 H1 Hne1) as Ho1.
    pose proof (builder_loop_original _ _ _ Hfold r2 H2 Hne2) as Ho2.
    simpl in Ho1, Ho2. rewrite Hnode in Ho1. congruence.
  - exists e. split; [reflexivity|].
    eapply exploded_meta_to_digraph_Raise. exact E.
Qed.

Lemma builder_raises_on_inconsistent_original_factoid_witness :
  exists e,
    XbrlCalculationForestFerc1.exploded_meta_to_digraph
      [mkMeta "income_statement_ferc1" "net_income_loss" [] "reported_value"
              "NetIncomeLoss" true;
       mkMeta "income_statement_ferc1" "net_income_loss" [] "reported_value"
              "NetIncome" true]
      [] = Raise e
    /\ kind e = AssertionError.
Proof.
  eapply (builder_raises_on_inconsistent_original_factoid _ []).
  - left. reflexivity.
  - right. left. reflexivity.
  - reflexivity.
  - discriminate.
  - discriminate.
  - discriminate.
Defined.

(** ** The seeded digraph *)

Lemma built_graph_edges (meta : list MetaRow) (tags : list (NodeId * nx.Tags))
    (g : nx.DiGraph) (u v : NodeId) :
  XbrlCalculationForestFerc1.exploded_meta_to_digraph meta tags = Ok g ->
  In (u, v) (nx.edges g)
  <-> In (u, v) (XbrlCalculationForestFerc1.calculation_edges meta)
      /\ ~ In u XbrlCalculationForestFerc1.bad_nodes
      /\ ~ In v XbrlCalculationForestFerc1.bad_nodes.
Proof.
  intros H. destruct (exploded_meta_to_digraph_Ok _ _ _ H) as (forest & attrs & Hfold & ->).
  pose proof (XbrlCalculationForestFerc1.inv_edges _ _ _ (builder_loop_invariant _ _ _ Hfold))
    as Hedges.
  pose proof (builder_loop_edges _ _ _ Hfold) as Hall.
  simpl in Hedges, Hall.
  rewrite In_edges_remove. simpl. split.
  - intros (Huv & Hu & Hv). repeat split; try assumption. apply Hedges. exact Huv.
  - intros (Huv & Hu & Hv). repeat split; try assumption. apply Hall. exact Huv.
Qed.

Lemma In_calculation_edges (meta : list MetaRow) (u v : NodeId) :
  In (u, v) (XbrlCalculationForestFerc1.calculation_edges meta)
  <-> exists row calc,
        In row meta /\ In calc (calculations row)
        /\ node_of_row row = u
        /\ XbrlCalculationForestFerc1.to_node calc = Some v.
Proof.
  unfold XbrlCalculationForestFerc1.calculation_edges. rewrite in_flat_map. split.
  - intros (row & Hrow & H). apply in_flat_map in H. destruct H as (calc & Hcalc & H).
    destruct (XbrlCalculationForestFerc1.to_node calc) as [w|] eqn:E; [|contradiction].
    destruct H as [H | []]. inversion H; subst.
    exists row, calc. repeat split; assumption.
  - intros (row & calc & Hrow & Hcalc & <- & Hv).
    exists row. split; [assumption|]. apply in_flat_map.
    exists calc. split; [assumption|]. rewrite Hv. left; reflexivity.
Qed.

Lemma set_union_In (s l : list NodeId) (n : NodeId) :
  In n (XbrlCalculationForestFerc1.set_union s l) <-> In n s \/ In n l.
Proof.
  unfold XbrlCalculationForestFerc1.set_union.
  rewrite in_app_iff, (unique_In NodeId_eqb NodeId_eqb_eq), filter_In, negb_true_iff.
  pose proof (node_in_In n s) as H.
  destruct (nx.node_in n s).
  - split; intros _; left; apply H; reflexivity.
  - split.
    + intros [H1 | [H1 _]]; auto.
    + intros [H1 | H1]; auto.
Qed.

(** The loop of [seeded_digraph] over the seeds. *)
Lemma seeded_nodes_loop (self : XbrlCalculationForestFerc1.t) (full : nx.DiGraph)
    (seeds : list NodeId) :
  XbrlCalculationForestFerc1.full_digraph self = Ok full ->
  forall acc,
    ((exists s, In s seeds /\ nx.has_node full s = false) ->
     exists e,
       Py.foldM (fun seeded_nodes seed =>
                   let seeded_nodes :=
                     XbrlCalculationForestFerc1.set_union seeded_nodes [seed] in
                   full <- XbrlCalculationForestFerc1.full_digraph self ;;
                   d <- nx.descendants full seed ;;
                   Ok (XbrlCalculationForestFerc1.set_union seeded_nodes d))
                seeds acc = Raise e
       /\ kind e = NetworkXError)
    /\ ((forall s, In s seeds -> nx.has_node full s = true) ->
        exists ns,
          Py.foldM (fun seeded_nodes seed =>
                      let seeded_nodes :=
                        XbrlCalculationForestFerc1.set_union seeded_nodes [seed] in
                      full <- XbrlCalculationForestFerc1.full_digraph self ;;
                      d <- nx.descendants full seed ;;
                      Ok (XbrlCalculationForestFerc1.set_union seeded_nodes d))
                   seeds acc = Ok ns
          /\ forall n, In n ns
                       <-> In n acc \/ In n seeds
                           \/ exists s, In s seeds /\ nx.path full s n).
Proof.
  intros Hfull.
  pose proof (exploded_meta_to_digraph_closed _ _ _ Hfull) as Hclosed.
  set (body := fun (seeded_nodes : list NodeId) (seed : NodeId) => _).
  assert (forall acc x,
             body acc x
             = (d <- nx.descendants full x ;;
                Ok (XbrlCalculationForestFerc1.set_union
                      (XbrlCalculationForestFerc1.set_union acc [x]) d))) as Hbody.
  { intros acc x. unfold body. cbv zeta. rewrite Hfull. reflexivity. }
  clearbody body.
  induction seeds as [|x seeds IH]; intros acc.
  - split.
    + intros (s & [] & _).
    + intros _. exists acc. split; [reflexivity|]. intros n. split; [tauto|].
      intros [H | [[] | (s & [] & _)]]. exact H.
  - cbn [Py.foldM]. rewrite Hbody.
    unfold nx.descendants. destruct (nx.has_node full x) eqn:Ex; cbn [bind].
    + destruct (IH (XbrlCalculationForestFerc1.set_union
                      (XbrlCalculationForestFerc1.set_union acc [x])
                      (nx.reachable full (nx.succ_list full) x))) as [IHbad IHgood].
      split.
      * intros (s & [-> | Hs] & Hbad); [congruence|].
        apply IHbad. exists s. split; assumption.
      * intros Hall.
        destruct IHgood as (ns & Hns & Hspec);
          [intros s Hs; apply Hall; right; exact Hs|].
        exists ns. split; [exact Hns|]. intros n. rewrite Hspec.
        rewrite !set_union_In.
        assert (In n (nx.reachable full (nx.succ_list full) x)
                <-> nx.path full x n /\ n <> x) as Hdesc.
        { apply (descendants_spec full x _ Hclosed).
          unfold nx.descendants. rewrite Ex. reflexivity. }
        rewrite Hdesc. simpl. split.
        -- intros [[[H | [H | []]] | [H _]] | [H | (s & Hs & H)]]; auto.
           ++ right. right. exists x. split; [left; reflexivity | exact H].
           ++ right. right. exists s. split; [right; exact Hs | exact H].
        -- intros [H | [[H | H] | (s & [Hs | Hs] & H)]]; auto.
           ++ subst s. destruct (NodeId_eqb n x) eqn:E.
              ** apply NodeId_eqb_eq in E. subst n. left. left. right. left. reflexivity.
              ** apply NodeId_eqb_neq in E. left. right. split; assumption.
           ++ right. right. exists s. split; assumption.
    + split.
      * intros _. eexists. split; [reflexivity | reflexivity].
      * intros Hall. specialize (Hall x (or_introl eq_refl)). congruence.
Qed.

Lemma seeded_digraph_cases (self : XbrlCalculationForestFerc1.t) (full : nx.DiGraph) :
  XbrlCalculationForestFerc1.full_digraph self = Ok full ->
  ((exists s, In s (XbrlCalculationForestFerc1.seeds self)
              /\ nx.has_node full s = false) ->
   exists e,
     XbrlCalculationForestFerc1.seeded_digraph self = Raise e
     /\ kind e = NetworkXError)
  /\ ((forall s, In s (XbrlCalculationForestFerc1.seeds self) ->
                 nx.has_node full s = true) ->
      exists ns,
        (forall n, In n ns
                   <-> In n (XbrlCalculationForestFerc1.seeds self)
                       \/ exists s, In s (XbrlCalculationForestFerc1.seeds self)
                                    /\ nx.path full s n)
        /\ XbrlCalculationForestFerc1.seeded_digraph self
           = (meta <- XbrlCalculationForestFerc1.loc
                        (XbrlCalculationForestFerc1.exploded_meta self) ns ;;
              XbrlCalculationForestFerc1.exploded_meta_to_digraph
                meta (XbrlCalculationForestFerc1.tags self))).
Proof.
  intros Hfull.
  pose proof (seeded_nodes_loop self full (XbrlCalculationForestFerc1.seeds self)
                Hfull []) as [Hbad Hgood].
  cbv zeta in Hbad, Hgood. unfold XbrlCalculationForestFerc1.seeded_digraph. split.
  - intros H. destruct (Hbad H) as (e & He & Hk).
    exists e. split; [|exact Hk]. rewrite He. reflexivity.
  - intros H. destruct (Hgood H) as (ns & Hns & Hspec).
    exists ns. split.
    + intros n. rewrite Hspec. simpl. tauto.
    + rewrite Hns. reflexivity.
Qed.

(** X5.  A seed that is an orphan, a node of the metadata index that is
    not in the full digraph, makes [seeded_digraph] raise a
    [NetworkXError]; with no seeds given every node of the index is a seed,
    so any orphan does. *)
Theorem seeded_digraph_raises_on_orphan_seed
    (self : XbrlCalculationForestFerc1.t) (orphans : list NodeId) (s : NodeId) :
  XbrlCalculationForestFerc1.orphans self = Ok orphans ->
  In s orphans ->
  In s (XbrlCalculationForestFerc1.seeds self) ->
  exists e,
    XbrlCalculationForestFerc1.seeded_digraph self = Raise e
    /\ kind e = NetworkXError.
Proof.
  intros Ho Hs Hseed. unfold XbrlCalculationForestFerc1.orphans in Ho.
  apply bind_Ok in Ho. destruct Ho as (full & Hfull & Ho).
  inversion Ho; subst orphans. clear Ho.
  apply filter_In in Hs. destruct Hs as [_ Hs]. apply negb_true_iff in Hs.
  apply (proj1 (seeded_digraph_cases self full Hfull)).
  exists s. split; assumption.
Qed.

Lemma seeded_digraph_raises_on_orphan_seed_witness :
  exists e,
    XbrlCalculationForestFerc1.seeded_digraph
      (XbrlCalculationForestFerc1.mk
         (root_leaf_meta ++ [meta_row "income_statement_ferc1" "other_income" []])
         (XbrlCalculationForestFerc1.index
            (root_leaf_meta ++ [meta_row "income_statement_ferc1" "other_income" []]))
         []) = Raise e
    /\ kind e = NetworkXError.
Proof.
  eapply (seeded_digraph_raises_on_orphan_seed
            _ [mkNodeId "income_statement_ferc1" "other_income"]
            (mkNodeId "income_statement_ferc1" "other_income")).
  - vm_compute. reflexivity.
  - left. reflexivity.
  - vm_compute. right; right; left. reflexivity.
Defined.

Lemma mapM_Raise {A B : Type} (f : A -> result B) (l : list A) (e : exn) :
  Py.mapM f l = Raise e -> exists x, In x l /\ f x = Raise e.
Proof.
  induction l as [|a l IH]; simpl; [discriminate|].
  destruct (f a) as [b|e1] eqn:E; simpl.
  - destruct (Py.mapM f l) as [bs|e2]; simpl; [discriminate|].
    intros H. inversion H; subst e2. destruct (IH eq_refl) as (x & Hx & Hfx).
    exists x. split; [right; assumption | assumption].
  - intros H. inversion H; subst e1. exists a. split; [left; reflexivity | assumption].
Qed.

Lemma mapM_all {A B : Type} (f : A -> result B) (l : list A) :
  forall ys x, Py.mapM f l = Ok ys -> In x l -> exists y, In y ys /\ f x = Ok y.
Proof.
  induction l as [|a l IH]; intros ys x H Hx; [contradiction|].
  simpl in H. apply bind_Ok in H. destruct H as (b & Hb & H).
  apply bind_Ok in H. destruct H as (bs & Hbs & H).
  inversion H; subst. destruct Hx as [<- | Hx].
  - exists b. split; [left; reflexivity | assumption].
  - destruct (IH bs x Hbs Hx) as (y & Hy & Hfy).
    exists y. split; [right; assumption | assumption].
Qed.

Lemma is_unique_NoDup (l : list NodeId) :
  XbrlCalculationForestFerc1.is_unique l = true -> NoDup l.
Proof.
  induction l as [|x l IH]; simpl; intros H; [constructor|].
  apply andb_true_iff in H. destruct H as [Hx Hl]. apply negb_true_iff in Hx.
  constructor; [|apply IH; exact Hl].
  intros Hin. apply node_in_In in Hin. congruence.
Qed.

Lemma unique_index_row (meta : list MetaRow) (r1 r2 : MetaRow) :
  NoDup (XbrlCalculationForestFerc1.index meta) ->
  In r1 meta -> In r2 meta -> node_of_row r1 = node_of_row r2 -> r1 = r2.
Proof.
  unfold XbrlCalculationForestFerc1.index.
  induction meta as [|r meta IH]; simpl; intros Hnd H1 H2 E; [contradiction|].
  inversion Hnd as [|? ? Hr Hnd']; subst.
  destruct H1 as [-> | H1], H2 as [-> | H2].
  - reflexivity.
  - exfalso. apply Hr. rewrite E. apply in_map. exact H2.
  - exfalso. apply Hr. rewrite <- E. apply in_map. exact H1.
  - apply IH; assumption.
Qed.

Lemma loc_rows (meta : list MetaRow) (ns : list NodeId) (rows : list MetaRow) :
  XbrlCalculationForestFerc1.loc meta ns = Ok rows ->
  (forall r, In r rows -> In r meta /\ In (node_of_row r) ns)
  /\ (forall n, In n ns -> exists r, In r rows /\ In r meta /\ node_of_row r = n).
Proof.
  unfold XbrlCalculationForestFerc1.loc. intros H. split.
  - intros r Hr. destruct (mapM_In _ _ _ _ H Hr) as (n & Hn & Hf).
    destruct (find _ meta) as [r'|] eqn:E; [|discriminate].
    inversion Hf; subst r'. apply find_some in E. destruct E as [Hin E].
    apply NodeId_eqb_eq in E. rewrite E. split; assumption.
  - intros n Hn. destruct (mapM_all _ _ _ _ H Hn) as (r & Hr & Hf).
    destruct (find _ meta) as [r'|] eqn:E; [|discriminate].
    inversion Hf; subst r'. apply find_some in E. destruct E as [Hin E].
    apply NodeId_eqb_eq in E. exists r. repeat split; assumption.
Qed.

Lemma loc_Raise (meta : list MetaRow) (ns : list NodeId) (n : NodeId) :
  In n ns -> ~ In n (XbrlCalculationForestFerc1.index meta) ->
  exists e, XbrlCalculationForestFerc1.loc meta ns = Raise e /\ kind e = KeyError.
Proof.
  intros Hn Hidx. destruct (XbrlCalculationForestFerc1.loc meta ns) as [rows|e] eqn:E.
  - exfalso. destruct (proj2 (loc_rows _ _ _ E) n Hn) as (r & _ & Hr & Hnode).
    apply Hidx. unfold XbrlCalculationForestFerc1.index. rewrite <- Hnode.
    apply in_map. exact Hr.
  - exists e. split; [reflexivity|].
    unfold XbrlCalculationForestFerc1.loc in E. apply mapM_Raise in E.
    destruct E as (x & _ & Hx).
    destruct (find _ meta); [discriminate|]. inversion Hx. reflexivity.
Qed.

Lemma all_or_some_false {A : Type} (f : A -> bool) (l : list A) :
  (forall x, In x l -> f x = true) \/ (exists x, In x l /\ f x = false).
Proof.
  induction l as [|a l [IH | (x & Hx & Hf)]].
  - left. intros x [].
  - destruct (f a) eqn:E.
    + left. intros x [<- | Hx]; [exact E | apply IH; exact Hx].
    + right. exists a. split; [left; reflexivity | exact E].
  - right. exists x. split; [right; exact Hx | exact Hf].
Qed.

(** X6.  When every seed is a node of the full digraph but a seed or one of
    its descendants has no row in the metadata (a calculation names a
    component that the metadata does not describe), [seeded_digraph] raises
    a [KeyError]. *)
Theorem seeded_digraph_raises_on_node_without_row
    (self : XbrlCalculationForestFerc1.t) (full : nx.DiGraph) (s n : NodeId) :
  XbrlCalculationForestFerc1.full_digraph self = Ok full ->
  (forall s', In s' (XbrlCalculationForestFerc1.seeds self) ->
              nx.has_node full s' = true) ->
  In s (XbrlCalculationForestFerc1.seeds self) ->
  n = s \/ nx.path full s n ->
  ~ In n (XbrlCalculationForestFerc1.index
            (XbrlCalculationForestFerc1.exploded_meta self)) ->
  exists e,
    XbrlCalculationForestFerc1.seeded_digraph self = Raise e
    /\ kind e = KeyError.
Proof.
  intros Hfull Hall Hs Hn Hidx.
  destruct (proj2 (seeded_digraph_cases self full Hfull) Hall) as (ns & Hns & ->).
  assert (In n ns) as Hin.
  { apply Hns. destruct Hn as [-> | Hn]; [left; exact Hs|].
    right. exists s. split; assumption. }
  destruct (loc_Raise _ ns n Hin Hidx) as (e & He & Hk).
  exists e. split; [|exact Hk]. rewrite He. reflexivity.
Qed.

Lemma seeded_digraph_raises_on_node_without_row_witness :
  exists e,
    XbrlCalculationForestFerc1.seeded_digraph dangling_self = Raise e
    /\ kind e = KeyError.
Proof.
  apply (seeded_digraph_raises_on_node_without_row
           dangling_self dangling_full
           (mkNodeId "income_statement_ferc1" "net_income_loss")
           (mkNodeId "income_statement_ferc1" "income_taxes")).
  - vm_compute. reflexivity.
  - intros s' [<- | []]. vm_compute. reflexivity.
  - left. reflexivity.
  - right. apply nx.path_edge. left. reflexivity.
  - intros [H | []]. discriminate H.
Defined.

(** X7.  With a unique metadata index, the seeded digraph is the part of the
    full digraph below the seeds: its edges are exactly the edges of the full
    digraph that leave a seed or a descendant of a seed. *)
Theorem seeded_digraph_is_the_full_digraph_below_the_seeds
    (self : XbrlCalculationForestFerc1.t) (full g : nx.DiGraph) (u v : NodeId) :
  XbrlCalculationForestFerc1.is_unique
    (XbrlCalculationForestFerc1.index
       (XbrlCalculationForestFerc1.exploded_meta self)) = true ->
  XbrlCalculationForestFerc1.full_digraph self = Ok full ->
  XbrlCalculationForestFerc1.seeded_digraph self = Ok g ->
  In (u, v) (nx.edges g)
  <-> In (u, v) (nx.edges full)
      /\ (In u (XbrlCalculationForestFerc1.seeds self)
          \/ exists s, In s (XbrlCalculationForestFerc1.seeds self)
                       /\ nx.path full s u).
Proof.
  intros Huniq Hfull Hg. apply is_unique_NoDup in Huniq.
  destruct (seeded_digraph_cases self full Hfull) as [Hbad Hgood].
  destruct (all_or_some_false (nx.has_node full)
              (XbrlCalculationForestFerc1.seeds self)) as [Hall | Hsome].
  2:{ destruct (Hbad Hsome) as (e & He & _). congruence. }
  destruct (Hgood Hall) as (ns & Hns & Heq). rewrite Heq in Hg.
  apply bind_Ok in Hg. destruct Hg as (meta & Hloc & Hg).
  destruct (loc_rows _ _ _ Hloc) as [Hrows Hnodes].
  rewrite (built_graph_edges _ _ _ u v Hg).
  unfold XbrlCalculationForestFerc1.full_digraph in Hfull.
  rewrite (built_graph_edges _ _ _ u v Hfull).
  rewrite !In_calculation_edges, <- Hns. split.
  - intros ((row & calc & Hrow & Hcalc & Hu & Hv) & Hbu & Hbv).
    destruct (Hrows row Hrow) as [Hin Hnode]. rewrite Hu in Hnode.
    split; [|exact Hnode]. split; [|split; assumption].
    exists row, calc. repeat split; assumption.
  - intros (((row & calc & Hrow & Hcalc & Hu & Hv) & Hbu & Hbv) & Hin).
    split; [|split; assumption].
    destruct (Hnodes u Hin) as (r & Hr & Hrmeta & Hrnode).
    assert (r = row) as -> by (apply (unique_index_row _ _ _ Huniq); congruence).
    exists row, calc. repeat split; assumption.
Qed.

Lemma seeded_digraph_is_the_full_digraph_below_the_seeds_witness :
  In (mkNodeId "utility_plant_summary_ferc1" "utility_plant_net",
      mkNodeId "plant_in_service_ferc1" "additions") (nx.edges subtree_seeded)
  /\ ~ In (mkNodeId "balance_sheet_assets_ferc1" "assets_and_other_debits",
           mkNodeId "utility_plant_summary_ferc1" "utility_plant_net")
          (nx.edges subtree_seeded).
Proof.
  split.
  - apply (seeded_digraph_is_the_full_digraph_below_the_seeds
             subtree_self tree_full subtree_seeded);
      [vm_compute; reflexivity .. |].
    split.
    + right. left. reflexivity.
    + left. left. reflexivity.
  - intros H. vm_compute in H. intuition discriminate.
Defined.

(** ** Pruning: what it keeps *)

Lemma add_node_present (g : nx.DiGraph) (n : NodeId) :
  In n (nx.node_list g) -> nx.add_node g n = g.
Proof.
  intros H. unfold nx.add_node, nx.has_node.
  rewrite (proj2 (node_in_In n (nx.node_list g)) H). reflexivity.
Qed.

Lemma nodes_add_edge_present (g : nx.DiGraph) (u v : NodeId) :
  In u (nx.node_list g) -> In v (nx.node_list g) ->
  nx.nodes (nx.add_edge g u v) = nx.nodes g.
Proof.
  intros Hu Hv. rewrite nodes_add_edge, (add_node_present g u Hu).
  rewrite (add_node_present g v Hv). reflexivity.
Qed.

(** One turn of the loop of [forest] that does not raise. *)
Lemma splice_step (f f' : nx.DiGraph) (node : NodeId) :
  nx.closed f ->
  XbrlCalculationForestFerc1.splice f node = Ok f' ->
  exists p c,
    nx.pred_list f node = [p]
    /\ List.length (nx.succ_list f node) = 2
    /\ filter XbrlCalculationForestFerc1.not_correction (nx.succ_list f node) = [c]
    /\ In (p, node) (nx.edges f)
    /\ In (node, c) (nx.edges f)
    /\ XbrlCalculationForestFerc1.not_correction c = true
    /\ nx.nodes f' = nx.nodes f
    /\ nx.closed f'
    /\ forall x y, In (x, y) (nx.edges f') <-> In (x, y) (nx.edges f) \/ (x, y) = (p, c).
Proof.
  intros Hcl H. destruct (splice_Ok _ _ _ H) as (p & c & Hp & Hlen & Hc & ->).
  assert (In (p, node) (nx.edges f)) as Hpe.
  { apply In_pred_list. rewrite Hp. left; reflexivity. }
  assert (In c (filter XbrlCalculationForestFerc1.not_correction (nx.succ_list f node)))
    as Hcf by (rewrite Hc; left; reflexivity).
  apply filter_In in Hcf. destruct Hcf as [Hce Hnc]. apply In_succ_list in Hce.
  exists p, c. do 6 (split; [assumption|]). split; [|split].
  - apply nodes_add_edge_present.
    + exact (proj1 (Hcl _ _ Hpe)).
    + exact (proj2 (Hcl _ _ Hce)).
  - apply closed_add_edge. exact Hcl.
  - intros x y. apply In_edges_add_edge.
Qed.

Lemma prune_steps (pts : list NodeId) :
  forall g f,
    nx.closed g ->
    XbrlCalculationForestFerc1.prune g pts = Ok f ->
    nx.nodes f = nx.nodes g
    /\ nx.closed f
    /\ (forall x y, In (x, y) (nx.edges g) -> In (x, y) (nx.edges f))
    /\ (forall x y, In (x, y) (nx.edges f) ->
                    In (x, y) (nx.edges g)
                    \/ exists b, In b pts
                                 /\ In (x, b) (nx.edges f) /\ In (b, y) (nx.edges f)
                                 /\ XbrlCalculationForestFerc1.not_correction y = true).
Proof.
  unfold XbrlCalculationForestFerc1.prune.
  induction pts as [|b pts IH]; intros g f Hcl H; simpl in H.
  - inversion H; subst f. split; [reflexivity|]. split; [exact Hcl|]. split; auto.
  - apply bind_Ok in H. destruct H as (g1 & Hb & H).
    destruct (splice_step _ _ _ Hcl Hb)
      as (p & c & _ & _ & _ & Hpe & Hce & Hnc & Hnodes & Hcl1 & Hedges).
    destruct (IH g1 f Hcl1 H) as (Hn & Hclf & Hkeep & Hnew).
    split; [|split; [|split]].
    + rewrite Hn. exact Hnodes.
    + exact Hclf.
    + intros x y Hxy. apply Hkeep, Hedges. left; exact Hxy.
    + intros x y Hxy. destruct (Hnew x y Hxy) as [H1 | (b' & Hb' & H1)].
      * apply Hedges in H1. destruct H1 as [H1 | H1]; [left; exact H1|].
        inversion H1; subst x y. right. exists b. repeat split.
        -- left; reflexivity.
        -- apply Hkeep, Hedges. left; exact Hpe.
        -- apply Hkeep, Hedges. left; exact Hce.
        -- exact Hnc.
      * right. exists b'. split; [right; exact Hb' | exact H1].
Qed.

Lemma forest_Ok (self : XbrlCalculationForestFerc1.t) (f : nx.DiGraph) :
  XbrlCalculationForestFerc1.forest self = Ok f ->
  exists g,
    XbrlCalculationForestFerc1.seeded_digraph self = Ok g
    /\ XbrlCalculationForestFerc1.prune g (XbrlCalculationForestFerc1.passthroughs_of g)
       = Ok f.
Proof.
  intros H.
  destruct (XbrlCalculationForestFerc1.seeded_digraph self) as [g|e] eqn:Hg.
  - exists g. split; [reflexivity|].
    exact (proj1 (proj1 (forest_is_pruned self g f Hg) H)).
  - unfold XbrlCalculationForestFerc1.forest in H. rewrite Hg in H. discriminate.
Qed.

(** X8.  The pruning removes nothing: the forest has the nodes of the seeded
    digraph, with their attributes and in the same order, and every edge of
    the seeded digraph; every other edge of the forest runs from the parent
    to a child without the correction suffix of a passthrough that is itself
    still in the forest with both edges. *)
Theorem forest_keeps_the_seeded_digraph
    (self : XbrlCalculationForestFerc1.t) (g f : nx.DiGraph) :
  XbrlCalculationForestFerc1.seeded_digraph self = Ok g ->
  XbrlCalculationForestFerc1.forest self = Ok f ->
  nx.nodes f = nx.nodes g
  /\ (forall u v, In (u, v) (nx.edges g) -> In (u, v) (nx.edges f))
  /\ (forall u v, In (u, v) (nx.edges f) ->
                  In (u, v) (nx.edges g)
                  \/ exists b, In b (XbrlCalculationForestFerc1.passthroughs_of g)
                               /\ In b (nx.node_list f)
                               /\ In (u, b) (nx.edges f) /\ In (b, v) (nx.edges f)
                               /\ XbrlCalculationForestFerc1.not_correction v = true).
Proof.
  intros Hg Hf. destruct (forest_Ok _ _ Hf) as (g' & Hg' & Hprune).
  assert (g' = g) as -> by congruence.
  destruct (prune_steps _ _ _ (seeded_digraph_closed _ _ Hg) Hprune)
    as (Hn & Hcl & Hkeep & Hnew).
  split; [exact Hn|]. split; [exact Hkeep|].
  intros u v Huv. destruct (Hnew u v Huv) as [H | (b & Hb & Hub & Hbv & Hnc)].
  - left; exact H.
  - right. exists b. repeat split; try assumption.
    exact (proj2 (Hcl _ _ Hub)).
Qed.

Lemma forest_keeps_the_seeded_digraph_witness :
  nx.nodes passthrough_forest = nx.nodes passthrough_seeded.
Proof.
  refine (proj1 (forest_keeps_the_seeded_digraph
                   passthrough_self passthrough_seeded passthrough_forest _ _));
    vm_compute; reflexivity.
Defined.

(** X9.  [pruned] lists exactly the nodes of the full digraph that the
    seeding left out, in the order of the full digraph: no passthrough is
    ever among them on account of the pruning. *)
Theorem pruned_is_what_the_seeding_left_out
    (self : XbrlCalculationForestFerc1.t) (full g : nx.DiGraph) (l : list NodeId) :
  XbrlCalculationForestFerc1.full_digraph self = Ok full ->
  XbrlCalculationForestFerc1.seeded_digraph self = Ok g ->
  XbrlCalculationForestFerc1.pruned self = Ok l ->
  l = filter (fun n => negb (nx.has_node g n)) (nx.node_list full).
Proof.
  intros Hfull Hg Hl. unfold XbrlCalculationForestFerc1.pruned in Hl.
  rewrite Hfull in Hl. simpl in Hl.
  apply bind_Ok in Hl. destruct Hl as (f & Hf & Hl). inversion Hl; subst l.
  destruct (forest_Ok _ _ Hf) as (g' & Hg' & Hprune).
  assert (g' = g) as -> by congruence.
  destruct (prune_steps _ _ _ (seeded_digraph_closed _ _ Hg) Hprune) as (Hn & _).
  unfold nx.has_node, nx.node_list. rewrite Hn. reflexivity.
Qed.

Lemma pruned_is_what_the_seeding_left_out_witness :
  [mkNodeId "balance_sheet_assets_ferc1" "assets_and_other_debits"]
  = filter (fun n => negb (nx.has_node subtree_seeded n)) (nx.node_list tree_full).
Proof.
  apply (pruned_is_what_the_seeding_left_out subtree_self tree_full subtree_seeded);
    vm_compute; reflexivity.
Defined.

(** ** Passthroughs *)

Lemma is_correction_of_eq (node child : NodeId) :
  XbrlCalculationForestFerc1.is_correction_of node child = true
  <-> child = XbrlCalculationForestFerc1.correction_node node.
Proof.
  unfold XbrlCalculationForestFerc1.is_correction_of,
    XbrlCalculationForestFerc1.correction_node.
  destruct node as [t f], child as [t' f']; simpl.
  rewrite andb_true_iff, !String.eqb_eq. split.
  - intros [-> ->]. reflexivity.
  - intros H; inversion H; auto.
Qed.

Lemma In_passthroughs_of (g : nx.DiGraph) (n : NodeId) :
  In n (XbrlCalculationForestFerc1.passthroughs_of g)
  <-> In n (nx.node_list g)
      /\ nx.in_degree g n = 1
      /\ nx.out_degree g n = 2
      /\ In (XbrlCalculationForestFerc1.correction_node n) (nx.succ_list g n).
Proof.
  unfold XbrlCalculationForestFerc1.passthroughs_of. cbv zeta.
  rewrite !filter_In, Nat.eqb_eq, node_in_In, in_flat_map. split.
  - intros ((Hn & Hin) & (x & Hx & Hx')).
    apply filter_In in Hx. destruct Hx as [_ Hout]. apply Nat.eqb_eq in Hout.
    apply in_flat_map in Hx'. destruct Hx' as (child & Hchild & Hc).
    destruct (XbrlCalculationForestFerc1.is_correction_of x child) eqn:E;
      [|contradiction].
    destruct Hc as [Hc | []]. subst x.
    apply is_correction_of_eq in E. subst child. auto.
  - intros (Hn & Hin & Hout & Hc). split; [auto|]. exists n. split.
    + apply filter_In. split; [exact Hn | apply Nat.eqb_eq; exact Hout].
    + apply in_flat_map. exists (XbrlCalculationForestFerc1.correction_node n).
      split; [exact Hc|].
      rewrite (proj2 (is_correction_of_eq n _) eq_refl). left; reflexivity.
Qed.

(** X10.  The passthroughs are exactly the nodes of the seeded digraph with
    one parent and two children one of which is the node's own correction
    (its table, its factoid followed by [_correction]); nothing is asked of
    the other child. *)
Theorem passthroughs_have_one_parent_and_their_own_correction
    (self : XbrlCalculationForestFerc1.t) (g : nx.DiGraph) (pts : list NodeId)
    (n : NodeId) :
  XbrlCalculationForestFerc1.seeded_digraph self = Ok g ->
  XbrlCalculationForestFerc1.passthroughs self = Ok pts ->
  In n pts
  <-> In n (nx.node_list g)
      /\ List.length (nx.pred_list g n) = 1
      /\ List.length (nx.succ_list g n) = 2
      /\ In (n, mkNodeId (source_table n) (node_factoid n ++ "_correction"))
            (nx.edges g).
Proof.
  intros Hg Hp. unfold XbrlCalculationForestFerc1.passthroughs in Hp.
  rewrite Hg in Hp. simpl in Hp. inversion Hp; subst pts.
  rewrite In_passthroughs_of, In_succ_list. reflexivity.
Qed.

Lemma passthroughs_have_one_parent_and_their_own_correction_witness :
  In node_b [node_b]
  <-> In node_b (nx.node_list passthrough_seeded)
      /\ List.length (nx.pred_list passthrough_seeded node_b) = 1
      /\ List.length (nx.succ_list passthrough_seeded node_b) = 2
      /\ In (node_b,
             mkNodeId (source_table node_b) (node_factoid node_b ++ "_correction"))
            (nx.edges passthrough_seeded).
Proof.
  apply (passthroughs_have_one_parent_and_their_own_correction passthrough_self);
    vm_compute; reflexivity.
Defined.

(** ** Chains of passthroughs *)

Lemma string_length_append (s t : string) :
  String.length (s ++ t) = String.length s + String.length t.
Proof. induction s as [|c s IH]; simpl; [reflexivity | rewrite IH; reflexivity]. Qed.

Lemma correction_node_neq (n : NodeId) :
  n <> XbrlCalculationForestFerc1.correction_node n.
Proof.
  destruct n as [t f]. unfold XbrlCalculationForestFerc1.correction_node. simpl.
  intros H. inversion H as [Hf]. apply (f_equal String.length) in Hf.
  rewrite string_length_append in Hf. simpl in Hf. lia.
Qed.

Lemma not_correction_correction_node (n : NodeId) :
  XbrlCalculationForestFerc1.not_correction
    (XbrlCalculationForestFerc1.correction_node n) = false.
Proof.
  unfold XbrlCalculationForestFerc1.not_correction,
    XbrlCalculationForestFerc1.correction_node. simpl.
  rewrite endswith_app. reflexivity.
Qed.

Lemma two_distinct_length (l : list NodeId) (a b : NodeId) :
  In a l -> In b l -> a <> b -> 2 <= List.length l.
Proof.
  intros Ha Hb Hab.
  apply (NoDup_incl_length (l := [a; b])).
  - constructor; [intros [H | []]; congruence|]. constructor; [intros []|constructor].
  - intros x [<- | [<- | []]]; assumption.
Qed.

Lemma three_distinct_length (l : list NodeId) (a b c : NodeId) :
  In a l -> In b l -> In c l -> a <> b -> a <> c -> b <> c -> 3 <= List.length l.
Proof.
  intros Ha Hb Hc Hab Hac Hbc.
  apply (NoDup_incl_length (l := [a; b; c])).
  - constructor; [intros [H | [H | []]]; congruence|].
    constructor; [intros [H | []]; congruence|].
    constructor; [intros []|constructor].
  - intros x [<- | [<- | [<- | []]]]; assumption.
Qed.

(** The loop of [forest] raises nothing but an [AssertionError] at a node
    of the graph. *)
Lemma splice_Raise (f : nx.DiGraph) (node : NodeId) (e : exn) :
  In node (nx.node_list f) ->
  XbrlCalculationForestFerc1.splice f node = Raise e ->
  kind e = AssertionError.
Proof.
  intros Hn. unfold XbrlCalculationForestFerc1.splice, nx.predecessors, nx.successors,
    nx.list_of_iter, nx.has_node.
  rewrite (proj2 (node_in_In _ _) Hn). cbn [bind]. unfold assert.
  destruct (nx.pred_list f node) as [|p [|? ?]]; simpl;
    try (intros H; inversion H; reflexivity).
  destruct (Nat.eqb (List.length (nx.succ_list f node)) 2); simpl;
    try (intros H; inversion H; reflexivity).
  destruct (filter _ (nx.succ_list f node)) as [|c [|? ?]]; simpl;
    try (intros H; inversion H; reflexivity).
Qed.

Lemma pruning_of_splice (g f f' : nx.DiGraph) (b : NodeId) :
  pruning_of g f ->
  XbrlCalculationForestFerc1.splice f b = Ok f' ->
  pruning_of g f'
  /\ forall x y, In (x, y) (nx.edges f) -> In (x, y) (nx.edges f').
Proof.
  intros (Hcl & Hn & Hsub) H.
  destruct (splice_step _ _ _ Hcl H)
    as (p & c & _ & _ & _ & _ & _ & _ & Hnodes & Hcl' & Hedges).
  split; [split; [exact Hcl'|split]|].
  - rewrite Hnodes. exact Hn.
  - intros x y Hxy. apply Hedges. left. apply Hsub. exact Hxy.
  - intros x y Hxy. apply Hedges. left. exact Hxy.
Qed.

Section PruneRaises.

Variable g : nx.DiGraph.
Variable Bad : nx.DiGraph -> Prop.
Variable X : NodeId.

Hypothesis Bad_kept :
  forall f f', Bad f -> (forall x y, In (x, y) (nx.edges f) -> In (x, y) (nx.edges f')) ->
               Bad f'.
Hypothesis Bad_blocks :
  forall f f', Bad f -> XbrlCalculationForestFerc1.splice f X <> Ok f'.

Lemma prune_raises_once_bad (pts : list NodeId) :
  forall f,
    pruning_of g f -> Bad f -> In X pts -> incl pts (nx.node_list g) ->
    exists e, XbrlCalculationForestFerc1.prune f pts = Raise e
              /\ kind e = AssertionError.
Proof.
  unfold XbrlCalculationForestFerc1.prune.
  induction pts as [|b pts IH]; intros f Hf Hbad HX Hincl; [contradiction|].
  simpl. destruct (XbrlCalculationForestFerc1.splice f b) as [f'|e] eqn:E; simpl.
  - destruct HX as [-> | HX]; [exfalso; exact (Bad_blocks _ _ Hbad E)|].
    destruct (pruning_of_splice _ _ _ _ Hf E) as [Hf' Hgrow].
    apply IH; try assumption.
    + exact (Bad_kept _ _ Hbad Hgrow).
    + intros x Hx. apply Hincl. right; exact Hx.
  - exists e. split; [reflexivity|]. apply (splice_Raise f b); [|exact E].
    destruct Hf as (_ & Hn & _). unfold nx.node_list. rewrite Hn.
    apply Hincl. left; reflexivity.
Qed.

End PruneRaises.

Lemma prune_chain_raises (g : nx.DiGraph) (B C : NodeId) :
  In (B, C) (nx.edges g) ->
  In (B, XbrlCalculationForestFerc1.correction_node B) (nx.edges g) ->
  B <> C ->
  XbrlCalculationForestFerc1.not_correction C = true ->
  forall pts f,
    pruning_of g f -> In B pts -> In C pts -> incl pts (nx.node_list g) ->
    exists e, XbrlCalculationForestFerc1.prune f pts = Raise e
              /\ kind e = AssertionError.
Proof.
  intros HBC HBcorr Hneq HncC.
  assert (C <> XbrlCalculationForestFerc1.correction_node B) as HCcorr.
  { intros ->. rewrite not_correction_correction_node in HncC. discriminate. }
  induction pts as [|b pts IH]; intros f Hf HB HC Hincl; [contradiction|].
  assert (incl pts (nx.node_list g)) as Hincl'
      by (intros x Hx; apply Hincl; right; exact Hx).
  destruct (XbrlCalculationForestFerc1.splice f b) as [f'|e] eqn:E.
  2:{ exists e. unfold XbrlCalculationForestFerc1.prune. simpl. rewrite E.
      split; [reflexivity|]. apply (splice_Raise f b); [|exact E].
      destruct Hf as (_ & Hn & _). unfold nx.node_list. rewrite Hn.
      apply Hincl. left; reflexivity. }
  destruct (pruning_of_splice _ _ _ _ Hf E) as [Hf' Hgrow].
  assert (XbrlCalculationForestFerc1.prune f (b :: pts)
          = XbrlCalculationForestFerc1.prune f' pts) as ->
      by (unfold XbrlCalculationForestFerc1.prune; simpl; rewrite E; reflexivity).
  destruct Hf as (Hcl & Hn & Hsub).
  destruct (splice_step _ _ _ Hcl E)
    as (p & c & Hp & Hlen & Hc & Hpe & Hce & Hnc & _ & _ & Hedges).
  destruct (NodeId_eqb b B) eqn:EB; [|destruct (NodeId_eqb b C) eqn:EC].
  - apply NodeId_eqb_eq in EB. subst b.
    assert (c = C) as ->.
    { assert (In C (filter XbrlCalculationForestFerc1.not_correction
                           (nx.succ_list f B))) as H.
      { apply filter_In. split; [apply In_succ_list, Hsub; exact HBC | exact HncC]. }
      rewrite Hc in H. destruct H as [H | []]. exact H. }
    assert (p <> B) as HpB.
    { intros ->.
      pose proof (three_distinct_length
                    (nx.succ_list f B) B C
                    (XbrlCalculationForestFerc1.correction_node B)) as H3.
      rewrite !In_succ_list in H3.
      specialize (H3 Hpe (Hsub _ _ HBC) (Hsub _ _ HBcorr) Hneq
                     (correction_node_neq B) HCcorr).
      lia. }
    destruct HC as [HC | HC]; [congruence|].
    apply (prune_raises_once_bad g
             (fun f => exists q, q <> B /\ In (q, C) (nx.edges f)
                                 /\ In (B, C) (nx.edges f)) C);
      try assumption.
    + intros f1 f2 (q & Hq & H1 & H2) Hg. exists q. auto.
    + intros f1 f2 (q & Hq & H1 & H2) Hs.
      destruct (splice_Ok _ _ _ Hs) as (p' & c' & Hp' & _).
      apply In_pred_list in H1, H2. rewrite Hp' in H1, H2.
      destruct H1 as [H1 | []], H2 as [H2 | []]. congruence.
    + exists p. split; [exact HpB|]. split; apply Hedges.
      * right; reflexivity.
      * left. apply Hsub. exact HBC.
  - apply NodeId_eqb_eq in EC. subst b.
    assert (p = B) as ->.
    { assert (In B (nx.pred_list f C)) as H
          by (apply In_pred_list, Hsub; exact HBC).
      rewrite Hp in H. destruct H as [H | []]. exact H. }
    assert (c <> C) as HcC.
    { intros ->. apply In_pred_list in Hce. rewrite Hp in Hce.
      destruct Hce as [H | []]. congruence. }
    assert (c <> XbrlCalculationForestFerc1.correction_node B) as Hccorr.
    { intros ->. rewrite not_correction_correction_node in Hnc. discriminate. }
    destruct HB as [HB | HB]; [congruence|].
    apply (prune_raises_once_bad g
             (fun f => exists d,
                         d <> C
                         /\ d <> XbrlCalculationForestFerc1.correction_node B
                         /\ In (B, d) (nx.edges f)
                         /\ In (B, C) (nx.edges f)
                         /\ In (B, XbrlCalculationForestFerc1.correction_node B)
                               (nx.edges f)) B);
      try assumption.
    + intros f1 f2 (d & Hd1 & Hd2 & H1 & H2 & H3) Hg. exists d. auto 6.
    + intros f1 f2 (d & Hd1 & Hd2 & H1 & H2 & H3) Hs.
      destruct (splice_Ok _ _ _ Hs) as (p' & c' & _ & Hlen' & _).
      pose proof (three_distinct_length
                    (nx.succ_list f1 B) d C
                    (XbrlCalculationForestFerc1.correction_node B)) as Hthree.
      rewrite !In_succ_list in Hthree.
      specialize (Hthree H1 H2 H3 Hd1 Hd2 HCcorr). lia.
    + exists c. split; [exact HcC|]. split; [exact Hccorr|].
      split; [|split]; apply Hedges.
      * right; reflexivity.
      * left. apply Hsub. exact HBC.
      * left. apply Hsub. exact HBcorr.
  - apply NodeId_eqb_neq in EB, EC. apply IH; try assumption.
    + destruct HB as [HB | HB]; [congruence | exact HB].
    + destruct HC as [HC | HC]; [congruence | exact HC].
Qed.

(** X11.  Two passthroughs in a chain make the pruning fail: when a
    passthrough has a child, other than itself and without the correction
    suffix, that is a passthrough too, [forest] raises an [AssertionError],
    in whatever order the passthroughs are visited. *)
Theorem forest_raises_on_chained_passthroughs
    (self : XbrlCalculationForestFerc1.t) (g : nx.DiGraph) (B C : NodeId) :
  XbrlCalculationForestFerc1.seeded_digraph self = Ok g ->
  In B (XbrlCalculationForestFerc1.passthroughs_of g) ->
  In C (XbrlCalculationForestFerc1.passthroughs_of g) ->
  In (B, C) (nx.edges g) ->
  B <> C ->
  Py.endswith (node_factoid C) "_correction" = false ->
  (forall pts,
      (forall n, In n pts <-> In n (XbrlCalculationForestFerc1.passthroughs_of g)) ->
      exists e, XbrlCalculationForestFerc1.prune g pts = Raise e
                /\ kind e = AssertionError)
  /\ exists e, XbrlCalculationForestFerc1.forest self = Raise e
               /\ kind e = AssertionError.
Proof.
  intros Hg HB HC HBC Hneq Hnc.
  assert (forall pts,
             (forall n, In n pts
                        <-> In n (XbrlCalculationForestFerc1.passthroughs_of g)) ->
             exists e, XbrlCalculationForestFerc1.prune g pts = Raise e
                       /\ kind e = AssertionError) as Hall.
  { intros pts Hpts.
    apply (prune_chain_raises g B C); try assumption.
    - apply In_succ_list. apply (In_passthroughs_of g B). exact HB.
    - unfold XbrlCalculationForestFerc1.not_correction. rewrite Hnc. reflexivity.
    - split; [exact (seeded_digraph_closed _ _ Hg)|]. split; [reflexivity | auto].
    - apply Hpts. exact HB.
    - apply Hpts. exact HC.
    - intros n Hn. apply Hpts in Hn. apply (In_passthroughs_of g n). exact Hn. }
  split; [exact Hall|].
  destruct (Hall (XbrlCalculationForestFerc1.passthroughs_of g))
    as (e & He & Hk); [intros n; reflexivity|].
  exists e. split; [|exact Hk].
  unfold XbrlCalculationForestFerc1.forest, XbrlCalculationForestFerc1.passthroughs.
  rewrite Hg. cbn [bind]. rewrite He. reflexivity.
Qed.

Lemma forest_raises_on_chained_passthroughs_witness :
  exists e, XbrlCalculationForestFerc1.forest chained_self = Raise e
            /\ kind e = AssertionError.
Proof.
  refine (proj2 (forest_raises_on_chained_passthroughs
                   chained_self chained_seeded node_b node_c _ _ _ _ _ _)).
  - vm_compute. reflexivity.
  - vm_compute. left. reflexivity.
  - vm_compute. right. left. reflexivity.
  - vm_compute. right. left. reflexivity.
  - discriminate.
  - vm_compute. reflexivity.
Defined.

(** ** Roots and leaves under pruning *)

Lemma prune_ends (pts : list NodeId) :
  forall g f,
    nx.closed g ->
    XbrlCalculationForestFerc1.prune g pts = Ok f ->
    forall x y, In (x, y) (nx.edges f) ->
                (exists y', In (x, y') (nx.edges g))
                /\ (exists x', In (x', y) (nx.edges g)).
Proof.
  unfold XbrlCalculationForestFerc1.prune.
  induction pts as [|b pts IH]; intros g f Hcl H x y Hxy; simpl in H.
  - inversion H; subst f. split; [exists y | exists x]; exact Hxy.
  - apply bind_Ok in H. destruct H as (g1 & Hb & H).
    destruct (splice_step _ _ _ Hcl Hb)
      as (p & c & _ & _ & _ & Hpe & Hce & _ & _ & Hcl1 & Hedges).
    destruct (IH g1 f Hcl1 H x y Hxy) as ((y' & Hy') & (x' & Hx')).
    split.
    + apply Hedges in Hy'. destruct Hy' as [Hy' | Hy'].
      * exists y'. exact Hy'.
      * inversion Hy'; subst. exists b. exact Hpe.
    + apply Hedges in Hx'. destruct Hx' as [Hx' | Hx'].
      * exists x'. exact Hx'.
      * inversion Hx'; subst. exists b. exact Hce.
Qed.

Lemma length_zero_iff_no_member {A : Type} (l : list A) :
  List.length l = 0 <-> forall x, ~ In x l.
Proof.
  destruct l as [|a l]; simpl; split; intros H.
  - intros x [].
  - reflexivity.
  - discriminate.
  - exfalso. apply (H a). left; reflexivity.
Qed.

(** X12.  The pruning changes neither the roots nor the leaves: the roots
    and the leaves of the forest are those of the seeded digraph, in the
    same order. *)
Theorem forest_has_the_roots_and_leaves_of_the_seeded_digraph
    (self : XbrlCalculationForestFerc1.t) (g : nx.DiGraph) (rs ls : list NodeId) :
  XbrlCalculationForestFerc1.seeded_digraph self = Ok g ->
  XbrlCalculationForestFerc1.forest_roots self = Ok rs ->
  XbrlCalculationForestFerc1.forest_leaves self = Ok ls ->
  rs = XbrlCalculationForestFerc1.roots g
  /\ ls = XbrlCalculationForestFerc1.leaves g.
Proof.
  intros Hg Hr Hl.
  unfold XbrlCalculationForestFerc1.forest_roots in Hr.
  unfold XbrlCalculationForestFerc1.forest_leaves in Hl.
  apply bind_Ok in Hr. destruct Hr as (f & Hf & Hr).
  rewrite Hf in Hl. simpl in Hl. inversion Hr; subst rs. inversion Hl; subst ls.
  destruct (forest_Ok _ _ Hf) as (g' & Hg' & Hprune).
  assert (g' = g) as -> by congruence.
  pose proof (seeded_digraph_closed _ _ Hg) as Hcl.
  destruct (prune_steps _ _ _ Hcl Hprune) as (Hn & _ & Hkeep & _).
  pose proof (prune_ends _ _ _ Hcl Hprune) as Hends.
  unfold XbrlCalculationForestFerc1.roots, XbrlCalculationForestFerc1.leaves,
    nx.node_list. rewrite Hn. split; apply filter_ext; intros n.
  - unfold nx.in_degree.
    destruct (Nat.eqb (List.length (nx.pred_list g n)) 0) eqn:E.
    + apply Nat.eqb_eq. apply Nat.eqb_eq in E.
      apply length_zero_iff_no_member. intros x Hx. apply In_pred_list in Hx.
      destruct (proj2 (Hends _ _ Hx)) as (x' & Hx').
      apply (proj1 (length_zero_iff_no_member _) E x').
      apply In_pred_list. exact Hx'.
    + apply Nat.eqb_neq. apply Nat.eqb_neq in E. intros H. apply E.
      apply length_zero_iff_no_member. intros x Hx. apply In_pred_list in Hx.
      apply (proj1 (length_zero_iff_no_member _) H x).
      apply In_pred_list, Hkeep. exact Hx.
  - unfold nx.out_degree.
    destruct (Nat.eqb (List.length (nx.succ_list g n)) 0) eqn:E.
    + apply Nat.eqb_eq. apply Nat.eqb_eq in E.
      apply length_zero_iff_no_member. intros x Hx. apply In_succ_list in Hx.
      destruct (proj1 (Hends _ _ Hx)) as (x' & Hx').
      apply (proj1 (length_zero_iff_no_member _) E x').
      apply In_succ_list. exact Hx'.
    + apply Nat.eqb_neq. apply Nat.eqb_neq in E. intros H. apply E.
      apply length_zero_iff_no_member. intros x Hx. apply In_succ_list in Hx.
      apply (proj1 (length_zero_iff_no_member _) H x).
      apply In_succ_list, Hkeep. exact Hx.
Qed.

Lemma forest_has_the_roots_and_leaves_of_the_seeded_digraph_witness :
  [node_a] = XbrlCalculationForestFerc1.roots passthrough_seeded
  /\ [node_c; XbrlCalculationForestFerc1.correction_node node_b]
     = XbrlCalculationForestFerc1.leaves passthrough_seeded.
Proof.
  apply (forest_has_the_roots_and_leaves_of_the_seeded_digraph passthrough_self);
    vm_compute; reflexivity.
Defined.

(** ** The rows of the leafy metadata *)

(** Dropping nodes from a graph leaves no node listed twice. *)
Lemma NoDup_nodes_kept (keep : NodeId * nx.NodeAttrs -> bool)
    (ns : list (NodeId * nx.NodeAttrs)) :
  NoDup (map fst ns) -> NoDup (map fst (filter keep ns)).
Proof.
  induction ns as [|n ns IH]; simpl; intros Hnd; [constructor|].
  inversion Hnd as [|? ? Hn Hns]; subst.
  destruct (keep n); simpl; [|apply IH; exact Hns].
  constructor; [|apply IH; exact Hns].
  intros Hin. apply Hn. apply in_map_iff in Hin. destruct Hin as (q & Hq & Hin).
  apply filter_In in Hin. rewrite <- Hq. apply in_map. exact (proj1 Hin).
Qed.

Lemma built_graph_NoDup (meta : list MetaRow) (tags : list (NodeId * nx.Tags))
    (g : nx.DiGraph) :
  XbrlCalculationForestFerc1.exploded_meta_to_digraph meta tags = Ok g ->
  NoDup (nx.node_list g).
Proof.
  intros H. destruct (exploded_meta_to_digraph_Ok _ _ _ H) as (forest & attrs & Hfold & ->).
  pose proof (XbrlCalculationForestFerc1.inv_nodup _ _ _ (builder_loop_invariant _ _ _ Hfold))
    as Hnd.
  simpl in Hnd. rewrite <- (node_list_set_node_attributes forest attrs) in Hnd.
  apply (NoDup_nodes_kept _ (nx.nodes (nx.set_node_attributes forest attrs))).
  exact Hnd.
Qed.

Lemma forest_NoDup (self : XbrlCalculationForestFerc1.t) (f : nx.DiGraph) :
  XbrlCalculationForestFerc1.forest self = Ok f -> NoDup (nx.node_list f).
Proof.
  intros Hf. destruct (forest_Ok _ _ Hf) as (g & Hg & Hprune).
  destruct (prune_steps _ _ _ (seeded_digraph_closed _ _ Hg) Hprune) as (Hn & _).
  unfold nx.node_list. rewrite Hn.
  unfold XbrlCalculationForestFerc1.seeded_digraph in Hg.
  apply bind_Ok in Hg. destruct Hg as (ns & _ & Hg).
  apply bind_Ok in Hg. destruct Hg as (meta & _ & Hg).
  exact (built_graph_NoDup _ _ _ Hg).
Qed.

Lemma dict_set_keys {V : Type} (m : list (NodeId * V)) (k : NodeId) (v : V) :
  map fst (Py.dict_set NodeId_eqb m k v)
  = if nx.node_in k (map fst m) then map fst m else map fst m ++ [k].
Proof.
  induction m as [|[k' v'] m IH]; simpl; [reflexivity|].
  rewrite (NodeId_eqb_sym k k'). destruct (NodeId_eqb k' k); simpl; [reflexivity|].
  rewrite IH. fold (nx.node_in k (map fst m)).
  destruct (nx.node_in k (map fst m)); reflexivity.
Qed.

Lemma dict_set_keys_In {V : Type} (m : list (NodeId * V)) (k x : NodeId) (v : V) :
  In x (map fst (Py.dict_set NodeId_eqb m k v)) <-> In x (map fst m) \/ x = k.
Proof.
  rewrite dict_set_keys. destruct (nx.node_in k (map fst m)) eqn:E.
  - apply node_in_In in E. split; [auto|]. intros [H | ->]; assumption.
  - rewrite in_app_iff. simpl. split; intros [H | H]; auto.
    destruct H as [<- | []]. right; reflexivity.
Qed.

Lemma dict_set_keys_NoDup {V : Type} (m : list (NodeId * V)) (k : NodeId) (v : V) :
  NoDup (map fst m) -> NoDup (map fst (Py.dict_set NodeId_eqb m k v)).
Proof.
  intros H. rewrite dict_set_keys. destruct (nx.node_in k (map fst m)) eqn:E.
  - exact H.
  - apply NoDup_app; [exact H | constructor; [intros [] | constructor] |].
    intros x Hx [<- | []]. apply node_in_In in Hx. congruence.
Qed.

(** The keys of the dictionary [leaf_to_root_map]: each leaf that is a
    descendant of a root, once. *)
Lemma leaf_to_root_map_keys (g : nx.DiGraph) (leaves roots : list NodeId)
    (m : list (NodeId * NodeId)) :
  XbrlCalculationForestFerc1.leaf_to_root_map g leaves roots = Ok m ->
  NoDup (map fst m)
  /\ forall leaf,
       In leaf (map fst m)
       <-> In leaf leaves
           /\ exists root d, In root roots /\ nx.descendants g root = Ok d /\ In leaf d.
Proof.
  intros H. split; [|intros leaf; split].
  - unfold XbrlCalculationForestFerc1.leaf_to_root_map in H.
    refine (foldM_invariant (fun m => NoDup (map fst m)) _ leaves [] m _ _ H).
    + intros m0 leaf m1 _ Hm0 Hinner.
      refine (foldM_invariant (fun m => NoDup (map fst m)) _ roots m0 m1 _ Hm0 Hinner).
      intros m2 root m3 _ Hm2 Hstep.
      apply bind_Ok in Hstep. destruct Hstep as (d & _ & Hstep).
      inversion Hstep; subst m3.
      destruct (nx.node_in leaf d); [apply dict_set_keys_NoDup|]; exact Hm2.
    + constructor.
  - intros Hin. apply in_map_iff in Hin. destruct Hin as ([l r] & <- & Hin). simpl.
    destruct (leaf_to_root_map_sound _ _ _ _ H l r Hin) as (Hl & Hr & d & Hd & Hld).
    split; [exact Hl|]. exists r, d. auto.
  - intros (Hleaf & root & d & Hroot & Hd & Hld).
    unfold XbrlCalculationForestFerc1.leaf_to_root_map in H.
    refine (foldM_each (fun leaf m =>
                          (exists root d, In root roots /\ nx.descendants g root = Ok d
                                          /\ In leaf d) ->
                          In leaf (map fst m)) _ leaves _ _ [] m H leaf Hleaf _).
    + intros m0 x m1 Hinner (root' & d' & Hroot' & Hd' & Hld').
      refine (foldM_each (fun root m =>
                            forall d, nx.descendants g root = Ok d -> In x d ->
                                      In x (map fst m)) _ roots _ _ m0 m1 Hinner
                         root' Hroot' d' Hd' Hld').
      * intros m2 r m3 Hstep d0 Hd0 Hx. rewrite Hd0 in Hstep. simpl in Hstep.
        inversion Hstep. rewrite (proj2 (node_in_In _ _) Hx).
        apply dict_set_keys_In. right; reflexivity.
      * intros m2 r m3 r0 Hr0 Hstep d0 Hd0 Hx.
        apply bind_Ok in Hstep. destruct Hstep as (d1 & _ & Hstep).
        inversion Hstep. specialize (Hr0 d0 Hd0 Hx).
        destruct (nx.node_in x d1); [apply dict_set_keys_In; left|]; exact Hr0.
    + intros m0 y m1 x Hx Hinner Hex. specialize (Hx Hex).
      refine (foldM_invariant (fun m => In x (map fst m)) _ roots m0 m1 _ Hx Hinner).
      intros m2 r m3 _ Hm2 Hstep.
      apply bind_Ok in Hstep. destruct Hstep as (d1 & _ & Hstep).
      inversion Hstep.
      destruct (nx.node_in y d1); [apply dict_set_keys_In; left|]; exact Hm2.
    + exists root, d. auto.
Qed.

Lemma leaf_rows_leaves (g : nx.DiGraph) (roots leaves : list NodeId) :
  forall lrs,
    Py.mapM (XbrlCalculationForestFerc1.leaf_row g roots) leaves = Ok lrs ->
    map (fun x => fst (fst (fst x))) lrs = leaves.
Proof.
  induction leaves as [|leaf leaves IH]; intros lrs H; simpl in H.
  - inversion H. reflexivity.
  - apply bind_Ok in H. destruct H as (y & Hy & H).
    apply bind_Ok in H. destruct H as (ys & Hys & H).
    inversion H; subst lrs. simpl. rewrite (IH ys Hys). f_equal.
    unfold XbrlCalculationForestFerc1.leaf_row in Hy.
    apply bind_Ok in Hy. destruct Hy as (a & _ & Hy).
    apply bind_Ok in Hy. destruct Hy as (anc & _ & Hy).
    apply bind_Ok in Hy. destruct Hy as (acc & _ & Hy).
    apply bind_Ok in Hy. destruct Hy as (orig & _ & Hy).
    inversion Hy. reflexivity.
Qed.

Lemma leaf_rows_of_key (lrs : list (NodeId * string * float * nx.Tags))
    (k root : NodeId) :
  NoDup (map (fun x => fst (fst (fst x))) lrs) ->
  In k (map (fun x => fst (fst (fst x))) lrs) ->
  map leaf_node
      (map (fun '(leaf, original, w, tg) => mkLeaf leaf root original w tg)
           (filter (fun '(leaf, _, _, _) => NodeId_eqb leaf k) lrs))
  = [k].
Proof.
  induction lrs as [|[[[l o] w] t] lrs IH]; simpl; intros Hnd Hk; [contradiction|].
  inversion Hnd as [|? ? Hl Hnd']; subst.
  destruct (NodeId_eqb l k) eqn:E.
  - apply NodeId_eqb_eq in E. subst l. simpl. f_equal.
    assert (filter (fun '(leaf, _, _, _) => NodeId_eqb leaf k) lrs = []) as ->;
      [|reflexivity].
    clear IH Hnd Hnd' Hk. induction lrs as [|[[[l o'] w'] t'] lrs IH]; [reflexivity|].
    simpl in *. destruct (NodeId_eqb l k) eqn:E.
    + apply NodeId_eqb_eq in E. exfalso. apply Hl. left; exact E.
    + apply IH. intros H. apply Hl. right; exact H.
  - apply NodeId_eqb_neq in E. destruct Hk as [Hk | Hk]; [congruence|].
    apply IH; assumption.
Qed.

Lemma path_last_edge (g : nx.DiGraph) (u v : NodeId) :
  nx.path g u v -> exists x, In (x, v) (nx.edges g).
Proof.
  induction 1 as [u v H | u v w H _ IH]; [exists u; exact H | exact IH].
Qed.

(** X13.  The leafy metadata has one row for each leaf of the forest that
    descends from a root of the forest, and no other row. *)
Theorem leafy_meta_lists_each_leaf_under_a_root_once
    (self : XbrlCalculationForestFerc1.t) (f : nx.DiGraph) (meta : list LeafRow) :
  XbrlCalculationForestFerc1.forest self = Ok f ->
  XbrlCalculationForestFerc1.leafy_meta self = Ok meta ->
  NoDup (map leaf_node meta)
  /\ forall leaf,
       In leaf (map leaf_node meta)
       <-> In leaf (XbrlCalculationForestFerc1.leaves f)
           /\ exists root, In root (XbrlCalculationForestFerc1.roots f)
                           /\ nx.path f root leaf.
Proof.
  intros Hf Hmeta.
  pose proof (forest_closed self f Hf) as Hclosed.
  pose proof (forest_NoDup self f Hf) as Hnd.
  unfold XbrlCalculationForestFerc1.leafy_meta,
    XbrlCalculationForestFerc1.forest_leaves,
    XbrlCalculationForestFerc1.forest_roots in Hmeta.
  rewrite Hf in Hmeta. cbn [bind] in Hmeta.
  apply bind_Ok in Hmeta. destruct Hmeta as (m & Hm & Hmeta).
  apply bind_Ok in Hmeta. destruct Hmeta as (lrs & Hlrs & Hmeta).
  destruct (leaf_to_root_map_keys _ _ _ _ Hm) as [Hkeys Hspec].
  pose proof (leaf_rows_leaves _ _ _ _ Hlrs) as Hleaves.
  assert (NoDup (XbrlCalculationForestFerc1.leaves f)) as Hndl
      by (apply NoDup_filter; exact Hnd).
  assert (map leaf_node meta = map fst m) as ->.
  { assert (meta
            = flat_map
                (fun lr =>
                   map (fun '(leaf, original, w, tg) =>
                          mkLeaf leaf (snd lr) original w tg)
                       (filter (fun '(leaf, _, _, _) => NodeId_eqb leaf (fst lr)) lrs))
                m) as ->.
    { destruct lrs as [|x xs]; [discriminate|].
      destruct m as [|y ys]; [discriminate|].
      inversion Hmeta; reflexivity. }
    clear Hmeta Hm Hkeys.
    assert (forall k, In k (map fst m) ->
                      In k (map (fun x => fst (fst (fst x))) lrs)) as Hsub.
    { intros k Hk. rewrite Hleaves. exact (proj1 (proj1 (Hspec k) Hk)). }
    clear Hspec. induction m as [|[k r] m IH]; [reflexivity|].
    simpl. rewrite map_app. rewrite IH by (intros k' Hk'; apply Hsub; right; exact Hk').
    rewrite leaf_rows_of_key; [reflexivity | rewrite Hleaves; exact Hndl |].
    apply Hsub. left; reflexivity. }
  split; [exact Hkeys|]. intros leaf. rewrite Hspec. split.
  - intros (Hleaf & root & d & Hroot & Hd & Hld). split; [exact Hleaf|].
    exists root. split; [exact Hroot|].
    apply (descendants_spec f root d Hclosed Hd). exact Hld.
  - intros (Hleaf & root & Hroot & Hpath). split; [exact Hleaf|].
    assert (nx.has_node f root = true) as Hnode.
    { apply filter_In in Hroot. apply node_in_In. exact (proj1 Hroot). }
    exists root, (nx.reachable f (nx.succ_list f) root).
    assert (nx.descendants f root = Ok (nx.reachable f (nx.succ_list f) root)) as Hd
        by (unfold nx.descendants; rewrite Hnode; reflexivity).
    split; [exact Hroot|]. split; [exact Hd|].
    apply (descendants_spec f root _ Hclosed Hd). split; [exact Hpath|].
    intros ->. destruct (path_last_edge _ _ _ Hpath) as (x & Hx).
    apply filter_In in Hroot. destruct Hroot as [_ Hdeg]. apply Nat.eqb_eq in Hdeg.
    apply (proj1 (length_zero_iff_no_member _) Hdeg x).
    apply In_pred_list. exact Hx.
Qed.

Lemma leafy_meta_lists_each_leaf_under_a_root_once_witness :
  NoDup (map leaf_node tree_leafy_meta).
Proof.
  refine (proj1 (leafy_meta_lists_each_leaf_under_a_root_once
                   tree_self tree_forest tree_leafy_meta _ _));
    vm_compute; reflexivity.
Defined.

(** ** The tags of a leaf *)

Section DictFacts.

Context {K V : Type} (eqb : K -> K -> bool).
Hypothesis eqb_eq : forall a b, eqb a b = true <-> a = b.

Lemma dict_set_from (d : list (K * V)) (k k' : K) (v v' : V) :
  In (k, v) (Py.dict_set eqb d k' v') -> (k = k' /\ v = v') \/ In (k, v) d.
Proof.
  induction d as [|[k0 v0] d IH]; simpl.
  - intros [H | []]. inversion H. left; split; reflexivity.
  - destruct (eqb k0 k') eqn:E.
    + apply eqb_eq in E. subst k0. intros [H | H].
      * inversion H. left; split; reflexivity.
      * right; right; exact H.
    + intros [H | H]; [right; left; exact H|].
      destruct (IH H) as [H' | H']; [left; exact H' | right; right; exact H'].
Qed.

Lemma dict_set_key (d : list (K * V)) (k : K) (v : V) :
  In (k, v) (Py.dict_set eqb d k v).
Proof.
  induction d as [|[k0 v0] d IH]; simpl; [left; reflexivity|].
  destruct (eqb k0 k) eqn:E.
  - apply eqb_eq in E. subst k0. left; reflexivity.
  - right; exact IH.
Qed.

Lemma dict_set_keeps_key (d : list (K * V)) (k k' : K) (v v' : V) :
  In (k, v) d -> exists v'', In (k, v'') (Py.dict_set eqb d k' v').
Proof.
  induction d as [|[k0 v0] d IH]; simpl; [intros []|].
  destruct (eqb k0 k') eqn:E; intros [H | H].
  - inversion H; subst. exists v'. left; reflexivity.
  - exists v. right; exact H.
  - exists v. left; exact H.
  - destruct (IH H) as (v'' & Hv''). exists v''. right; exact Hv''.
Qed.

Lemma dict_update_from (d2 : list (K * V)) :
  forall d1 k v, In (k, v) (Py.dict_update eqb d1 d2) -> In (k, v) d1 \/ In (k, v) d2.
Proof.
  unfold Py.dict_update.
  induction d2 as [|[k2 v2] d2 IH]; simpl; intros d1 k v H; [left; exact H|].
  destruct (IH _ _ _ H) as [H' | H']; [|right; right; exact H'].
  apply dict_set_from in H'. destruct H' as [[-> ->] | H'].
  - right; left; reflexivity.
  - left; exact H'.
Qed.

Lemma dict_update_keys (d2 : list (K * V)) :
  forall d1 k v, In (k, v) d1 \/ In (k, v) d2 ->
                 exists v', In (k, v') (Py.dict_update eqb d1 d2).
Proof.
  unfold Py.dict_update.
  induction d2 as [|[k2 v2] d2 IH]; simpl; intros d1 k v H.
  - destruct H as [H | []]. exists v. exact H.
  - destruct H as [H | [H | H]].
    + destruct (dict_set_keeps_key d1 k k2 v v2 H) as (v'' & Hv'').
      apply (IH _ k v''). left; exact Hv''.
    + inversion H; subst. apply (IH _ k v). left. apply dict_set_key.
    + apply (IH _ k v). right; exact H.
Qed.

End DictFacts.

(** What the loop of [leafy_meta] over the ancestors of a leaf gathers. *)
Lemma inherit_tags (g : nx.DiGraph) (roots : list NodeId) (anc : list NodeId) :
  forall tags0 w0 acc,
    Py.foldM (XbrlCalculationForestFerc1.inherit g roots) anc (tags0, w0) = Ok acc ->
    (forall k v, In (k, v) (fst acc) ->
                 In (k, v) tags0
                 \/ exists node a t,
                      In node anc /\ nx.node_attrs g node = Some a
                      /\ nx.attr_tags a = Some t /\ In (k, v) t)
    /\ (forall k v, In (k, v) tags0 -> exists v', In (k, v') (fst acc))
    /\ (forall node a t k v,
           In node anc -> nx.node_attrs g node = Some a ->
           nx.attr_tags a = Some t -> In (k, v) t ->
           exists v', In (k, v') (fst acc)).
Proof.
  induction anc as [|n anc IH]; intros tags0 w0 acc H; simpl in H.
  - inversion H; subst acc. simpl. split; [auto|]. split.
    + intros k v Hkv. exists v. exact Hkv.
    + intros node a t k v [].
  - apply bind_Ok in H. destruct H as ([tags1 w1] & Hstep & H).
    unfold XbrlCalculationForestFerc1.inherit in Hstep.
    apply bind_Ok in Hstep. destruct Hstep as (a & Ha & Hstep).
    apply bind_Ok in Hstep. destruct Hstep as (t & Ht & Hstep).
    apply bind_Ok in Hstep. destruct Hstep as (nw & _ & Hstep).
    inversion Hstep; subst tags1 w1. clear Hstep.
    assert (nx.node_attrs g n = Some a) as Ha'.
    { unfold XbrlCalculationForestFerc1.get_attrs in Ha.
      destruct (nx.node_attrs g n); [inversion Ha; reflexivity | discriminate]. }
    assert (nx.attr_tags a = Some t) as Ht'.
    { unfold XbrlCalculationForestFerc1.get_key in Ht.
      destruct (nx.attr_tags a); [inversion Ht; reflexivity | discriminate]. }
    destruct (IH _ _ _ H) as (Hfrom & Hold & Hnew).
    split; [|split].
    + intros k v Hkv. destruct (Hfrom k v Hkv) as [H0 | (node & a0 & t0 & Hn & H0)].
      * apply (dict_update_from String.eqb String.eqb_eq) in H0.
        destruct H0 as [H0 | H0]; [left; exact H0|].
        right. exists n, a, t. repeat split; try assumption. left; reflexivity.
      * right. exists node, a0, t0. split; [right; exact Hn | exact H0].
    + intros k v Hkv.
      destruct (dict_update_keys String.eqb String.eqb_eq t tags0 k v (or_introl Hkv))
        as (v' & Hv').
      exact (Hold k v' Hv').
    + intros node a0 t0 k v [<- | Hn] Ha0 Ht0 Hkv.
      * assert (a0 = a) by congruence. subst a0.
        assert (t0 = t) by congruence. subst t0.
        destruct (dict_update_keys String.eqb String.eqb_eq t tags0 k v (or_intror Hkv))
          as (v' & Hv').
        exact (Hold k v' Hv').
      * exact (Hnew node a0 t0 k v Hn Ha0 Ht0 Hkv).
Qed.

(** How a row of the leafy metadata is made. *)
Lemma leafy_meta_row (self : XbrlCalculationForestFerc1.t) (f : nx.DiGraph)
    (meta : list LeafRow) (row : LeafRow) :
  XbrlCalculationForestFerc1.forest self = Ok f ->
  XbrlCalculationForestFerc1.leafy_meta self = Ok meta ->
  In row meta ->
  exists a anc acc,
    nx.node_attrs f (leaf_node row) = Some a
    /\ nx.ancestors f (leaf_node row) = Ok anc
    /\ Py.foldM (XbrlCalculationForestFerc1.inherit
                   f (XbrlCalculationForestFerc1.roots f)) anc
                ([], XbrlCalculationForestFerc1.own_weight a) = Ok acc
    /\ leaf_tags row = fst acc
    /\ leaf_weight row = snd acc
    /\ nx.attr_xbrl_factoid_original a = Some (leaf_xbrl_factoid_original row).
Proof.
  intros Hf Hmeta Hrow.
  unfold XbrlCalculationForestFerc1.leafy_meta,
    XbrlCalculationForestFerc1.forest_leaves,
    XbrlCalculationForestFerc1.forest_roots in Hmeta.
  rewrite Hf in Hmeta. cbn [bind] in Hmeta.
  apply bind_Ok in Hmeta. destruct Hmeta as (m & Hm & Hmeta).
  apply bind_Ok in Hmeta. destruct Hmeta as (lrs & Hlrs & Hmeta).
  assert (In row
            (flat_map
               (fun lr =>
                  map (fun '(leaf, original, w, tg) => mkLeaf leaf (snd lr) original w tg)
                      (filter (fun '(leaf, _, _, _) => NodeId_eqb leaf (fst lr)) lrs))
               m)) as Hin.
  { destruct lrs as [|x xs]; [discriminate|].
    destruct m as [|y ys]; [discriminate|].
    inversion Hmeta; subst meta. exact Hrow. }
  clear Hmeta Hrow.
  apply in_flat_map in Hin. destruct Hin as ([leaf root] & Hlr & Hin).
  apply in_map_iff in Hin. destruct Hin as ([[[leaf' original] w] tg] & Erow & Hin).
  apply filter_In in Hin. destruct Hin as [Hin Eleaf].
  apply NodeId_eqb_eq in Eleaf. simpl in Eleaf. subst leaf'. subst row. simpl.
  destruct (mapM_In _ _ _ _ Hlrs Hin) as (x & Hx & Hrowx).
  unfold XbrlCalculationForestFerc1.leaf_row in Hrowx.
  apply bind_Ok in Hrowx. destruct Hrowx as (a & Ha & Hrowx).
  apply bind_Ok in Hrowx. destruct Hrowx as (anc & Hanc & Hrowx).
  apply bind_Ok in Hrowx. destruct Hrowx as (acc & Hacc & Hrowx).
  apply bind_Ok in Hrowx. destruct Hrowx as (orig & Horig & Hrowx).
  inversion Hrowx; subst x original w tg. clear Hrowx.
  exists a, anc, acc. split.
  { unfold XbrlCalculationForestFerc1.get_attrs in Ha.
    destruct (nx.node_attrs f leaf); [inversion Ha; reflexivity | discriminate]. }
  repeat (split; [assumption || reflexivity|]).
  unfold XbrlCalculationForestFerc1.get_key in Horig.
  destruct (nx.attr_xbrl_factoid_original a); [inversion Horig; reflexivity | discriminate].
Qed.

(** X14.  The tags of a row of the leafy metadata are gathered from the
    ancestors of the leaf alone: each tag of the row is a tag of a node with
    a path to the leaf, and each tag name of such a node is a tag name of
    the row.  The tags of the leaf itself are not read. *)
Theorem leafy_meta_tags_are_those_of_the_ancestors
    (self : XbrlCalculationForestFerc1.t) (f : nx.DiGraph)
    (meta : list LeafRow) (row : LeafRow) :
  XbrlCalculationForestFerc1.forest self = Ok f ->
  XbrlCalculationForestFerc1.leafy_meta self = Ok meta ->
  In row meta ->
  (forall k v, In (k, v) (leaf_tags row) ->
               exists node a t,
                 nx.path f node (leaf_node row) /\ node <> leaf_node row
                 /\ nx.node_attrs f node = Some a
                 /\ nx.attr_tags a = Some t /\ In (k, v) t)
  /\ (forall node a t k v,
         nx.path f node (leaf_node row) -> node <> leaf_node row ->
         nx.node_attrs f node = Some a ->
         nx.attr_tags a = Some t -> In (k, v) t ->
         exists v', In (k, v') (leaf_tags row)).
Proof.
  intros Hf Hmeta Hrow.
  destruct (leafy_meta_row _ _ _ _ Hf Hmeta Hrow)
    as (a & anc & acc & _ & Hanc & Hacc & -> & _).
  pose proof (ancestors_spec f _ anc (forest_closed self f Hf) Hanc) as Hspec.
  destruct (inherit_tags _ _ _ _ _ _ Hacc) as (Hfrom & _ & Hnew).
  split.
  - intros k v Hkv. destruct (Hfrom k v Hkv) as [[] | (node & a0 & t & Hn & Ha0 & Ht & Hin)].
    apply Hspec in Hn. destruct Hn as [Hp Hne].
    exists node, a0, t. repeat split; assumption.
  - intros node a0 t k v Hp Hne Ha0 Ht Hin.
    apply (Hnew node a0 t k v); try assumption.
    apply Hspec. split; assumption.
Qed.

Lemma leafy_meta_tags_are_those_of_the_ancestors_witness :
  exists node a t,
    nx.path tagged_forest node (mkNodeId "plant_in_service_ferc1" "additions")
    /\ node <> mkNodeId "plant_in_service_ferc1" "additions"
    /\ nx.node_attrs tagged_forest node = Some a
    /\ nx.attr_tags a = Some t /\ In ("in_rate_base", "yes") t.
Proof.
  refine (proj1 (leafy_meta_tags_are_those_of_the_ancestors
                   tagged_self tagged_forest tagged_leafy_meta
                   (mkLeaf (mkNodeId "plant_in_service_ferc1" "additions")
                           (mkNodeId "balance_sheet_assets_ferc1"
                                     "assets_and_other_debits")
                           "additions" (-1)%float [("in_rate_base", "yes")])
                   _ _ _) "in_rate_base" "yes" _).
  - vm_compute. reflexivity.
  - vm_compute. reflexivity.
  - vm_compute. left. reflexivity.
  - left. reflexivity.
Defined.

(** ** The leafy data: a left merge *)

Lemma mul_null (x w : float) :
  PrimFloat.is_nan x = true -> PrimFloat.is_nan (PrimFloat.mul x w) = true.
Proof.
  intros H. apply is_nan_Prim2SF. rewrite FloatAxioms.mul_spec.
  apply is_nan_Prim2SF in H. rewrite H. reflexivity.
Qed.

Lemma In_merge_leafy (meta : list LeafRow) (exploded_data : list BalanceRow)
    (m : LeafRow) (d : option BalanceRow) :
  In (m, d) (XbrlCalculationForestFerc1.merge_leafy meta exploded_data)
  <-> In m meta
      /\ match d with
         | Some r =>
           In r exploded_data
           /\ b_table_name r = source_table (leaf_node m)
           /\ b_xbrl_factoid r = node_factoid (leaf_node m)
         | None =>
           forall r, In r exploded_data ->
                     ~ (b_table_name r = source_table (leaf_node m)
                        /\ b_xbrl_factoid r = node_factoid (leaf_node m))
         end.
Proof.
  unfold XbrlCalculationForestFerc1.merge_leafy. rewrite in_flat_map.
  assert (forall (m0 : LeafRow) r,
             In r (filter (fun d => String.eqb (b_table_name d)
                                               (source_table (leaf_node m0))
                                    && String.eqb (b_xbrl_factoid d)
                                                  (node_factoid (leaf_node m0)))
                          exploded_data)
             <-> In r exploded_data
                 /\ b_table_name r = source_table (leaf_node m0)
                 /\ b_xbrl_factoid r = node_factoid (leaf_node m0)) as Hhit.
  { intros m0 r. rewrite filter_In, andb_true_iff, !String.eqb_eq. reflexivity. }
  split.
  - intros (m0 & Hm0 & Hin). cbv zeta in Hin.
    destruct (filter _ exploded_data) as [|h hits] eqn:E.
    + destruct Hin as [Hin | []]. inversion Hin; subst m0 d.
      split; [exact Hm0|]. intros r Hr Hmatch.
      assert (In r []) as Hnil; [|exact Hnil].
      rewrite <- E. apply Hhit. split; [exact Hr | exact Hmatch].
    + apply in_map_iff in Hin. destruct Hin as (r & Hr & Hin).
      inversion Hr; subst m0 d. split; [exact Hm0|].
      apply Hhit. rewrite E. exact Hin.
  - intros (Hm & Hd). exists m. split; [exact Hm|]. cbv zeta.
    destruct (filter _ exploded_data) as [|h hits] eqn:E.
    + destruct d as [r|]; [|left; reflexivity].
      exfalso. assert (In r []) as Hnil; [|exact Hnil].
      rewrite <- E. apply Hhit. exact Hd.
    + destruct d as [r|].
      * apply in_map_iff. exists r. split; [reflexivity|].
        rewrite <- E. apply Hhit. exact Hd.
      * exfalso. apply (Hd h).
        -- apply (Hhit m h). rewrite E. left; reflexivity.
        -- apply (Hhit m h). rewrite E. left; reflexivity.
Qed.

(** The leafy metadata lists no leaf twice. *)
Lemma leafy_meta_leaf_nodes_NoDup (self : XbrlCalculationForestFerc1.t)
    (meta : list LeafRow) :
  XbrlCalculationForestFerc1.leafy_meta self = Ok meta ->
  NoDup (map leaf_node meta).
Proof.
  intros Hmeta.
  destruct (XbrlCalculationForestFerc1.forest self) as [f|e] eqn:Hf.
  2:{ unfold XbrlCalculationForestFerc1.leafy_meta in Hmeta.
      rewrite Hf in Hmeta. discriminate. }
  pose proof (forest_NoDup self f Hf) as Hnd.
  unfold XbrlCalculationForestFerc1.leafy_meta,
    XbrlCalculationForestFerc1.forest_leaves,
    XbrlCalculationForestFerc1.forest_roots in Hmeta.
  rewrite Hf in Hmeta. cbn [bind] in Hmeta.
  apply bind_Ok in Hmeta. destruct Hmeta as (m & Hm & Hmeta).
  apply bind_Ok in Hmeta. destruct Hmeta as (lrs & Hlrs & Hmeta).
  destruct (leaf_to_root_map_keys _ _ _ _ Hm) as [Hkeys Hspec].
  pose proof (leaf_rows_leaves _ _ _ _ Hlrs) as Hleaves.
  assert (NoDup (XbrlCalculationForestFerc1.leaves f)) as Hndl
      by (apply NoDup_filter; exact Hnd).
  assert (map leaf_node meta = map fst m) as ->; [|exact Hkeys].
  assert (meta
          = flat_map
              (fun lr =>
                 map (fun '(leaf, original, w, tg) =>
                        mkLeaf leaf (snd lr) original w tg)
                     (filter (fun '(leaf, _, _, _) => NodeId_eqb leaf (fst lr)) lrs))
              m) as ->.
  { destruct lrs as [|x xs]; [discriminate|].
    destruct m as [|y ys]; [discriminate|].
    inversion Hmeta; reflexivity. }
  clear Hmeta Hm Hkeys.
  assert (forall k, In k (map fst m) ->
                    In k (map (fun x => fst (fst (fst x))) lrs)) as Hsub.
  { intros k Hk. rewrite Hleaves. exact (proj1 (proj1 (Hspec k) Hk)). }
  clear Hspec. induction m as [|[k r] m IH]; [reflexivity|].
  simpl. rewrite map_app. rewrite IH by (intros k' Hk'; apply Hsub; right; exact Hk').
  rewrite leaf_rows_of_key; [reflexivity | rewrite Hleaves; exact Hndl |].
  apply Hsub. left; reflexivity.
Qed.

(** In the merge, the rows of one leaf are the merge of that leaf alone. *)
Lemma merge_leafy_of_leaf (meta : list LeafRow) (exploded_data : list BalanceRow)
    (m : LeafRow) :
  NoDup (map leaf_node meta) -> In m meta ->
  filter (fun md => NodeId_eqb (leaf_node (fst md)) (leaf_node m))
         (XbrlCalculationForestFerc1.merge_leafy meta exploded_data)
  = XbrlCalculationForestFerc1.merge_leafy [m] exploded_data.
Proof.
  assert (forall a rest,
             XbrlCalculationForestFerc1.merge_leafy (a :: rest) exploded_data
             = XbrlCalculationForestFerc1.merge_leafy [a] exploded_data
               ++ XbrlCalculationForestFerc1.merge_leafy rest exploded_data) as Hcons.
  { intros a rest. unfold XbrlCalculationForestFerc1.merge_leafy.
    cbn [flat_map]. rewrite app_nil_r. reflexivity. }
  assert (forall (l : list LeafRow) (keep : bool),
             (forall a, In a l ->
                        NodeId_eqb (leaf_node a) (leaf_node m) = keep) ->
             filter (fun md => NodeId_eqb (leaf_node (fst md)) (leaf_node m))
                    (XbrlCalculationForestFerc1.merge_leafy l exploded_data)
             = if keep then XbrlCalculationForestFerc1.merge_leafy l exploded_data
               else []) as Hsame.
  { intros l keep Hl.
    assert (forall md, In md (XbrlCalculationForestFerc1.merge_leafy l exploded_data) ->
                       NodeId_eqb (leaf_node (fst md)) (leaf_node m) = keep) as Hall.
    { intros [a d] Hin. apply In_merge_leafy in Hin. apply Hl. exact (proj1 Hin). }
    revert Hall. generalize (XbrlCalculationForestFerc1.merge_leafy l exploded_data).
    intros L. induction L as [|md L IH]; intros Hall; simpl.
    - destruct keep; reflexivity.
    - rewrite (Hall md (or_introl eq_refl)).
      rewrite IH by (intros x Hx; apply Hall; right; exact Hx).
      destruct keep; reflexivity. }
  induction meta as [|a rest IH]; intros Hnd Hm; [contradiction|].
  simpl in Hnd. inversion Hnd as [|? ? Ha Hrest]; subst.
  rewrite Hcons, filter_app. destruct Hm as [-> | Hm].
  - rewrite (Hsame [m] true), (Hsame rest false).
    + apply app_nil_r.
    + intros a Ha'. apply NodeId_eqb_neq. intros E. apply Ha. rewrite <- E.
      apply in_map. exact Ha'.
    + intros a [<- | []]. apply NodeId_eqb_refl.
  - rewrite (Hsame [a] false), (IH Hrest Hm); [reflexivity|].
    intros a' [<- | []]. apply NodeId_eqb_neq. intros E. apply Ha. rewrite E.
    apply in_map. exact Hm.
Qed.

(** X15.  [leafy_data] is a left merge of the leafy metadata with the
    exploded data on the table and the factoid: every leaf is kept, with
    each data row of its table and factoid or, when there is none, once with
    null balances; a data row that matches no leaf is dropped; and the
    starting balance of a merged row is the reported one times the weight of
    the leaf.  The rows of a leaf in the result are one for each data row of
    its table and factoid, in the order of the data, or a single row without
    data, and they all carry the metadata of that leaf. *)
Theorem leafy_data_keeps_each_leaf_and_only_its_data
    (self : XbrlCalculationForestFerc1.t) (exploded_data : list BalanceRow)
    (meta : list LeafRow) (out : list LeafyDataRow) :
  XbrlCalculationForestFerc1.leafy_meta self = Ok meta ->
  XbrlCalculationForestFerc1.leafy_data self exploded_data = Ok out ->
  (forall m, In m meta ->
     let hits :=
       filter (fun d => String.eqb (b_table_name d) (source_table (leaf_node m))
                        && String.eqb (b_xbrl_factoid d) (node_factoid (leaf_node m)))
              exploded_data in
     let of_leaf :=
       filter (fun x => NodeId_eqb (leaf_node (ld_meta x)) (leaf_node m)) out in
     map ld_data of_leaf
     = match hits with
       | [] => [None]
       | _ :: _ => map Some hits
       end
     /\ forall x, In x of_leaf -> ld_meta x = m)
  /\ (forall m, In m meta -> exists x, In x out /\ ld_meta x = m)
  /\ (forall m d, In m meta -> In d exploded_data ->
                  b_table_name d = source_table (leaf_node m) ->
                  b_xbrl_factoid d = node_factoid (leaf_node m) ->
                  exists x, In x out /\ ld_meta x = m /\ ld_data x = Some d)
  /\ (forall x, In x out ->
        In (ld_meta x) meta
        /\ match ld_data x with
           | Some d =>
             In d exploded_data
             /\ b_table_name d = source_table (leaf_node (ld_meta x))
             /\ b_xbrl_factoid d = node_factoid (leaf_node (ld_meta x))
             /\ starting_balance x
                = PrimFloat.mul (b_starting_balance d) (leaf_weight (ld_meta x))
           | None =>
             (forall d, In d exploded_data ->
                        ~ (b_table_name d = source_table (leaf_node (ld_meta x))
                           /\ b_xbrl_factoid d = node_factoid (leaf_node (ld_meta x))))
             /\ PrimFloat.is_nan (starting_balance x) = true
             /\ PrimFloat.is_nan (ending_balance x) = true
           end).
Proof.
  intros Hmeta Hout. unfold XbrlCalculationForestFerc1.leafy_data in Hout.
  rewrite Hmeta in Hout. simpl in Hout. inversion Hout; subst out. clear Hout.
  split; [|split; [|split]].
  - intros m Hm. cbv zeta.
    assert (filter (fun x => NodeId_eqb (leaf_node (ld_meta x)) (leaf_node m))
                   (map (fun md => XbrlCalculationForestFerc1.assign_balances
                                     (fst md) (snd md))
                        (XbrlCalculationForestFerc1.merge_leafy meta exploded_data))
            = map (fun md => XbrlCalculationForestFerc1.assign_balances
                               (fst md) (snd md))
                  (XbrlCalculationForestFerc1.merge_leafy [m] exploded_data)) as ->.
    { rewrite <- (merge_leafy_of_leaf meta exploded_data m
                    (leafy_meta_leaf_nodes_NoDup self meta Hmeta) Hm).
      generalize (XbrlCalculationForestFerc1.merge_leafy meta exploded_data).
      intros L. induction L as [|md L IH]; [reflexivity|]. simpl.
      destruct (NodeId_eqb (leaf_node (fst md)) (leaf_node m)); simpl; rewrite IH;
        reflexivity. }
    unfold XbrlCalculationForestFerc1.merge_leafy. cbn [flat_map].
    rewrite app_nil_r.
    destruct (filter _ exploded_data) as [|h hits].
    + split; [reflexivity|]. intros x [<- | []]. reflexivity.
    + split.
      * rewrite !map_map. apply map_ext. intros d. reflexivity.
      * intros x Hx. apply in_map_iff in Hx. destruct Hx as (md & <- & Hmd).
        apply in_map_iff in Hmd. destruct Hmd as (d & <- & _). reflexivity.
  - intros m Hm.
    destruct (filter (fun d => String.eqb (b_table_name d) (source_table (leaf_node m))
                               && String.eqb (b_xbrl_factoid d)
                                             (node_factoid (leaf_node m)))
                     exploded_data) as [|h hits] eqn:E.
    + exists (XbrlCalculationForestFerc1.assign_balances m None).
      split; [|reflexivity].
      apply in_map_iff. exists (m, None). split; [reflexivity|].
      apply In_merge_leafy. split; [exact Hm|]. intros r Hr [H1 H2].
      assert (In r []) as Hnil; [|exact Hnil].
      rewrite <- E. apply filter_In. split; [exact Hr|].
      rewrite H1, H2, !String.eqb_refl. reflexivity.
    + assert (In h (h :: hits)) as Hh by (left; reflexivity).
      rewrite <- E in Hh. apply filter_In in Hh. destruct Hh as [Hh Hmatch].
      apply andb_true_iff in Hmatch. destruct Hmatch as [H1 H2].
      apply String.eqb_eq in H1, H2.
      exists (XbrlCalculationForestFerc1.assign_balances m (Some h)).
      split; [|reflexivity].
      apply in_map_iff. exists (m, Some h). split; [reflexivity|].
      apply In_merge_leafy. auto.
  - intros m d Hm Hd H1 H2.
    exists (XbrlCalculationForestFerc1.assign_balances m (Some d)).
    split; [|split; reflexivity].
    apply in_map_iff. exists (m, Some d). split; [reflexivity|].
    apply In_merge_leafy. auto.
  - intros x Hx. apply in_map_iff in Hx. destruct Hx as ([m d] & <- & Hin).
    apply In_merge_leafy in Hin. destruct Hin as [Hm Hd]. simpl.
    split; [exact Hm|]. destruct d as [r|]; simpl.
    + destruct Hd as (H0 & H1 & H2). auto.
    + split; [exact Hd|]. split.
      * apply mul_null. reflexivity.
      * apply mul_null, mul_null. reflexivity.
Qed.

Lemma leafy_data_keeps_each_leaf_and_only_its_data_witness :
  map ld_data
      (filter (fun x => NodeId_eqb (leaf_node (ld_meta x))
                                   (mkNodeId "plant_in_service_ferc1" "additions"))
              tree_leafy_data)
  = [Some (mkBalance "plant_in_service_ferc1" "additions" [("report_year", "2021")]
                     10%float 20%float)]
  /\ map ld_data
         (filter (fun x => NodeId_eqb (leaf_node (ld_meta x))
                                      (mkNodeId "plant_in_service_ferc1" "retirements"))
                 tree_leafy_data)
     = [None].
Proof.
  split.
  - refine (proj1 (proj1 (leafy_data_keeps_each_leaf_and_only_its_data
                            tree_self sample_balances tree_leafy_meta tree_leafy_data
                            _ _)
                         (mkLeaf (mkNodeId "plant_in_service_ferc1" "additions")
                                 (mkNodeId "balance_sheet_assets_ferc1"
                                           "assets_and_other_debits")
                                 "additions" (-1)%float [])
                         _)).
    + vm_compute. reflexivity.
    + vm_compute. reflexivity.
    + left. reflexivity.
  - refine (proj1 (proj1 (leafy_data_keeps_each_leaf_and_only_its_data
                            tree_self sample_balances tree_leafy_meta tree_leafy_data
                            _ _)
                         (mkLeaf (mkNodeId "plant_in_service_ferc1" "retirements")
                                 (mkNodeId "balance_sheet_assets_ferc1"
                                           "assets_and_other_debits")
                                 "retirements" 1%float [])
                         _)).
    + vm_compute. reflexivity.
    + vm_compute. reflexivity.
    + right. left. reflexivity.
Defined.

(** ** Reconciliation without comparable rows *)

(** X16.  When the frame has a calculated amount but no row has both a
    reported and a calculated value (an empty frame among them), the ratio
    cannot be formed and [reconcile_intertable_calculations] raises a
    [ZeroDivisionError]. *)
Theorem reconcile_divides_by_zero_without_comparable_rows
    (classes : list (string * TableParams)) (self : Exploder.t)
    (df : DataFrame) (calculation_tolerance : float) (col : string) :
  has_calculated_amount df = true ->
  Exploder.value_col classes self = Ok (Some col) ->
  (forall r, In r (rows df) ->
             PrimFloat.is_nan (d_value r) = true
             \/ PrimFloat.is_nan (d_calculated_amount r) = true) ->
  exists e,
    Exploder.reconcile_intertable_calculations classes self df calculation_tolerance
    = Raise e
    /\ kind e = ZeroDivisionError.
Proof.
  intros Hcol Hvc Hnull.
  assert (Exploder.calculated_values df = []) as Hnone.
  { unfold Exploder.calculated_values, Exploder.assigned. cbn [rows].
    induction (rows df) as [|r l IH]; [reflexivity|]. simpl.
    unfold Exploder.notnull at 1. cbn [Exploder.with_diffs d_abs_diff].
    rewrite (abs_diff_null _ _ (Hnull r (or_introl eq_refl))). simpl.
    apply IH. intros r' Hr'. apply Hnull. right; exact Hr'. }
  unfold Exploder.reconcile_intertable_calculations.
  rewrite Hcol, Hvc. cbn [bind]. cbv zeta. rewrite Hnone. simpl.
  eexists. split; reflexivity.
Qed.

Lemma reconcile_divides_by_zero_without_comparable_rows_witness :
  exists e,
    Exploder.reconcile_intertable_calculations
      income_classes income_exploder
      (mkFrame true [income_row "net_income_loss" PrimFloat.nan 5%float])
      Exploder.default_calculation_tolerance
    = Raise e
    /\ kind e = ZeroDivisionError.
Proof.
  apply (reconcile_divides_by_zero_without_comparable_rows
           income_classes income_exploder _ _ "dollar_value").
  - reflexivity.
  - vm_compute. reflexivity.
  - intros r [<- | []]. left. reflexivity.
Defined.

(** ** The value column: tables without a transformer *)

Lemma lookup_class_In (classes : list (string * TableParams)) (tbl : string)
    (p : TableParams) :
  Exploder.lookup_class classes tbl = Ok p -> In (tbl, p) classes.
Proof.
  induction classes as [|[k q] classes IH]; simpl; [discriminate|].
  destruct (String.eqb k tbl) eqn:E.
  - apply String.eqb_eq in E. intros H. inversion H; subst. left; reflexivity.
  - intros H. right. apply IH. exact H.
Qed.

Lemma lookup_class_Raise (classes : list (string * TableParams)) (tbl : string) (e : exn) :
  Exploder.lookup_class classes tbl = Raise e -> kind e = KeyError.
Proof.
  induction classes as [|[k q] classes IH]; simpl.
  - intros H. inversion H. reflexivity.
  - destruct (String.eqb k tbl); [discriminate | exact IH].
Qed.

(** X17.  [value_col] raises a [KeyError] when one of the tables has no
    entry in [FERC1_TFR_CLASSES], whatever the value columns of the other
    tables are. *)
Theorem value_col_raises_on_table_without_transformer
    (classes : list (string * TableParams)) (self : Exploder.t) (tbl : string) :
  In tbl (Exploder.table_names self) ->
  (forall p, ~ In (tbl, p) classes) ->
  exists e, Exploder.value_col classes self = Raise e /\ kind e = KeyError.
Proof.
  intros Htbl Hnone. unfold Exploder.value_col.
  assert (exists e, Exploder.collect_value_cols classes (Exploder.table_names self)
                    = Raise e /\ kind e = KeyError) as (e & -> & Hk).
  { induction (Exploder.table_names self) as [|t ts IH]; [contradiction|]. simpl.
    destruct (Exploder.lookup_class classes t) as [p|e] eqn:E; simpl.
    - destruct Htbl as [-> | Htbl].
      + exfalso. exact (Hnone p (lookup_class_In _ _ _ E)).
      + destruct (IH Htbl) as (e & -> & Hk). exists e. split; [reflexivity | exact Hk].
    - exists e. split; [reflexivity | exact (lookup_class_Raise _ _ _ E)]. }
  exists e. split; [reflexivity | exact Hk].
Qed.

Lemma value_col_raises_on_table_without_transformer_witness :
  exists e,
    Exploder.value_col income_classes
      (Exploder.mk ["income_statement_ferc1"; "retained_earnings_ferc1"]
                   "income_statement_ferc1")
    = Raise e
    /\ kind e = KeyError.
Proof.
  apply (value_col_raises_on_table_without_transformer _ _ "retained_earnings_ferc1").
  - right. left. reflexivity.
  - intros p [H | []]. discriminate H.
Defined.

(** ** The metadata after the redefinition *)

Lemma merge_meta_left_rows (metadata : list MetaRow) (c : CalcComponent)
    (tbl factoid : string) :
  (exists cr, In cr (merge_meta_left metadata c tbl factoid))
  /\ forall cr, In cr (merge_meta_left metadata c tbl factoid) ->
                comp cr = c /\ calc_table_name cr = tbl /\ calc_xbrl_factoid cr = factoid.
Proof.
  unfold merge_meta_left. destruct (filter _ metadata) as [|h hits].
  - split; [eexists; left; reflexivity|].
    intros cr [<- | []]. repeat split.
  - split.
    + eexists. left. reflexivity.
    + intros cr Hcr. apply in_map_iff in Hcr. destruct Hcr as (m & <- & _).
      repeat split.
Qed.

(** X18.  What [redefine_calculations_with_components_out_of_explosion]
    returns: a row is demoted exactly when some row with its factoid name
    has a component none of whose source tables is exploded, and is left
    as it was otherwise; so no component outside the explosion remains in
    the metadata returned; and the names kept on the instance are those of
    the components outside the explosion. *)
Theorem redefinition_leaves_only_components_in_explosion
    (self self' : MetadataExploder.t) (meta out : list MetaRow) :
  MetadataExploder.redefine_calculations_with_components_out_of_explosion self meta
  = Ok (out, self') ->
  Forall2 (fun r o =>
             ((exists r' c, In r' meta /\ xbrl_factoid r' = xbrl_factoid r
                            /\ In c (calculations r')
                            /\ in_explosion_tables (source_tables c)
                                 (MetadataExploder.table_names self) = false)
              /\ o = MetadataExploder.demote r)
             \/ ((forall r' c, In r' meta -> xbrl_factoid r' = xbrl_factoid r ->
                               In c (calculations r') ->
                               in_explosion_tables (source_tables c)
                                 (MetadataExploder.table_names self) = true)
                 /\ o = r))
          meta out
  /\ (forall o c, In o out -> In c (calculations o) ->
                  in_explosion_tables (source_tables c)
                    (MetadataExploder.table_names self) = true)
  /\ (forall n,
         In n (MetadataExploder.inter_table_components_in_intra_table_calc self')
         <-> exists r c, In r meta /\ In c (calculations r) /\ name c = n
                         /\ in_explosion_tables (source_tables c)
                              (MetadataExploder.table_names self) = false)
  /\ MetadataExploder.table_names self' = MetadataExploder.table_names self.
Proof.
  unfold MetadataExploder.redefine_calculations_with_components_out_of_explosion,
    convert_calculations_into_calculation_component_table.
  destruct meta as [|m0 meta0] eqn:Em; [discriminate|]. rewrite <- Em. clear Em m0 meta0.
  cbn [bind].
  set (calcs := flat_map _ meta).
  destruct (negb (negb (Nat.eqb (List.length calcs) 0))); [discriminate|].
  set (not_in := filter _ _).
  assert (forall cr, In cr not_in ->
                     exists r, In r meta /\ In (comp cr) (calculations r)
                               /\ calc_xbrl_factoid cr = xbrl_factoid r
                               /\ in_explosion_tables (source_tables (comp cr))
                                    (MetadataExploder.table_names self) = false)
    as Hfrom.
  { intros cr Hcr. apply filter_In in Hcr. destruct Hcr as [Hcr Hflag].
    apply in_map_iff in Hcr. destruct Hcr as (cr0 & <- & Hcr0).
    cbn in Hflag. apply negb_true_iff in Hflag.
    apply in_flat_map in Hcr0. destruct Hcr0 as ([[c tbl] f] & Hc & Hcr0).
    apply (proj2 (merge_meta_left_rows meta c tbl f)) in Hcr0.
    destruct Hcr0 as (E1 & E2 & E3).
    apply in_flat_map in Hc. destruct Hc as (r & Hr & Hc).
    apply in_map_iff in Hc. destruct Hc as (c' & Hc' & Hin).
    inversion Hc' as [[Ec Et Ef]]. rewrite Ec in Hin.
    exists r. cbn. rewrite E1, E3. rewrite E1 in Hflag. auto. }
  assert (forall r c, In r meta -> In c (calculations r) ->
                      in_explosion_tables (source_tables c)
                        (MetadataExploder.table_names self) = false ->
                      exists cr, In cr not_in /\ comp cr = c
                                 /\ calc_xbrl_factoid cr = xbrl_factoid r) as Hto.
  { intros r c Hr Hc Hflag.
    destruct (merge_meta_left_rows meta c (table_name r) (xbrl_factoid r))
      as [(cr & Hcr) Hrows].
    destruct (Hrows cr Hcr) as (E1 & E2 & E3).
    exists (mkCalcRow (comp cr) (calc_table_name cr) (calc_xbrl_factoid cr) (calc_meta cr)
                      (in_explosion_tables (source_tables (comp cr))
                                           (MetadataExploder.table_names self))).
    split; [|split; [exact E1 | exact E3]].
    apply filter_In. split.
    - apply in_map_iff. exists cr. split; [reflexivity|].
      apply in_flat_map. exists (c, table_name r, xbrl_factoid r). split; [|exact Hcr].
      apply in_flat_map. exists r. split; [exact Hr|].
      apply in_map_iff. exists c. split; [reflexivity | exact Hc].
    - cbn. rewrite E1, Hflag. reflexivity. }
  clearbody not_in. clear calcs.
  intros H. inversion H; subst out self'. clear H.
  set (bad := Py.unique String.eqb (map calc_xbrl_factoid not_in)).
  assert (forall f, In f bad
                    <-> exists r' c, In r' meta /\ xbrl_factoid r' = f
                                     /\ In c (calculations r')
                                     /\ in_explosion_tables (source_tables c)
                                          (MetadataExploder.table_names self) = false)
    as Hbad.
  { intros f. unfold bad. rewrite (unique_In String.eqb String.eqb_eq), in_map_iff. split.
    - intros (cr & <- & Hcr). destruct (Hfrom cr Hcr) as (r & Hr & Hc & E & Hflag).
      exists r, (comp cr). auto.
    - intros (r & c & Hr & <- & Hc & Hflag).
      destruct (Hto r c Hr Hc Hflag) as (cr & Hcr & _ & E).
      exists cr. split; assumption. }
  assert (forall r, In r meta ->
                    ((exists r' c, In r' meta /\ xbrl_factoid r' = xbrl_factoid r
                                   /\ In c (calculations r')
                                   /\ in_explosion_tables (source_tables c)
                                        (MetadataExploder.table_names self) = false)
                     /\ (if Py.str_in (xbrl_factoid r) bad
                         then MetadataExploder.demote r else r)
                        = MetadataExploder.demote r)
                    \/ ((forall r' c, In r' meta -> xbrl_factoid r' = xbrl_factoid r ->
                                      In c (calculations r') ->
                                      in_explosion_tables (source_tables c)
                                        (MetadataExploder.table_names self) = true)
                        /\ (if Py.str_in (xbrl_factoid r) bad
                            then MetadataExploder.demote r else r) = r)) as Hrow.
  { intros r Hr. destruct (Py.str_in (xbrl_factoid r) bad) eqn:E.
    - left. split; [|reflexivity]. apply Hbad. apply str_in_In. exact E.
    - right. split; [|reflexivity]. intros r' c Hr' Ef Hc.
      destruct (in_explosion_tables (source_tables c)
                  (MetadataExploder.table_names self)) eqn:Hflag; [reflexivity|].
      exfalso. assert (In (xbrl_factoid r) bad) as Hin
          by (apply Hbad; exists r', c; auto).
      apply str_in_In in Hin. congruence. }
  split; [apply Forall2_map_self; exact Hrow|]. split; [|split; [|reflexivity]].
  - intros o c Ho Hc. apply in_map_iff in Ho. destruct Ho as (r & <- & Hr).
    destruct (Hrow r Hr) as [[_ E] | [Hall E]]; rewrite E in Hc.
    + destruct Hc.
    + exact (Hall r c Hr eq_refl Hc).
  - intros n. cbn. rewrite (unique_In String.eqb String.eqb_eq), in_map_iff. split.
    + intros (cr & <- & Hcr). destruct (Hfrom cr Hcr) as (r & Hr & Hc & _ & Hflag).
      exists r, (comp cr). auto.
    + intros (r & c & Hr & Hc & <- & Hflag).
      destruct (Hto r c Hr Hc Hflag) as (cr & Hcr & E & _).
      exists cr. rewrite E. split; [reflexivity | exact Hcr].
Qed.

Lemma redefinition_leaves_only_components_in_explosion_witness :
  In "electric_operating_revenues"
     (MetadataExploder.inter_table_components_in_intra_table_calc
        (snd income_redefined))
  <-> exists r c, In r income_meta /\ In c (calculations r)
                  /\ name c = "electric_operating_revenues"
                  /\ in_explosion_tables (source_tables c) ["income_statement_ferc1"]
                     = false.
Proof.
  refine (proj1 (proj2 (proj2 (redefinition_leaves_only_components_in_explosion
                                 (MetadataExploder.mk ["income_statement_ferc1"] [])
                                 (snd income_redefined) income_meta
                                 (fst income_redefined) _)))
                "electric_operating_revenues").
  vm_compute. reflexivity.
Defined.

(** ** Instances *)

Lemma NoDup_is_unique (l : list NodeId) :
  NoDup l -> XbrlCalculationForestFerc1.is_unique l = true.
Proof.
  induction 1 as [|x l Hx _ IH]; simpl; [reflexivity|].
  rewrite IH, andb_true_r. apply negb_true_iff.
  destruct (nx.node_in x l) eqn:E; [|reflexivity].
  apply node_in_In in E. contradiction.
Qed.

Lemma seeds_within_bounds_Ok (v : list NodeId) (meta : list MetaRow) :
  (exists v', XbrlCalculationForestFerc1.seeds_within_bounds v meta = Ok v')
  <-> incl v (XbrlCalculationForestFerc1.index meta).
Proof.
  unfold XbrlCalculationForestFerc1.seeds_within_bounds. cbv zeta. split.
  - intros (v' & H) s Hs.
    destruct (nx.node_in s (XbrlCalculationForestFerc1.index meta)) eqn:E;
      [apply node_in_In; exact E|].
    assert (In s (filter (fun seed =>
                            negb (nx.node_in seed (XbrlCalculationForestFerc1.index meta)))
                         v)) as Hin
        by (apply filter_In; split; [exact Hs | rewrite E; reflexivity]).
    destruct (filter _ v); [contradiction | discriminate].
  - intros Hincl. exists v.
    assert (filter (fun seed =>
                      negb (nx.node_in seed (XbrlCalculationForestFerc1.index meta))) v
            = []) as ->; [|reflexivity].
    induction v as [|s v IH]; [reflexivity|]. simpl.
    rewrite (proj2 (node_in_In _ _) (Hincl s (or_introl eq_refl))). simpl.
    apply IH. intros x Hx. apply Hincl. right; exact Hx.
Qed.

(** X19.  An instance is made exactly when the metadata index and the tag
    index are unique and every seed given is in the metadata index; it then
    holds the metadata and the tags as given and, for seeds, those given or
    the whole index when none is given. *)
Theorem instance_is_made_iff_indexes_unique_and_seeds_known
    (meta : list MetaRow) (seeds : list NodeId) (tags : list (NodeId * nx.Tags))
    (self : XbrlCalculationForestFerc1.t) :
  XbrlCalculationForestFerc1.construct meta seeds tags = Ok self
  <-> NoDup (XbrlCalculationForestFerc1.index meta)
      /\ NoDup (map fst tags)
      /\ incl seeds (XbrlCalculationForestFerc1.index meta)
      /\ self = XbrlCalculationForestFerc1.mk
                  meta
                  (match seeds with
                   | [] => XbrlCalculationForestFerc1.index meta
                   | _ => seeds
                   end)
                  tags.
Proof.
  unfold XbrlCalculationForestFerc1.construct,
    XbrlCalculationForestFerc1.dataframe_has_unique_index.
  assert (incl (XbrlCalculationForestFerc1.seeds_not_empty seeds meta)
               (XbrlCalculationForestFerc1.index meta)
          <-> incl seeds (XbrlCalculationForestFerc1.index meta)) as Hseeds.
  { destruct seeds as [|s seeds]; simpl; [|reflexivity].
    split; intros _ x Hx; [contradiction | exact Hx]. }
  split.
  - intros H.
    destruct (XbrlCalculationForestFerc1.is_unique
                (XbrlCalculationForestFerc1.index meta)) eqn:Em; [|discriminate].
    cbn [bind] in H.
    destruct (XbrlCalculationForestFerc1.seeds_within_bounds
                (XbrlCalculationForestFerc1.seeds_not_empty seeds meta) meta)
      as [v|e] eqn:Es; [|discriminate].
    cbn [bind] in H.
    destruct (XbrlCalculationForestFerc1.is_unique (map fst tags)) eqn:Et;
      [|discriminate].
    cbn [bind] in H. inversion H; subst self.
    split; [apply is_unique_NoDup; exact Em|].
    split; [apply is_unique_NoDup; exact Et|].
    split; [apply Hseeds, seeds_within_bounds_Ok; exists v; exact Es|].
    f_equal. unfold XbrlCalculationForestFerc1.seeds_within_bounds in Es.
    cbv zeta in Es. destruct (filter _ _); [|discriminate]. inversion Es. reflexivity.
  - intros (Hm & Ht & Hs & ->).
    rewrite (NoDup_is_unique _ Hm), (NoDup_is_unique _ Ht). cbn [bind].
    apply Hseeds, seeds_within_bounds_Ok in Hs. destruct Hs as (v & Hv).
    rewrite Hv. cbn [bind]. f_equal. f_equal.
    unfold XbrlCalculationForestFerc1.seeds_within_bounds in Hv.
    cbv zeta in Hv. destruct (filter _ _); [|discriminate]. inversion Hv. reflexivity.
Qed.

(** ** Table levels *)

Lemma dict_get_str_In {V : Type} (d : list (string * V)) (k : string) (v : V) :
  Py.dict_get String.eqb d k = Some v -> In (k, v) d.
Proof.
  induction d as [|[k' v'] d IH]; simpl; [discriminate|].
  destruct (String.eqb k' k) eqn:E.
  - apply String.eqb_eq in E. intros H. inversion H; subst. left; reflexivity.
  - intros H. right. apply IH. exact H.
Qed.

(** X20.  [get_table_level] gives level 1 to the top table itself, whatever
    it is, and level 2 to the tables directly below a top table of the
    nesting; with a top table that the nesting does not have, any other
    table is a [KeyError]; and below the liabilities and the income
    statement, whose sub-tables are mapped to [None], a table that is
    neither the top table nor directly below it is an [AttributeError], not
    the [AssertionError] that explains the failure. *)
Theorem get_table_level_outside_the_nesting
    (dedupe_n_flatten_list_of_lists : list (list string) -> list string)
    (table_name top_table : string) (sub : Nesting) :
  table_name <> top_table ->
  (get_table_level dedupe_n_flatten_list_of_lists top_table top_table = Ok 1%Z)
  /\ ((forall v, ~ In (top_table, v) (entries table_nesting)) ->
      exists e,
        get_table_level dedupe_n_flatten_list_of_lists table_name top_table = Raise e
        /\ kind e = KeyError)
  /\ (In (top_table, Some sub) (entries table_nesting) ->
      (In table_name (map fst (entries sub)) ->
       get_table_level dedupe_n_flatten_list_of_lists table_name top_table = Ok 2%Z)
      /\ (~ In table_name (map fst (entries sub)) ->
          top_table = "balance_sheet_liabilities_ferc1"
          \/ top_table = "income_statement_ferc1" ->
          exists e,
            get_table_level dedupe_n_flatten_list_of_lists table_name top_table = Raise e
            /\ kind e = AttributeError)).
Proof.
  intros Hne. unfold get_table_level.
  rewrite String.eqb_refl. split; [reflexivity|].
  apply String.eqb_neq in Hne. rewrite Hne. split.
  - intros Hnone. unfold getitem.
    destruct (Py.dict_get String.eqb (entries table_nesting) top_table) eqn:E.
    + exfalso. apply (Hnone o). exact (dict_get_str_In _ _ _ E).
    + eexists. split; reflexivity.
  - intros Hsub. simpl in Hsub.
    destruct Hsub as [H | [H | [H | []]]]; inversion H; subst top_table sub; clear H;
      cbn [getitem table_nesting entries Py.dict_get String.eqb Ascii.eqb Bool.eqb
           bind keys map fst]; split.
    + intros Hin. apply str_in_In in Hin. rewrite Hin. reflexivity.
    + intros _ [H | H]; discriminate H.
    + intros Hin. apply str_in_In in Hin. rewrite Hin. reflexivity.
    + intros Hin _.
      destruct (Py.str_in table_name _) eqn:E; [apply str_in_In in E; contradiction|].
      eexists. split; reflexivity.
    + intros Hin. apply str_in_In in Hin. rewrite Hin. reflexivity.
    + intros Hin _.
      destruct (Py.str_in table_name _) eqn:E; [apply str_in_In in E; contradiction|].
      eexists. split; reflexivity.
Qed.

Lemma get_table_level_outside_the_nesting_witness :
  exists e,
    get_table_level (fun _ => []) "plant_in_service_ferc1" "income_statement_ferc1"
    = Raise e
    /\ kind e = AttributeError.
Proof.
  refine (proj2 (proj2 (proj2 (get_table_level_outside_the_nesting
                                 (fun _ => []) "plant_in_service_ferc1"
                                 "income_statement_ferc1"
                                 (Nested
                                    [ ("depreciation_amortization_summary_ferc1", None);
                                      ("electric_operating_expenses_ferc1", None);
                                      ("electric_operating_revenues_ferc1", None) ])
                                 _)) _) _ _).
  - discriminate.
  - simpl. right. right. left. reflexivity.
  - simpl. intros [H | [H | [H | []]]]; discriminate H.
  - right. reflexivity.
Defined.

(** X21.  Below the assets, the one top table whose sub-table has sub-tables
    of its own, [get_table_level] gives level 3 to the two tables below the
    utility plant summary and raises the [AssertionError] for every table
    that is not in the group, provided
    [dedupe_n_flatten_list_of_lists] returns the members of the lists it is
    given. *)
Theorem get_table_level_below_the_assets
    (dedupe_n_flatten_list_of_lists : list (list string) -> list string)
    (table_name : string) :
  (forall x ll, In x (dedupe_n_flatten_list_of_lists ll)
                <-> exists l, In l ll /\ In x l) ->
  table_name <> "balance_sheet_assets_ferc1" ->
  table_name <> "utility_plant_summary_ferc1" ->
  (table_name = "plant_in_service_ferc1"
   \/ table_name = "electric_plant_depreciation_functional_ferc1" ->
   get_table_level dedupe_n_flatten_list_of_lists table_name
                   "balance_sheet_assets_ferc1" = Ok 3%Z)
  /\ (table_name <> "plant_in_service_ferc1" ->
      table_name <> "electric_plant_depreciation_functional_ferc1" ->
      exists e,
        get_table_level dedupe_n_flatten_list_of_lists table_name
                        "balance_sheet_assets_ferc1" = Raise e
        /\ kind e = AssertionError).
Proof.
  intros Hdedupe Htop Hsub. unfold get_table_level.
  apply String.eqb_neq in Htop. rewrite Htop.
  cbn [getitem table_nesting entries Py.dict_get String.eqb Ascii.eqb Bool.eqb
       bind keys values map fst snd Py.mapM].
  assert (Py.str_in table_name ["utility_plant_summary_ferc1"] = false) as ->.
  { destruct (Py.str_in table_name _) eqn:E; [|reflexivity].
    apply str_in_In in E. destruct E as [E | []]. congruence. }
  split.
  - intros Hin.
    assert (Py.str_in table_name
              (dedupe_n_flatten_list_of_lists
                 [["plant_in_service_ferc1";
                   "electric_plant_depreciation_functional_ferc1"]]) = true) as ->;
      [|reflexivity].
    apply str_in_In, Hdedupe. eexists. split; [left; reflexivity|].
    destruct Hin as [-> | ->]; [left | right; left]; reflexivity.
  - intros H1 H2.
    assert (Py.str_in table_name
              (dedupe_n_flatten_list_of_lists
                 [["plant_in_service_ferc1";
                   "electric_plant_depreciation_functional_ferc1"]]) = false) as ->.
    { destruct (Py.str_in table_name _) eqn:E; [|reflexivity].
      apply str_in_In, Hdedupe in E. destruct E as (l & [<- | []] & [E | [E | []]]);
        congruence. }
    eexists. split; reflexivity.
Qed.

Lemma get_table_level_below_the_assets_witness :
  get_table_level (@List.concat string) "plant_in_service_ferc1"
                  "balance_sheet_assets_ferc1" = Ok 3%Z.
Proof.
  refine (proj1 (get_table_level_below_the_assets
                   (@List.concat string) "plant_in_service_ferc1" _ _ _) _).
  - intros x ll. apply in_concat.
  - discriminate.
  - discriminate.
  - left. reflexivity.
Defined.

(** ** When the builder returns *)

Lemma foldM_progress {A S : Type} (I : S -> Prop) (body : S -> A -> result S)
    (l : list A) :
  (forall s x, In x l -> I s -> exists s', body s x = Ok s' /\ I s') ->
  forall s, I s -> exists s', Py.foldM body l s = Ok s' /\ I s'.
Proof.
  induction l as [|a l IH]; intros Hstep s Hs; simpl.
  - exists s. split; [reflexivity | exact Hs].
  - destruct (Hstep s a (or_introl eq_refl) Hs) as (s1 & -> & Hs1). simpl.
    apply IH; [|exact Hs1].
    intros t x Hx. apply Hstep. right; exact Hx.
Qed.

Lemma visit_calc_progress (meta : list MetaRow) (tags : list (NodeId * nx.Tags))
    (from_node : NodeId) (st : XbrlCalculationForestFerc1.builder_state)
    (calc : CalcComponent) :
  XbrlCalculationForestFerc1.builder_invariant meta tags st ->
  List.length (source_tables calc) = 1 ->
  (forall row c, In row meta -> In c (calculations row) ->
                 XbrlCalculationForestFerc1.to_node c
                 = XbrlCalculationForestFerc1.to_node calc ->
                 PrimFloat.eqb (weight c) (weight calc) = true) ->
  exists st', XbrlCalculationForestFerc1.visit_calc tags from_node st calc = Ok st'.
Proof.
  intros Hinv Hlen Hw. destruct st as [forest attrs].
  pose proof (XbrlCalculationForestFerc1.inv_weight_from _ _ _ Hinv) as Hwf.
  simpl in Hwf.
  unfold XbrlCalculationForestFerc1.visit_calc.
  rewrite Hlen. cbn [Nat.eqb assert bind].
  assert (exists tbl, XbrlCalculationForestFerc1.to_node calc
                      = Some (mkNodeId tbl (name calc))
                      /\ source_tables calc = [tbl]) as (tbl & Hto & Etbl).
  { unfold XbrlCalculationForestFerc1.to_node.
    destruct (source_tables calc) as [|tbl [|? ?]]; try discriminate.
    exists tbl. split; reflexivity. }
  rewrite Etbl.
  destruct (nx.attr_weight
              (XbrlCalculationForestFerc1.attrs_of attrs (mkNodeId tbl (name calc))))
    as [w|] eqn:Ew; [|eexists; reflexivity].
  destruct (Py.float_truthy w); [|eexists; reflexivity].
  destruct (Hwf _ _ Ew) as (row & c & Hrow & Hc & Hcn & <-).
  rewrite (Hw row c Hrow Hc (eq_trans Hcn (eq_sym Hto))). cbn [negb].
  eexists. reflexivity.
Qed.

Lemma visit_row_progress (meta : list MetaRow) (tags : list (NodeId * nx.Tags))
    (row : MetaRow) (st : XbrlCalculationForestFerc1.builder_state) :
  NoDup (XbrlCalculationForestFerc1.index meta) ->
  (forall calc, In calc (calculations row) -> List.length (source_tables calc) = 1) ->
  (forall calc r c, In calc (calculations row) -> In r meta -> In c (calculations r) ->
                    XbrlCalculationForestFerc1.to_node c
                    = XbrlCalculationForestFerc1.to_node calc ->
                    PrimFloat.eqb (weight c) (weight calc) = true) ->
  In row meta ->
  XbrlCalculationForestFerc1.builder_invariant meta tags st ->
  exists st', XbrlCalculationForestFerc1.visit_row tags st row = Ok st'.
Proof.
  intros Huniq Hlen Hw Hrow Hinv. destruct st as [forest attrs].
  pose proof Hinv as [Hcl Hnd Hbare Hends Hedges Htg Hwt Hwf Hof]. simpl in *.
  unfold XbrlCalculationForestFerc1.visit_row.
  set (a := XbrlCalculationForestFerc1.attrs_of attrs (node_of_row row)).
  assert (exists a0,
             match nx.attr_xbrl_factoid_original a with
             | Some s =>
               if String.eqb s ""
               then Ok (XbrlCalculationForestFerc1.set_original
                          a (xbrl_factoid_original row))
               else _ <- assert (String.eqb s (xbrl_factoid_original row)) ;; Ok a
             | None => Ok (XbrlCalculationForestFerc1.set_original
                             a (xbrl_factoid_original row))
             end = Ok a0
             /\ nx.attr_weight a0 = nx.attr_weight a
             /\ nx.attr_xbrl_factoid_original a0 = Some (xbrl_factoid_original row))
    as (a0 & -> & Hweight & Horig).
  { destruct (nx.attr_xbrl_factoid_original a) as [s|] eqn:Es.
    - destruct (String.eqb s "") eqn:E0.
      + eexists. split; [reflexivity|]. split; reflexivity.
      + destruct (Hof _ _ Es) as (row' & Hrow' & Hnode & Hs).
        assert (row' = row) as -> by (apply (unique_index_row meta); assumption).
        rewrite <- Hs, String.eqb_refl. cbn [assert bind].
        exists a. split; [reflexivity|]. split; [reflexivity|]. rewrite Hs. exact Es.
    - eexists. split; [reflexivity|]. split; reflexivity. }
  cbn [bind].
  destruct (foldM_progress
              (fun s => XbrlCalculationForestFerc1.builder_invariant meta tags s
                        /\ nx.attr_tags (XbrlCalculationForestFerc1.attrs_of
                                           (snd s) (node_of_row row))
                           = Some (XbrlCalculationForestFerc1.tags_loc
                                     tags (node_of_row row)))
              (XbrlCalculationForestFerc1.visit_calc tags (node_of_row row))
              (calculations row))
    with (s := (forest,
                nx.attrs_set attrs (node_of_row row)
                  (XbrlCalculationForestFerc1.set_tags
                     a0 (XbrlCalculationForestFerc1.tags_loc tags (node_of_row row)))))
    as (st' & Hst' & _).
  - intros s c Hc [Hs Htags].
    destruct (visit_calc_progress meta tags (node_of_row row) s c Hs (Hlen c Hc))
      as (s' & Hs').
    { intros r c' Hr Hc' Hto. exact (Hw c r c' Hc Hr Hc' Hto). }
    exists s'. split; [exact Hs'|].
    exact (visit_calc_invariant meta tags row c s s' Hrow Hc Hs Htags Hs').
  - split; [constructor; simpl; try assumption|].
    + intros n Hn. rewrite attrs_of_set.
      destruct (NodeId_eqb (node_of_row row) n) eqn:E; [|apply Htg; assumption].
      apply NodeId_eqb_eq in E. subst n. reflexivity.
    + intros x y Hxy. rewrite attrs_of_set.
      destruct (NodeId_eqb (node_of_row row) y) eqn:E; [|apply (Hwt x y); assumption].
      apply NodeId_eqb_eq in E. subst y. simpl. rewrite Hweight.
      apply (Hwt x); assumption.
    + intros n w. rewrite attrs_of_set.
      destruct (NodeId_eqb (node_of_row row) n) eqn:E; [|apply Hwf].
      apply NodeId_eqb_eq in E. subst n. simpl. rewrite Hweight. apply Hwf.
    + intros n s. rewrite attrs_of_set.
      destruct (NodeId_eqb (node_of_row row) n) eqn:E; [|apply Hof].
      apply NodeId_eqb_eq in E. subst n. simpl. rewrite Horig.
      intros Hs. inversion Hs; subst s. exists row. repeat split. assumption.
    + simpl. rewrite attrs_of_set, NodeId_eqb_refl. reflexivity.
  - exists st'. exact Hst'.
Qed.

(** X22.  The builder returns a graph whenever the metadata index is
    unique, every component has exactly one source table and the weights of
    the components that name the same node are equal numbers. *)
Theorem builder_returns_on_consistent_metadata
    (meta : list MetaRow) (tags : list (NodeId * nx.Tags)) :
  NoDup (XbrlCalculationForestFerc1.index meta) ->
  (forall row calc, In row meta -> In calc (calculations row) ->
                    List.length (source_tables calc) = 1) ->
  (forall r1 c1 r2 c2,
      In r1 meta -> In c1 (calculations r1) ->
      In r2 meta -> In c2 (calculations r2) ->
      XbrlCalculationForestFerc1.to_node c1 = XbrlCalculationForestFerc1.to_node c2 ->
      PrimFloat.eqb (weight c1) (weight c2) = true) ->
  exists g, XbrlCalculationForestFerc1.exploded_meta_to_digraph meta tags = Ok g.
Proof.
  intros Huniq Hlen Hw.
  destruct (foldM_progress (XbrlCalculationForestFerc1.builder_invariant meta tags)
              (XbrlCalculationForestFerc1.visit_row tags) meta)
    with (s := (nx.empty, @nil (NodeId * nx.NodeAttrs))) as ([forest attrs] & Hst & _).
  - intros s row Hrow Hs.
    destruct (visit_row_progress meta tags row s Huniq) as (s' & Hs'); try assumption.
    + intros calc Hc. exact (Hlen row calc Hrow Hc).
    + intros calc r c Hc Hr Hc' Hto. exact (Hw r c row calc Hr Hc' Hrow Hc Hto).
    + exists s'. split; [exact Hs'|].
      exact (visit_row_invariant meta tags row s s' Hrow Hs Hs').
  - constructor; simpl; try (intros; contradiction); try discriminate.
    + intros u v [].
    + constructor.
  - unfold XbrlCalculationForestFerc1.exploded_meta_to_digraph. rewrite Hst. simpl.
    eexists. reflexivity.
Qed.

Lemma builder_returns_on_consistent_metadata_witness :
  exists g, XbrlCalculationForestFerc1.exploded_meta_to_digraph root_leaf_meta [] = Ok g.
Proof.
  apply builder_returns_on_consistent_metadata.
  - apply is_unique_NoDup. reflexivity.
  - intros row calc Hrow Hc.
    destruct Hrow as [<- | [<- | []]]; simpl in Hc; [|destruct Hc].
    destruct Hc as [<- | []]. reflexivity.
  - intros r1 c1 r2 c2 H1 Hc1 H2 Hc2 _.
    destruct H1 as [<- | [<- | []]]; simpl in Hc1; [|destruct Hc1].
    destruct Hc1 as [<- | []].
    destruct H2 as [<- | [<- | []]]; simpl in Hc2; [|destruct Hc2].
    destruct Hc2 as [<- | []]. reflexivity.
Defined.

(** ** Without seeds *)

Lemma built_graph_nodes (meta : list MetaRow) (tags : list (NodeId * nx.Tags))
    (g : nx.DiGraph) (n : NodeId) :
  XbrlCalculationForestFerc1.exploded_meta_to_digraph meta tags = Ok g ->
  In n (nx.node_list g)
  <-> ~ In n XbrlCalculationForestFerc1.bad_nodes
      /\ exists m,
           In (n, m) (XbrlCalculationForestFerc1.calculation_edges meta)
           \/ In (m, n) (XbrlCalculationForestFerc1.calculation_edges meta).
Proof.
  intros H. destruct (exploded_meta_to_digraph_Ok _ _ _ H) as (forest & attrs & Hfold & ->).
  pose proof (builder_loop_invariant _ _ _ Hfold) as Hinv.
  pose proof (builder_loop_edges _ _ _ Hfold) as Hall.
  destruct Hinv as [Hcl _ _ Hends Hedges _ _ _ _].
  simpl in Hcl, Hends, Hedges, Hall.
  rewrite In_node_list_remove, node_list_set_node_attributes. split.
  - intros [Hn Hbad]. split; [exact Hbad|].
    destruct (Hends n Hn) as (m & [Hm | Hm]); exists m; [left | right];
      apply Hedges; exact Hm.
  - intros [Hbad (m & [Hm | Hm])]; (split; [|exact Hbad]);
      apply Hall in Hm; apply Hcl in Hm; tauto.
Qed.

(** X23.  With no seeds given, so that the seeds are the whole metadata
    index, and a unique index, the seeded digraph, when it is built, has
    exactly the nodes and the edges of the full digraph. *)
Theorem seeded_digraph_without_seeds_is_the_full_digraph
    (self : XbrlCalculationForestFerc1.t) (full g : nx.DiGraph) :
  XbrlCalculationForestFerc1.seeds self
  = XbrlCalculationForestFerc1.index (XbrlCalculationForestFerc1.exploded_meta self) ->
  XbrlCalculationForestFerc1.is_unique
    (XbrlCalculationForestFerc1.index
       (XbrlCalculationForestFerc1.exploded_meta self)) = true ->
  XbrlCalculationForestFerc1.full_digraph self = Ok full ->
  XbrlCalculationForestFerc1.seeded_digraph self = Ok g ->
  (forall u v, In (u, v) (nx.edges g) <-> In (u, v) (nx.edges full))
  /\ (forall n, In n (nx.node_list g) <-> In n (nx.node_list full)).
Proof.
  intros Hseeds Huniq Hfull Hg. apply is_unique_NoDup in Huniq.
  destruct (seeded_digraph_cases self full Hfull) as [Hbad Hgood].
  destruct (all_or_some_false (nx.has_node full)
              (XbrlCalculationForestFerc1.seeds self)) as [Hall | Hsome].
  2:{ destruct (Hbad Hsome) as (e & He & _). congruence. }
  destruct (Hgood Hall) as (ns & Hns & Heq). rewrite Heq in Hg.
  apply bind_Ok in Hg. destruct Hg as (meta & Hloc & Hg).
  destruct (loc_rows _ _ _ Hloc) as [Hrows Hnodes].
  unfold XbrlCalculationForestFerc1.full_digraph in Hfull.
  assert (forall u v,
             In (u, v) (XbrlCalculationForestFerc1.calculation_edges meta)
             <-> In (u, v) (XbrlCalculationForestFerc1.calculation_edges
                              (XbrlCalculationForestFerc1.exploded_meta self)))
    as Hsame.
  { intros u v. rewrite !In_calculation_edges. split.
    - intros (row & calc & Hrow & Hcalc & Hu & Hv).
      exists row, calc. repeat split; try assumption. exact (proj1 (Hrows row Hrow)).
    - intros (row & calc & Hrow & Hcalc & Hu & Hv).
      assert (In u ns) as Hin.
      { apply Hns. left. rewrite Hseeds, <- Hu.
        unfold XbrlCalculationForestFerc1.index. apply in_map. exact Hrow. }
      destruct (Hnodes u Hin) as (r & Hr & Hrmeta & Hrnode).
      assert (r = row) as -> by (apply (unique_index_row _ _ _ Huniq); congruence).
      exists row, calc. repeat split; assumption. }
  split.
  - intros u v. rewrite (built_graph_edges _ _ _ u v Hg).
    rewrite (built_graph_edges _ _ _ u v Hfull), Hsame. reflexivity.
  - intros n. rewrite (built_graph_nodes _ _ _ n Hg).
    rewrite (built_graph_nodes _ _ _ n Hfull).
    split; intros [Hb (m & Hm)]; (split; [exact Hb|]); exists m;
      rewrite !Hsame in *; exact Hm.
Qed.

Lemma seeded_digraph_without_seeds_is_the_full_digraph_witness :
  In (mkNodeId "balance_sheet_assets_ferc1" "assets_and_other_debits",
      mkNodeId "utility_plant_summary_ferc1" "utility_plant_net")
     (nx.edges tree_seeded)
  <-> In (mkNodeId "balance_sheet_assets_ferc1" "assets_and_other_debits",
          mkNodeId "utility_plant_summary_ferc1" "utility_plant_net")
         (nx.edges tree_full).
Proof.
  refine (proj1 (seeded_digraph_without_seeds_is_the_full_digraph
                   tree_self tree_full tree_seeded _ _ _ _) _ _);
    vm_compute; reflexivity.
Defined.

(** ** Weights of zero *)

Lemma foldM_each_Ok {A S : Type} (body : S -> A -> result S) (l : list A) :
  forall s s', Py.foldM body l s = Ok s' ->
               forall x, In x l -> exists s0 s1, body s0 x = Ok s1.
Proof.
  induction l as [|a l IH]; intros s s' H x Hx; [contradiction|].
  simpl in H. apply bind_Ok in H. destruct H as (s1 & H1 & H2).
  destruct Hx as [<- | Hx].
  - exists s, s1. exact H1.
  - exact (IH s1 s' H2 x Hx).
Qed.

Lemma path_first_edge (g : nx.DiGraph) (u v : NodeId) :
  nx.path g u v -> exists x, In (u, x) (nx.edges g).
Proof.
  induction 1 as [u v H | u v w H _ _]; exists v; exact H.
Qed.

(** X24.  A weight of zero counts as no weight: when a node that is not a
    root of the forest carries a weight of zero and has a path to a leaf,
    [leafy_meta] does not return, it raises. *)
Theorem leafy_meta_raises_on_zero_weight_ancestor
    (self : XbrlCalculationForestFerc1.t) (f : nx.DiGraph) (leaf node : NodeId)
    (a : nx.NodeAttrs) (w : float) :
  XbrlCalculationForestFerc1.forest self = Ok f ->
  In leaf (XbrlCalculationForestFerc1.leaves f) ->
  nx.path f node leaf ->
  ~ In node (XbrlCalculationForestFerc1.roots f) ->
  nx.node_attrs f node = Some a ->
  nx.attr_weight a = Some w ->
  PrimFloat.eqb w 0 = true ->
  exists e, XbrlCalculationForestFerc1.leafy_meta self = Raise e.
Proof.
  intros Hf Hleaf Hpath Hroot Ha Hw Hzero.
  destruct (XbrlCalculationForestFerc1.leafy_meta self) as [meta|e] eqn:Hmeta;
    [exfalso | exists e; reflexivity].
  pose proof (forest_closed self f Hf) as Hclosed.
  unfold XbrlCalculationForestFerc1.leafy_meta,
    XbrlCalculationForestFerc1.forest_leaves,
    XbrlCalculationForestFerc1.forest_roots in Hmeta.
  rewrite Hf in Hmeta. cbn [bind] in Hmeta.
  apply bind_Ok in Hmeta. destruct Hmeta as (m & _ & Hmeta).
  apply bind_Ok in Hmeta. destruct Hmeta as (lrs & Hlrs & _).
  destruct (mapM_all _ _ _ _ Hlrs Hleaf) as (y & _ & Hy).
  unfold XbrlCalculationForestFerc1.leaf_row in Hy.
  apply bind_Ok in Hy. destruct Hy as (a0 & _ & Hy).
  apply bind_Ok in Hy. destruct Hy as (anc & Hanc & Hy).
  apply bind_Ok in Hy. destruct Hy as (acc & Hacc & _).
  assert (In node anc) as Hin.
  { apply (ancestors_spec f leaf anc Hclosed Hanc). split; [exact Hpath|].
    intros ->. destruct (path_first_edge _ _ _ Hpath) as (x & Hx).
    apply filter_In in Hleaf. destruct Hleaf as [_ Hdeg]. apply Nat.eqb_eq in Hdeg.
    apply (proj1 (length_zero_iff_no_member _) Hdeg x).
    apply In_succ_list. exact Hx. }
  destruct (foldM_each_Ok _ _ _ _ Hacc node Hin) as ([t0 w0] & s1 & Hstep).
  unfold XbrlCalculationForestFerc1.inherit in Hstep.
  apply bind_Ok in Hstep. destruct Hstep as (a1 & _ & Hstep).
  apply bind_Ok in Hstep. destruct Hstep as (t1 & _ & Hstep).
  apply bind_Ok in Hstep. destruct Hstep as (nw & Hnw & _).
  unfold XbrlCalculationForestFerc1.node_weight,
    XbrlCalculationForestFerc1.get_attrs in Hnw.
  rewrite Ha in Hnw. cbn [bind] in Hnw. rewrite Hw in Hnw.
  unfold Py.float_truthy in Hnw. rewrite Hzero in Hnw. cbn [negb] in Hnw.
  apply bind_Ok in Hnw. destruct Hnw as (u & Hu & _).
  apply assert_Ok, node_in_In in Hu. exact (Hroot Hu).
Qed.

Lemma leafy_meta_raises_on_zero_weight_ancestor_witness :
  exists e, XbrlCalculationForestFerc1.leafy_meta zero_weight_self = Raise e.
Proof.
  apply (leafy_meta_raises_on_zero_weight_ancestor
           zero_weight_self zero_weight_forest
           (mkNodeId "plant_in_service_ferc1" "additions")
           (mkNodeId "utility_plant_summary_ferc1" "utility_plant_net")
           (nx.mkAttrs (Some "utility_plant_net") (Some 0%float) (Some []))
           0%float).
  - vm_compute. reflexivity.
  - vm_compute. left. reflexivity.
  - apply nx.path_edge. vm_compute. right. left. reflexivity.
  - vm_compute. intros [H | []]. discriminate H.
  - vm_compute. reflexivity.
  - reflexivity.
  - vm_compute. reflexivity.
Defined.

(** ** Stepparents *)

Lemma stepparents_loop (g : nx.DiGraph) (l : list NodeId) :
  incl l (nx.node_list g) ->
  forall acc,
  exists out,
    Py.foldM (fun stepparents stepchild =>
                preds <- nx.predecessors g stepchild ;;
                Ok (XbrlCalculationForestFerc1.set_union stepparents preds))
             l acc = Ok out
    /\ forall p, In p out <-> In p acc \/ exists c, In c l /\ In (p, c) (nx.edges g).
Proof.
  induction l as [|c l IH]; intros Hincl acc; simpl.
  - exists acc. split; [reflexivity|]. intros p. split; [auto|].
    intros [H | (c & [] & _)]. exact H.
  - unfold nx.predecessors at 1, nx.has_node.
    rewrite (proj2 (node_in_In _ _) (Hincl c (or_introl eq_refl))). cbn [bind].
    destruct (IH (fun x Hx => Hincl x (or_intror Hx))
                 (XbrlCalculationForestFerc1.set_union acc (nx.pred_list g c)))
      as (out & Hout & Hspec).
    exists out. split; [exact Hout|]. intros p. rewrite Hspec, set_union_In, In_pred_list.
    split.
    + intros [[H | H] | (c' & Hc' & H)]; auto.
      * right. exists c. split; [left; reflexivity | exact H].
      * right. exists c'. split; [right; exact Hc' | exact H].
    + intros [H | (c' & [<- | Hc'] & H)]; auto.
      right. exists c'. split; assumption.
Qed.

(** X25.  When the seeded digraph is built, [stepparents] returns, and what
    it returns are exactly the nodes with an edge to a node that has more
    than one parent. *)
Theorem stepparents_are_the_parents_of_stepchildren
    (self : XbrlCalculationForestFerc1.t) (g : nx.DiGraph) :
  XbrlCalculationForestFerc1.seeded_digraph self = Ok g ->
  exists l,
    XbrlCalculationForestFerc1.stepparents self = Ok l
    /\ forall p, In p l
                 <-> exists c, In (p, c) (nx.edges g)
                               /\ 2 <= List.length (nx.pred_list g c).
Proof.
  intros Hg. unfold XbrlCalculationForestFerc1.stepparents,
    XbrlCalculationForestFerc1.stepchildren.
  rewrite Hg. cbn [bind].
  destruct (stepparents_loop g (XbrlCalculationForestFerc1.stepchildren_of g))
    with (acc := @nil NodeId) as (out & Hout & Hspec).
  { intros c Hc. apply filter_In in Hc. exact (proj1 Hc). }
  exists out. split; [exact Hout|]. intros p. rewrite Hspec. split.
  - intros [[] | (c & Hc & Hpc)]. exists c. split; [exact Hpc|].
    apply filter_In in Hc. destruct Hc as [_ Hc]. apply Nat.ltb_lt in Hc. exact Hc.
  - intros (c & Hpc & Hlen). right. exists c. split; [|exact Hpc].
    apply filter_In. split.
    + exact (proj2 (seeded_digraph_closed _ _ Hg _ _ Hpc)).
    + apply Nat.ltb_lt. exact Hlen.
Qed.

Lemma stepparents_are_the_parents_of_stepchildren_witness :
  exists l,
    XbrlCalculationForestFerc1.stepparents stepchild_self = Ok l
    /\ forall p, In p l
                 <-> exists c, In (p, c) (nx.edges stepchild_seeded)
                               /\ 2 <= List.length (nx.pred_list stepchild_seeded c).
Proof.
  apply (stepparents_are_the_parents_of_stepchildren stepchild_self stepchild_seeded).
  vm_compute. reflexivity.
Defined.

(** ** Graphs without nodes, indexes with duplicates *)

(** [nx.is_forest] has no answer for a graph without nodes: when the seeded
    digraph has none, [forest] raises. *)
Lemma forest_raises_on_empty_seeded_digraph
    (self : XbrlCalculationForestFerc1.t) (g : nx.DiGraph) :
  XbrlCalculationForestFerc1.seeded_digraph self = Ok g ->
  nx.nodes g = [] ->
  exists e,
    XbrlCalculationForestFerc1.forest self = Raise e
    /\ kind e = NetworkXPointlessConcept.
Proof.
  intros Hg Hn.
  unfold XbrlCalculationForestFerc1.forest, XbrlCalculationForestFerc1.passthroughs.
  rewrite Hg. cbn [bind].
  assert (XbrlCalculationForestFerc1.passthroughs_of g = []) as ->.
  { unfold XbrlCalculationForestFerc1.passthroughs_of, nx.node_list.
    rewrite Hn. reflexivity. }
  unfold XbrlCalculationForestFerc1.prune. cbn [Py.foldM bind].
  unfold nx.is_forest_returns. rewrite Hn. cbn [bind].
  eexists. split; reflexivity.
Qed.

(** Seeds that are all leaves give such a graph: the rows of the leaves have
    no calculation, so the seeded digraph has no edge and no node. *)
Example forest_of_leaf_seeds_raises :
  XbrlCalculationForestFerc1.seeded_digraph
    (XbrlCalculationForestFerc1.mk
       tree_meta [mkNodeId "plant_in_service_ferc1" "additions"] [])
  = Ok nx.empty
  /\ exists e,
       XbrlCalculationForestFerc1.forest
         (XbrlCalculationForestFerc1.mk
            tree_meta [mkNodeId "plant_in_service_ferc1" "additions"] [])
       = Raise e
       /\ kind e = NetworkXPointlessConcept.
Proof.
  split; [vm_compute; reflexivity|].
  apply (forest_raises_on_empty_seeded_digraph _ nx.empty);
    [vm_compute; reflexivity | reflexivity].
Qed.

(** A metadata index with a duplicate fails its validator, and the
    construction ends in the [KeyError] of the validators of the seeds. *)
Lemma construct_raises_on_duplicate_index
    (meta : list MetaRow) (seeds : list NodeId) (tags : list (NodeId * nx.Tags)) :
  XbrlCalculationForestFerc1.is_unique (XbrlCalculationForestFerc1.index meta) = false ->
  exists e,
    XbrlCalculationForestFerc1.construct meta seeds tags = Raise e
    /\ kind e = KeyError.
Proof.
  intros H. unfold XbrlCalculationForestFerc1.construct,
    XbrlCalculationForestFerc1.dataframe_has_unique_index.
  rewrite H. eexists. split; reflexivity.
Qed.
